(** * The reservation page controller (frontend/script.js)

    A shallow embedding of the page script of the resort booking client and
    the properties its specification states about it.

    Strings are JavaScript strings: finite sequences of UTF-16 code units.
    Numbers are modelled by [Z]; the script only produces integers (through
    [parseInt]) and the model is exact for the safe integers of JavaScript
    (magnitude below 2^53), where a Number holds its integer without rounding.
    Presentation-only effects (console output, focus, scrolling, inline
    styles, button captions, timers) are not part of the modelled state. *)

From Stdlib Require Import List NArith ZArith Bool Lia String Ascii.
From Stdlib Require Decimal DecimalFacts DecimalPos DecimalN.
From Stdlib Require Import Permutation Sorted.
Import ListNotations.

Set Implicit Arguments.
Set Warnings "-register-all".

(* ================================================================== *)
(** * Platform primitives used by the script *)
(* ================================================================== *)

Module JS.

Local Open Scope N_scope.

(** A JavaScript string: its UTF-16 code units. *)
Definition JSString := list N.

(** An ASCII literal of the source, as code units. *)
Definition lit (s : string) : JSString :=
  map N_of_ascii (list_ascii_of_string s).

Definition dq : JSString := [34].   (* the double quote *)
Definition nl : JSString := [10].   (* a line feed *)

Fixpoint eqb (a b : JSString) : bool :=
  match a, b with
  | [], [] => true
  | x :: a', y :: b' => (x =? y) && eqb a' b'
  | _, _ => false
  end.

(** ** White space, [String.prototype.trim] *)

(** WhiteSpace and LineTerminator code points of ECMAScript: the set that
    [trim], [parseInt] and the regular expression class [\s] use. *)
Definition isWhiteSpace (c : N) : bool :=
  (c =? 9) || (c =? 10) || (c =? 11) || (c =? 12) || (c =? 13) || (c =? 32)
  || (c =? 160) || (c =? 5760) || ((8192 <=? c) && (c <=? 8202))
  || (c =? 8232) || (c =? 8233) || (c =? 8239) || (c =? 8287)
  || (c =? 12288) || (c =? 65279).

Fixpoint trimStart (s : JSString) : JSString :=
  match s with
  | [] => []
  | c :: s' => if isWhiteSpace c then trimStart s' else s
  end.

Definition trimEnd (s : JSString) : JSString := rev (trimStart (rev s)).

Definition trim (s : JSString) : JSString := trimEnd (trimStart s).

(** ** [String.prototype.replace] with a one-character global pattern *)

(** [s.replace(/c/g, by)]: every occurrence of the code unit [c] becomes
    [by]; the replacement strings of the script hold no [$] pattern. *)
Definition replaceAll (c : N) (by_ : JSString) (s : JSString) : JSString :=
  flat_map (fun x => if x =? c then by_ else [x]) s.

(** [s.replace('c', by)] with a string pattern: the first occurrence only. *)
Fixpoint replaceFirst (c : N) (by_ : JSString) (s : JSString) : JSString :=
  match s with
  | [] => []
  | x :: s' => if x =? c then by_ ++ s' else x :: replaceFirst c by_ s'
  end.

(** ** Numbers: [Number.prototype.toString] and [parseInt] *)

Fixpoint uintUnits (d : Decimal.uint) : JSString :=
  match d with
  | Decimal.Nil => []
  | Decimal.D0 d => 48 :: uintUnits d
  | Decimal.D1 d => 49 :: uintUnits d
  | Decimal.D2 d => 50 :: uintUnits d
  | Decimal.D3 d => 51 :: uintUnits d
  | Decimal.D4 d => 52 :: uintUnits d
  | Decimal.D5 d => 53 :: uintUnits d
  | Decimal.D6 d => 54 :: uintUnits d
  | Decimal.D7 d => 55 :: uintUnits d
  | Decimal.D8 d => 56 :: uintUnits d
  | Decimal.D9 d => 57 :: uintUnits d
  end.

(** Decimal digits of a natural number, most significant first. *)
Definition decimal (n : N) : JSString := uintUnits (N.to_uint n).

(** [n.toString()] for an integer Number. *)
Definition numberToString (z : Z) : JSString :=
  if (z <? 0)%Z then 45 :: decimal (Z.abs_N z) else decimal (Z.to_N z).

(** Value of a digit in radix 10 or 16; [None] when [c] is no such digit. *)
Definition digitValue (radix : N) (c : N) : option N :=
  if (48 <=? c) && (c <=? 57) then Some (c - 48)
  else if (radix =? 16) && (97 <=? c) && (c <=? 102) then Some (c - 87)
  else if (radix =? 16) && (65 <=? c) && (c <=? 70) then Some (c - 55)
  else None.

(** The longest prefix of digits, accumulated from the left; the flag tells
    whether at least one digit was read. *)
Fixpoint readDigits (radix : N) (s : JSString) (seen : bool) (acc : N)
  : bool * N :=
  match s with
  | [] => (seen, acc)
  | c :: s' =>
      match digitValue radix c with
      | Some d => readDigits radix s' true (acc * radix + d)
      | None => (seen, acc)
      end
  end.

(** A leading sign is removed and remembered. *)
Definition stripSign (s : JSString) : bool * JSString :=
  match s with
  | c :: r => if c =? 45 then (true, r)
              else if c =? 43 then (false, r) else (false, s)
  | [] => (false, [])
  end.

(** With no radix argument, a [0x] or [0X] prefix selects radix 16. *)
Definition stripHexPrefix (s : JSString) : N * JSString :=
  match s with
  | c0 :: c1 :: r =>
      if (c0 =? 48) && ((c1 =? 120) || (c1 =? 88)) then (16, r) else (10, s)
  | _ => (10, s)
  end.

(** [parseInt(s)] on a string, without radix: [None] is NaN.  The
    result is the integer that the digits write.  [parseInt] gives that
    integer as a Number, which holds it exactly when it is a safe integer
    (magnitude below 2^53) and rounds it otherwise: the function models
    [parseInt] on the texts whose integer is safe, and the theorems that
    read a number carry that bound. *)
Definition parseIntString (s : JSString) : option Z :=
  let '(negative, s2) := stripSign (trimStart s) in
  let '(radix, s3) := stripHexPrefix s2 in
  match readDigits radix s3 false 0 with
  | (true, n) => Some (if negative then (- Z.of_N n)%Z else Z.of_N n)
  | (false, _) => None
  end.

(** ** Values *)

(** The values the script handles: what [JSON.parse] can return, the
    undefined value and NaN.  Numbers are integers (see the header). *)
Inductive Value :=
| VUndefined
| VNull
| VBool (b : bool)
| VNum (z : Z)
| VNaN
| VStr (s : JSString)
| VArr (items : list Value)
| VObj (props : list (string * Value)).

(** ToBoolean. *)
Definition truthy (v : Value) : bool :=
  match v with
  | VUndefined | VNull | VNaN => false
  | VBool b => b
  | VNum z => negb (z =? 0)%Z
  | VStr s => match s with [] => false | _ => true end
  | VArr _ | VObj _ => true
  end.

(** [a || b]. *)
Definition or_else (a b : Value) : Value := if truthy a then a else b.

(** ToString; an array is joined with commas, its null and undefined
    items contributing the empty string.  A Number is written with all
    its digits, as JavaScript does below 10^21.  An object gives the text
    of [Object.prototype.toString]; an object that holds a property named
    [toString] of its own makes the conversion raise a TypeError instead,
    and is outside the model: the theorems that convert a field of a
    response ask for a field that is not an object. *)
Fixpoint toString (v : Value) : JSString :=
  match v with
  | VUndefined => lit "undefined"
  | VNull => lit "null"
  | VBool true => lit "true"
  | VBool false => lit "false"
  | VNum z => numberToString z
  | VNaN => lit "NaN"
  | VStr s => s
  | VArr items =>
      (fix join (l : list Value) : JSString :=
         match l with
         | [] => []
         | x :: l' =>
             let sx := match x with
                       | VUndefined | VNull => []
                       | _ => toString x
                       end in
             match l' with
             | [] => sx
             | _ => sx ++ 44 :: join l'
             end
         end) items
  | VObj _ => lit "[object Object]"
  end.

(** [parseInt(v)]: the argument is converted to a string first. *)
Definition parseInt (v : Value) : Value :=
  match parseIntString (toString v) with
  | Some z => VNum z
  | None => VNaN
  end.

Fixpoint lookup (k : string) (props : list (string * Value)) : Value :=
  match props with
  | [] => VUndefined
  | (k', v) :: rest => if String.eqb k k' then v else lookup k rest
  end.

(** Property read [v.k] for a data property [k]: [None] is the TypeError
    raised on null and undefined.  Strings and arrays own [length]. *)
Definition getProp (v : Value) (k : string) : option Value :=
  match v with
  | VUndefined | VNull => None
  | VObj props => Some (lookup k props)
  | VArr items =>
      Some (if String.eqb k "length"
            then VNum (Z.of_nat (List.length items)) else VUndefined)
  | VStr s =>
      Some (if String.eqb k "length"
            then VNum (Z.of_nat (List.length s)) else VUndefined)
  | _ => Some VUndefined
  end.

(** ** Regular expressions *)

(** The fragment the script uses: character classes, sequence, choice and
    repetition, always anchored at both ends ([^...$]), so that [test]
    is membership of the whole string in the language. *)
Inductive Re :=
| Empty
| Eps
| Class (p : N -> bool)
| Seq (a b : Re)
| Alt (a b : Re)
| Star (a : Re).

Definition Chr (c : N) : Re := Class (fun x => x =? c).
Definition Plus (a : Re) : Re := Seq a (Star a).
Fixpoint Times (n : nat) (a : Re) : Re :=
  match n with
  | O => Eps
  | S n' => Seq a (Times n' a)
  end.

Fixpoint nullable (r : Re) : bool :=
  match r with
  | Empty => false
  | Eps => true
  | Class _ => false
  | Seq a b => nullable a && nullable b
  | Alt a b => nullable a || nullable b
  | Star _ => true
  end.

Fixpoint deriv (c : N) (r : Re) : Re :=
  match r with
  | Empty => Empty
  | Eps => Empty
  | Class p => if p c then Eps else Empty
  | Seq a b =>
      if nullable a then Alt (Seq (deriv c a) b) (deriv c b)
      else Seq (deriv c a) b
  | Alt a b => Alt (deriv c a) (deriv c b)
  | Star a => Seq (deriv c a) (Star a)
  end.

(** [/^r$/.test(s)]. *)
Definition test (r : Re) (s : JSString) : bool :=
  nullable (fold_left (fun r' c => deriv c r') s r).

Definition isDigit (c : N) : bool := (48 <=? c) && (c <=? 57).

(** ** Dates *)

Local Open Scope Z_scope.

Definition isLeapYear (y : Z) : bool :=
  (y mod 4 =? 0) && (negb (y mod 100 =? 0) || (y mod 400 =? 0)).

Definition daysInMonth (y m : Z) : Z :=
  if m =? 2 then (if isLeapYear y then 29 else 28)
  else if (m =? 4) || (m =? 6) || (m =? 9) || (m =? 11) then 30
  else 31.

(** DayFromYear of ECMAScript: the day number of 1 January of year [y]. *)
Definition dayFromYear (y : Z) : Z :=
  365 * (y - 1970) + (y - 1969) / 4 - (y - 1901) / 100 + (y - 1601) / 400.

(** Days of year [y] before the first of month [m] (1 to 12). *)
Definition daysBeforeMonth (y m : Z) : Z :=
  let leap := if isLeapYear y then 1 else 0 in
  if m =? 1 then 0
  else if m =? 2 then 31
  else if m =? 3 then 59 + leap
  else if m =? 4 then 90 + leap
  else if m =? 5 then 120 + leap
  else if m =? 6 then 151 + leap
  else if m =? 7 then 181 + leap
  else if m =? 8 then 212 + leap
  else if m =? 9 then 243 + leap
  else if m =? 10 then 273 + leap
  else if m =? 11 then 304 + leap
  else 334 + leap.

Definition msPerDay : Z := 86400000.

(** The time value of UTC midnight of a calendar date. *)
Definition utcMidnight (y m d : Z) : Z :=
  (dayFromYear y + daysBeforeMonth y m + (d - 1)) * msPerDay.

Definition digitZ (c : N) : option Z :=
  if isDigit c then Some (Z.of_N c - 48) else None.

(** A calendar date written [YYYY-MM-DD] (the value format of a date
    input): its year, month and day. *)
Definition parseIsoDate (s : JSString) : option (Z * Z * Z) :=
  match s with
  | [y1; y2; y3; y4; h1; m1; m2; h2; d1; d2] =>
      match digitZ y1, digitZ y2, digitZ y3, digitZ y4,
            digitZ m1, digitZ m2, digitZ d1, digitZ d2 with
      | Some a, Some b, Some c, Some d, Some e, Some f, Some g, Some h =>
          let y := 1000 * a + 100 * b + 10 * c + d in
          let m := 10 * e + f in
          let dd := 10 * g + h in
          if (h1 =? 45)%N && (h2 =? 45)%N
             && (1 <=? m) && (m <=? 12) && (1 <=? dd) && (dd <=? daysInMonth y m)
          then Some (y, m, dd) else None
      | _, _, _, _, _, _, _, _ => None
      end
  | _ => None
  end.

(** [new Date(s)] on a string: its time value, [None] for an invalid date.
    A [YYYY-MM-DD] date is UTC midnight of that day; every other string is
    parsed in an implementation-defined way, given by [legacy]. *)
Definition dateOfString (legacy : JSString -> option Z) (s : JSString)
  : option Z :=
  match parseIsoDate s with
  | Some (y, m, d) => Some (utcMidnight y m d)
  | None => legacy s
  end.

(** Relational comparison of two Dates: false when either is invalid. *)
Definition dateLe (a b : option Z) : bool :=
  match a, b with
  | Some x, Some y => x <=? y
  | _, _ => false
  end.

Definition dateLt (a b : option Z) : bool :=
  match a, b with
  | Some x, Some y => x <? y
  | _, _ => false
  end.

End JS.

Export JS.

(* ================================================================== *)
(** * XML documents: the reader behind [DOMParser] *)
(* ================================================================== *)

(** A reader for the XML that the client exchanges: an optional XML
    declaration and processing instructions, elements with attributes,
    character data and the five predefined entity references.  Comments,
    CDATA sections, document type declarations, numeric character
    references and characters outside the Basic Multilingual Plane are
    outside this fragment: [parse] answers [None] on them as on text that
    is not well formed. *)
Module XML.

Local Open Scope N_scope.

Inductive Node :=
| Element (name : JSString) (attributes : list (JSString * JSString))
          (children : list Node)
| Text (data : JSString).

Inductive Token :=
| TStart (name : JSString) (attributes : list (JSString * JSString))
| TEmpty (name : JSString) (attributes : list (JSString * JSString))
| TEnd (name : JSString)
| TPI (target : JSString)
| TText (data : JSString).

(** Char of XML 1.0, within the Basic Multilingual Plane. *)
Definition isChar (c : N) : bool :=
  (c =? 9) || (c =? 10) || (c =? 13)
  || ((32 <=? c) && (c <=? 55295)) || ((57344 <=? c) && (c <=? 65533)).

(** The white space S of XML. *)
Definition isSpace (c : N) : bool :=
  (c =? 32) || (c =? 9) || (c =? 10) || (c =? 13).

Definition between (lo hi c : N) : bool := (lo <=? c) && (c <=? hi).

Definition isNameStart (c : N) : bool :=
  (c =? 58) || between 65 90 c || (c =? 95) || between 97 122 c
  || between 192 214 c || between 216 246 c || between 248 767 c
  || between 880 893 c || between 895 8191 c || between 8204 8205 c
  || between 8304 8591 c || between 11264 12271 c || between 12289 55295 c
  || between 63744 64975 c || between 65008 65533 c.

Definition isNameChar (c : N) : bool :=
  isNameStart c || (c =? 45) || (c =? 46) || between 48 57 c || (c =? 183)
  || between 768 879 c || between 8255 8256 c.

Definition isName (s : JSString) : bool :=
  match s with
  | [] => false
  | c :: r => isNameStart c && forallb isNameChar r
  end.

(** End-of-line handling: a carriage return, alone or before a line feed,
    is read as a line feed. *)
Fixpoint normalizeEol (s : JSString) : JSString :=
  match s with
  | [] => []
  | c :: t =>
      if c =? 13
      then match t with
           | c' :: _ => if c' =? 10 then normalizeEol t else 10 :: normalizeEol t
           | [] => [10]
           end
      else c :: normalizeEol t
  end.

(** The predefined entities. *)
Definition entityValue (name : JSString) : option N :=
  if JS.eqb name (lit "amp") then Some 38
  else if JS.eqb name (lit "lt") then Some 60
  else if JS.eqb name (lit "gt") then Some 62
  else if JS.eqb name (lit "quot") then Some 34
  else if JS.eqb name (lit "apos") then Some 39
  else None.

(** Character data or an attribute value with its references replaced.
    [pending] holds the name of a reference being read; [attr] tells that
    the text is an attribute value, whose white space becomes a space. *)
Fixpoint decode (attr : bool) (pending : option JSString) (s : JSString)
  : option JSString :=
  match s with
  | [] => match pending with None => Some [] | Some _ => None end
  | c :: s' =>
      match pending with
      | Some name =>
          if c =? 59
          then match entityValue name with
               | Some v => option_map (cons v) (decode attr None s')
               | None => None
               end
          else decode attr (Some (name ++ [c])) s'
      | None =>
          if c =? 38 then decode attr (Some []) s'
          else if (c =? 60) || negb (isChar c) then None
          else option_map (cons (if attr && isSpace c then 32 else c))
                          (decode attr None s')
      end
  end.

(** Splits [s] after its longest prefix of name characters. *)
Fixpoint spanName (s : JSString) : JSString * JSString :=
  match s with
  | [] => ([], [])
  | c :: r =>
      if isNameChar c
      then let '(n, rest) := spanName r in (c :: n, rest)
      else ([], s)
  end.

Fixpoint skipSpace (s : JSString) : JSString :=
  match s with
  | [] => []
  | c :: r => if isSpace c then skipSpace r else s
  end.

(** Splits [s] at the first occurrence of the code unit [q]. *)
Fixpoint splitAt (q : N) (s : JSString) : option (JSString * JSString) :=
  match s with
  | [] => None
  | c :: r =>
      if c =? q then Some ([], r)
      else match splitAt q r with
           | Some (a, b) => Some (c :: a, b)
           | None => None
           end
  end.

Definition hasAttribute (n : JSString) (l : list (JSString * JSString)) : bool :=
  existsb (fun kv => JS.eqb (fst kv) n) l.

(** The attributes of a start tag, after the element name; the flag of the
    result tells that the tag ends with [/].  Every attribute consumes
    input, so the length of the input is fuel enough. *)
Fixpoint parseAttributes (fuel : nat) (s : JSString)
  : option (list (JSString * JSString) * bool) :=
  match skipSpace s with
  | [] => Some ([], false)
  | [47] => Some ([], true)
  | c :: r =>
      match fuel with
      | O => None
      | S fuel' =>
          if isSpace (hd 0 s) && isNameStart c
          then
            let '(n, r1) := spanName (c :: r) in
            match skipSpace r1 with
            | e :: r2 =>
                if e =? 61
                then match skipSpace r2 with
                     | q :: r3 =>
                         if (q =? 34) || (q =? 39)
                         then match splitAt q r3 with
                              | Some (raw, r4) =>
                                  match decode true None raw,
                                        parseAttributes fuel' r4 with
                                  | Some v, Some (more, slash) =>
                                      if hasAttribute n more then None
                                      else Some ((n, v) :: more, slash)
                                  | _, _ => None
                                  end
                              | None => None
                              end
                         else None
                     | [] => None
                     end
                else None
            | [] => None
            end
          else None
      end
  end.

(** The token for the text between [<] and [>]. *)
Definition markupToken (m : JSString) : option Token :=
  match m with
  | [] => None
  | c :: r =>
      if c =? 47 then                       (* an end tag *)
        let '(n, rest) := spanName r in
        if isName n && match skipSpace rest with [] => true | _ => false end
        then Some (TEnd n) else None
      else if c =? 63 then                  (* a processing instruction *)
        let '(n, rest) := spanName r in
        if isName n && match rev rest with
                       | x :: _ => x =? 63
                       | [] => false
                       end
        then Some (TPI n) else None
      else if c =? 33 then None             (* outside the fragment *)
      else
        let '(n, rest) := spanName m in
        if isName n
        then match parseAttributes (List.length rest) rest with
             | Some (attrs, true) => Some (TEmpty n attrs)
             | Some (attrs, false) => Some (TStart n attrs)
             | None => None
             end
        else None
  end.

Inductive LexState :=
| InText (acc : JSString)
| InMarkup (acc : JSString) (quote : option N).

(** A text token, unless the character data is empty. *)
Definition textToken (raw : JSString) (rest : option (list Token))
  : option (list Token) :=
  match raw with
  | [] => rest
  | _ => match decode false None raw, rest with
         | Some t, Some k => Some (TText t :: k)
         | _, _ => None
         end
  end.

(** Whether the markup read so far may end at a [>]: a processing
    instruction ends only after a [?]. *)
Definition closes (acc : JSString) : bool :=
  match acc with
  | c :: _ :: _ => if c =? 63
                   then match rev acc with x :: _ => x =? 63 | [] => false end
                   else true
  | [c] => negb (c =? 63)
  | [] => true
  end.

Fixpoint lex (st : LexState) (s : JSString) : option (list Token) :=
  match s with
  | [] => match st with
          | InText acc => textToken acc (Some [])
          | InMarkup _ _ => None
          end
  | c :: s' =>
      match st with
      | InText acc =>
          if c =? 60 then textToken acc (lex (InMarkup [] None) s')
          else lex (InText (acc ++ [c])) s'
      | InMarkup acc (Some q) =>
          lex (InMarkup (acc ++ [c]) (if c =? q then None else Some q)) s'
      | InMarkup acc None =>
          if (c =? 62) && closes acc
          then match markupToken acc, lex (InText []) s' with
               | Some t, Some k => Some (t :: k)
               | _, _ => None
               end
          else if c =? 60 then None
          else lex (InMarkup (acc ++ [c])
                      (if ((c =? 34) || (c =? 39))
                          && negb (match acc with x :: _ => x =? 63 | [] => false end)
                       then Some c else None)) s'
      end
  end.

(** Tree construction: [stack] holds the open elements, each with the
    children read before it, newest first. *)
Fixpoint build (toks : list Token)
  (stack : list (JSString * list (JSString * JSString) * list Node))
  (cur : list Node) : option (list Node) :=
  match toks with
  | [] => match stack with [] => Some (rev cur) | _ => None end
  | TText t :: r => build r stack (Text t :: cur)
  | TPI _ :: r => build r stack cur
  | TEmpty n a :: r => build r stack (Element n a [] :: cur)
  | TStart n a :: r => build r ((n, a, cur) :: stack) []
  | TEnd n :: r =>
      match stack with
      | (n', a, outer) :: stack' =>
          if JS.eqb n n'
          then build r stack' (Element n a (rev cur) :: outer)
          else None
      | [] => None
      end
  end.

Definition isXmlTarget (t : JSString) : bool :=
  match t with
  | [a; b; c] => ((a =? 120) || (a =? 88)) && ((b =? 109) || (b =? 77))
                 && ((c =? 108) || (c =? 76))
  | _ => false
  end.

Definition isReservedPI (t : Token) : bool :=
  match t with
  | TPI n => isXmlTarget n
  | _ => false
  end.

(** The top level of a document: one element, around it only white
    space. *)
Fixpoint rootOf (top : list Node) : option Node :=
  match top with
  | [] => None
  | Text t :: r => if forallb isSpace t then rootOf r else None
  | Element n a c :: r =>
      if forallb (fun x => match x with
                           | Text t => forallb isSpace t
                           | Element _ _ _ => false
                           end) r
      then Some (Element n a c) else None
  end.

(** The document element of a well-formed text of the fragment.  A target
    named xml is the XML declaration and may only open the text. *)
Definition parse (s : JSString) : option Node :=
  match lex (InText []) (normalizeEol s) with
  | Some toks =>
      if existsb isReservedPI (tl toks) then None
      else match build toks [] [] with
           | Some top => rootOf top
           | None => None
           end
  | None => None
  end.

(** ** The DOM queries of the script *)

Fixpoint descendantsOrSelf (n : Node) : list Node :=
  match n with
  | Text _ => []
  | Element _ _ ch =>
      n :: (fix all (l : list Node) : list Node :=
              match l with
              | [] => []
              | x :: l' => descendantsOrSelf x ++ all l'
              end) ch
  end.

Definition nodeName (n : Node) : JSString :=
  match n with
  | Element nm _ _ => nm
  | Text _ => []
  end.

(** [document.getElementsByTagName(tag)]: the elements of that name in
    document order, the document element included. *)
Definition documentElementsByTagName (root : Node) (tag : JSString)
  : list Node :=
  filter (fun n => JS.eqb (nodeName n) tag) (descendantsOrSelf root).

(** [element.getElementsByTagName(tag)]: descendants only. *)
Definition getElementsByTagName (e : Node) (tag : JSString) : list Node :=
  filter (fun n => JS.eqb (nodeName n) tag) (tl (descendantsOrSelf e)).

Fixpoint textContent (n : Node) : JSString :=
  match n with
  | Text t => t
  | Element _ _ ch =>
      (fix all (l : list Node) : JSString :=
         match l with
         | [] => []
         | x :: l' => textContent x ++ all l'
         end) ch
  end.

(** [element.getAttribute(name)]: [None] is null. *)
Definition getAttribute (e : Node) (name : JSString) : option JSString :=
  match e with
  | Element _ attrs _ =>
      option_map snd (find (fun kv => JS.eqb (fst kv) name) attrs)
  | Text _ => None
  end.

End XML.

(* ================================================================== *)
(** * The page state and the effects of the handlers *)
(* ================================================================== *)

Open Scope string_scope.
Open Scope list_scope.
Open Scope Z_scope.

(** The record [getFormData] builds; [JSON.stringify] of it is the JSON
    request body. *)
Record FormData := {
  guest_name : JSString;
  email : JSString;
  phone : JSString;
  street_address : JSString;
  municipality : JSString;
  region : JSString;
  country : JSString;
  resort_name : JSString;
  checkin_date : JSString;
  checkout_date : JSString;
  guests : Z;
  payment_gateway : JSString
}.

Inductive Body :=
| NoBody
| XmlBody (text : JSString)
| JsonBody (record : FormData).

(** A call of [fetch]. *)
Record Request := {
  method : JSString;
  url : JSString;
  contentType : option JSString;
  body : Body
}.

(** A response: its status, its body read by [text()], and what [json()]
    gives for it, the parsed value or the message of the syntax error. *)
Record Response := {
  status : Z;
  text : JSString;
  json : JSString + Value
}.

Definition ok (r : Response) : bool :=
  (200 <=? status r) && (status r <=? 299).

Inductive FetchOutcome :=
| NetworkError (message : JSString)
| Responded (r : Response).

Inductive MsgType := success | error | warning | info.

(** The table body: the markup last assigned to [innerHTML] and the
    [innerHTML] of the rows appended since. *)
Record TableBody := {
  markup : JSString;
  rows : list JSString
}.

(** The state the handlers read and write.  The markup of the page is not
    part of the sources: the inputs the script reads by id are taken to
    exist, and [dom] gives the value of each.  Of the status messages
    only the newest is on the page; [messages] keeps all calls of
    [showMessage], oldest first, and [requests] all calls of [fetch]. *)
Record World := {
  dom : string -> JSString;
  editMode : bool;
  currentEditId : option JSString;
  table : TableBody;
  messages : list (MsgType * JSString);
  requests : list Request
}.

(** What the browser, the user and the server contribute to one run of a
    handler. *)
Record Platform := {
  (** the outcome of the newest of the requests issued so far *)
  fetchOutcome : list Request -> FetchOutcome;
  (** the answer to a [confirm] prompt *)
  confirmAnswer : JSString -> bool;
  (** the time value of local midnight after the current day *)
  tomorrow : Z;
  (** [new Date(s)] on strings that are not [YYYY-MM-DD] dates *)
  legacyDate : JSString -> option Z;
  (** [new Date(v).toLocaleDateString('en-US', ...)] *)
  toLocaleDateString : Value -> JSString;
  (** the document element [DOMParser] gives for a text *)
  domParser : JSString -> XML.Node;
  (** [encodeURIComponent]; [None] is its URIError *)
  encodeURIComponent : JSString -> option JSString;
  (** the text of the engine's own error messages *)
  nativeMessage : string -> JSString;
  (** the value an input keeps when the script assigns to it *)
  sanitize : string -> JSString -> JSString;
  (** the input values after [reset()] of the two forms *)
  resetValues : (string -> JSString) -> string -> JSString
}.

Inductive Exn :=
| Error (message : JSString)
| Native (kind : string).

Inductive Outcome (A : Type) :=
| Return (a : A)
| Throw (e : Exn).

Arguments Throw {A} e.

(** A handler: sequential code over the page state that may throw. *)
Definition M (A : Type) := World -> Outcome A * World.

Definition ret {A} (a : A) : M A := fun w => (Return a, w).

Definition bind {A B} (m : M A) (k : A -> M B) : M B :=
  fun w => match m w with
           | (Return a, w') => k a w'
           | (Throw e, w') => (Throw e, w')
           end.

Definition throw {A} (e : Exn) : M A := fun w => (Throw e, w).

Definition tryCatch {A} (m : M A) (handler : Exn -> M A) : M A :=
  fun w => match m w with
           | (Return a, w') => (Return a, w')
           | (Throw e, w') => handler e w'
           end.

Definition get : M World := fun w => (Return w, w).

Definition modify (f : World -> World) : M unit := fun w => (Return tt, f w).

Notation "x <- m ;; k" := (bind m (fun x => k))
  (at level 61, m at next level, right associativity).
Notation "m ;; k" := (bind m (fun _ => k))
  (at level 61, right associativity).

Definition withDom (f : string -> JSString) (w : World) : World :=
  {| dom := f; editMode := editMode w; currentEditId := currentEditId w;
     table := table w; messages := messages w; requests := requests w |}.

Definition withSession (e : bool) (i : option JSString) (w : World) : World :=
  {| dom := dom w; editMode := e; currentEditId := i;
     table := table w; messages := messages w; requests := requests w |}.

Definition withTable (t : TableBody) (w : World) : World :=
  {| dom := dom w; editMode := editMode w; currentEditId := currentEditId w;
     table := t; messages := messages w; requests := requests w |}.

Definition withMessages (l : list (MsgType * JSString)) (w : World) : World :=
  {| dom := dom w; editMode := editMode w; currentEditId := currentEditId w;
     table := table w; messages := l; requests := requests w |}.

Definition withRequests (l : list Request) (w : World) : World :=
  {| dom := dom w; editMode := editMode w; currentEditId := currentEditId w;
     table := table w; messages := messages w; requests := l |}.

(** [element.value = v] on the input with the given id. *)
Definition assign (id : string) (v : JSString) (d : string -> JSString)
  : string -> JSString :=
  fun k => if String.eqb k id then v else d k.

Definition isEmpty (s : JSString) : bool :=
  match s with [] => true | _ => false end.

(** An optional string read as a value: [None] is null. *)
Definition ofNullable (o : option JSString) : Value :=
  match o with
  | Some s => VStr s
  | None => VNull
  end.

Definition message_of (P : Platform) (e : Exn) : JSString :=
  match e with
  | Error m => m
  | Native k => nativeMessage P k
  end.

(** [v.k], raising the engine's TypeError on null and undefined. *)
Definition prop (v : Value) (k : string) : M Value :=
  match getProp v k with
  | Some x => ret x
  | None => throw (Native "TypeError: cannot read properties of null")
  end.

(* ================================================================== *)
(** * The script *)
(* ================================================================== *)

Definition API_BASE : JSString := lit "/reservations".

Definition typeName (t : MsgType) : JSString :=
  match t with
  | success => lit "success"
  | error => lit "error"
  | warning => lit "warning"
  | info => lit "info"
  end.

(** The [icons] table of [showMessage]. *)
Definition icons (t : MsgType) : JSString :=
  match t with
  | success => [9989%N]
  | error => [10060%N]
  | warning => [9888%N; 65039%N]
  | info => [8505%N; 65039%N]
  end.

(** [showMessage(message, type)]: the status element replaces the ones on
    the page; its content is the icon of the type, a space and the
    message. *)
Definition showMessage (message : JSString) (type : MsgType) : M unit :=
  modify (fun w =>
    withMessages (messages w ++ [(type, icons type ++ lit " " ++ message)]) w).

(** [fetch]: the request is recorded, a network failure rejects. *)
Definition fetch (P : Platform) (req : Request) : M Response :=
  fun w =>
    let w' := withRequests (requests w ++ [req]) w in
    match fetchOutcome P (requests w') with
    | Responded r => (Return r, w')
    | NetworkError m => (Throw (Error m), w')
    end.

(** [response.json()]. *)
Definition readJson (r : Response) : M Value :=
  match json r with
  | inr v => ret v
  | inl m => throw (Error m)
  end.

(** ** escapeXml, escapeHtml *)

Definition escapeXml (unsafe : JSString) : JSString :=
  if isEmpty unsafe then []
  else
    replaceAll 39 (lit "&apos;")
      (replaceAll 34 (lit "&quot;")
         (replaceAll 62 (lit "&gt;")
            (replaceAll 60 (lit "&lt;")
               (replaceAll 38 (lit "&amp;") unsafe)))).

(** [escapeHtml(text)]: the text becomes the content of a fresh element
    whose [innerHTML] is read back, which serialises a text node: the
    ampersand, the no-break space and the angle brackets are escaped. *)
Definition escapeHtml (text : Value) : JSString :=
  flat_map (fun c => if (c =? 38)%N then lit "&amp;"
                     else if (c =? 160)%N then lit "&nbsp;"
                     else if (c =? 60)%N then lit "&lt;"
                     else if (c =? 62)%N then lit "&gt;"
                     else [c])
           (toString text).

(** ** getFormData *)

(** [parseInt(s) || d]: NaN and zero give the default. *)
Definition intOr (d : Z) (p : option Z) : Z :=
  match p with
  | Some z => if z =? 0 then d else z
  | None => d
  end.

Definition getFormData (d : string -> JSString) : FormData :=
  {| guest_name := trim (d "guest_name");
     email := trim (d "email");
     phone := trim (d "phone");
     street_address := trim (d "street_address");
     municipality := trim (d "municipality");
     region := trim (d "region");
     country := trim (d "country");
     resort_name := d "resort_name";
     checkin_date := d "checkin_date";
     checkout_date := d "checkout_date";
     guests := intOr 1 (parseIntString (d "guests"));
     payment_gateway := d "payment_gateway" |}.

(** ** The XML request body of submitReservation *)

Definition xmlBody (formData : FormData) : JSString :=
  lit "<?xml version=" ++ dq ++ lit "1.0" ++ dq ++ lit " encoding="
    ++ dq ++ lit "UTF-8" ++ dq ++ lit "?>" ++ nl
  ++ lit "<reservation>" ++ nl
  ++ lit "    <guest_name>" ++ escapeXml (guest_name formData)
  ++ lit "</guest_name>" ++ nl
  ++ lit "    <email>" ++ escapeXml (email formData)
  ++ lit "</email>" ++ nl
  ++ lit "    <phone>" ++ escapeXml (phone formData)
  ++ lit "</phone>" ++ nl
  ++ lit "    <street_address>" ++ escapeXml (street_address formData)
  ++ lit "</street_address>" ++ nl
  ++ lit "    <municipality>" ++ escapeXml (municipality formData)
  ++ lit "</municipality>" ++ nl
  ++ lit "    <region>" ++ escapeXml (region formData)
  ++ lit "</region>" ++ nl
  ++ lit "    <country>" ++ escapeXml (country formData)
  ++ lit "</country>" ++ nl
  ++ lit "    <resort_name>" ++ escapeXml (resort_name formData)
  ++ lit "</resort_name>" ++ nl
  ++ lit "    <checkin_date>" ++ escapeXml (checkin_date formData)
  ++ lit "</checkin_date>" ++ nl
  ++ lit "    <checkout_date>" ++ escapeXml (checkout_date formData)
  ++ lit "</checkout_date>" ++ nl
  ++ lit "    <guests>" ++ escapeXml (numberToString (guests formData))
  ++ lit "</guests>" ++ nl
  ++ lit "    <payment_gateway>" ++ escapeXml (payment_gateway formData)
  ++ lit "</payment_gateway>" ++ nl
  ++ lit "</reservation>".

(** ** validateForms *)

Definition requiredFields : list string :=
  ["guest_name"; "email"; "resort_name"; "checkin_date"; "checkout_date";
   "guests"].

(** [[^\s@]]. *)
Definition notSpaceNorAt (c : N) : bool :=
  negb (isWhiteSpace c || (c =? 64)%N).

(** [/^[^\s@]+@[^\s@]+\.[^\s@]+$/]. *)
Definition emailRegex : Re :=
  Seq (Plus (Class notSpaceNorAt))
    (Seq (Chr 64)
       (Seq (Plus (Class notSpaceNorAt))
          (Seq (Chr 46) (Plus (Class notSpaceNorAt))))).

(** [/^09\d{9}$/]. *)
Definition phoneRegex : Re :=
  Seq (Chr 48) (Seq (Chr 57) (Times 9 (Class isDigit))).

(** The first required input whose trimmed value is empty. *)
Fixpoint firstEmpty (d : string -> JSString) (ids : list string)
  : option string :=
  match ids with
  | [] => None
  | fieldId :: more =>
      if isEmpty (trim (d fieldId)) then Some fieldId
      else firstEmpty d more
  end.

Definition pleaseFillIn (fieldId : string) : JSString :=
  [10060%N] ++ lit " Please fill in: "
  ++ replaceFirst 95 (lit " ") (lit fieldId).

Definition invalidEmailMessage : JSString :=
  [10060%N] ++ lit " Please enter a valid email address".

Definition dateOrderMessage : JSString :=
  [10060%N] ++ lit " Check-out date must be after check-in date".

Definition tomorrowMessage : JSString :=
  [9888%N; 65039%N] ++ lit " Check-in date should be at least tomorrow".

Definition phoneMessage : JSString :=
  [9888%N; 65039%N]
  ++ lit " Phone should be 11 digits starting with 09 (e.g., 09171234567)".

Definition validateForms (P : Platform) : M bool :=
  w <- get ;;
  match firstEmpty (dom w) requiredFields with
  | Some fieldId => showMessage (pleaseFillIn fieldId) error ;; ret false
  | None =>
      if negb (test emailRegex (dom w "email"))
      then showMessage invalidEmailMessage error ;; ret false
      else
        let checkin := dom w "checkin_date" in
        let checkout := dom w "checkout_date" in
        datesOk <-
          (if negb (isEmpty checkin) && negb (isEmpty checkout)
           then
             let checkinDate := dateOfString (legacyDate P) checkin in
             let checkoutDate := dateOfString (legacyDate P) checkout in
             if dateLe checkoutDate checkinDate
             then showMessage dateOrderMessage error ;; ret false
             else
               (if dateLt checkinDate (Some (tomorrow P))
                then showMessage tomorrowMessage warning
                else ret tt) ;;
               ret true
           else ret true) ;;
        if negb datesOk then ret false
        else
          let phone := dom w "phone" in
          (if negb (isEmpty phone) && negb (test phoneRegex phone)
           then showMessage phoneMessage warning
           else ret tt) ;;
          ret true
  end.

(** ** resetForms, cancelEdit *)

Definition resetForms (P : Platform) : M unit :=
  modify (fun w =>
    withSession false None
      (withDom (assign "country" (sanitize P "country" (lit "Philippines"))
                  (resetValues P (dom w))) w)).

Definition cancelEdit (P : Platform) : M unit :=
  resetForms P ;;
  showMessage ([55357%N; 56580%N] ++ lit " Edit cancelled") info.

(** ** loadReservations, getXmlValue *)

Definition getXmlValue (element : XML.Node) (tagName : JSString) : JSString :=
  match XML.getElementsByTagName element tagName with
  | tag :: _ => XML.textContent tag
  | [] => []
  end.

(** The object built for one [<reservation>] element. *)
Definition readReservation (res : XML.Node) : Value :=
  VObj
    [("id", VStr (match XML.getAttribute res (lit "id") with
                  | Some a => if isEmpty a then getXmlValue res (lit "id") else a
                  | None => getXmlValue res (lit "id")
                  end));
     ("guest_name", VStr (getXmlValue res (lit "guest_name")));
     ("email", VStr (getXmlValue res (lit "email")));
     ("phone", VStr (getXmlValue res (lit "phone")));
     ("street_address", VStr (getXmlValue res (lit "street_address")));
     ("municipality", VStr (getXmlValue res (lit "municipality")));
     ("region", VStr (getXmlValue res (lit "region")));
     ("country", VStr (getXmlValue res (lit "country")));
     ("resort_name", VStr (getXmlValue res (lit "resort_name")));
     ("checkin_date", VStr (getXmlValue res (lit "checkin_date")));
     ("checkout_date", VStr (getXmlValue res (lit "checkout_date")));
     ("guests", parseInt (or_else (VStr (getXmlValue res (lit "guests")))
                                  (VNum 1)));
     ("payment_gateway", VStr (getXmlValue res (lit "payment_gateway")));
     ("created_at", VStr (getXmlValue res (lit "created_at")))].

(** ** renderTable *)

(** The markup shown for an empty list. *)
Definition emptyMarkup : JSString :=
  nl ++ lit "            <tr>" ++ nl
  ++ lit "                <td colspan=" ++ dq ++ lit "8" ++ dq ++ lit " style="
  ++ dq ++ lit "text-align: center; padding: 40px; color: #666;" ++ dq
  ++ lit ">" ++ nl
  ++ lit "                    " ++ [55357%N; 56557%N]
  ++ lit " No reservations found. Create your first reservation above!" ++ nl
  ++ lit "                </td>" ++ nl
  ++ lit "            </tr>" ++ nl
  ++ lit "        ".

(** [r.k] for an item known not to be null. *)
Definition field (r : Value) (k : string) : Value :=
  match getProp r k with
  | Some v => v
  | None => VUndefined
  end.

(** [parseInt(a.id) || 0]. *)
Definition idNumber (a : Value) : Z :=
  match parseInt (field a "id") with
  | VNum z => z
  | _ => 0
  end.

(** The comparator of the sort: [idB - idA]. *)
Definition byIdDescending (a b : Value) : Z := idNumber b - idNumber a.

(** [Array.prototype.sort] with a comparator: a stable sort, written as
    an insertion sort; [x] goes before the first item it does not
    have to follow. *)
Fixpoint insertSorted {A} (cmp : A -> A -> Z) (x : A) (l : list A) : list A :=
  match l with
  | [] => [x]
  | y :: l' => if cmp x y <=? 0 then x :: l else y :: insertSorted cmp x l'
  end.

Definition sort {A} (cmp : A -> A -> Z) (l : list A) : list A :=
  fold_right (insertSorted cmp) [] l.

Definition formatDate (P : Platform) (dateString : Value) : JSString :=
  if negb (truthy dateString) then [] else toLocaleDateString P dateString.

(** The [innerHTML] given to the row of one reservation. *)
Definition rowHtml (P : Platform) (reservation : Value) : JSString :=
  let id := toString (field reservation "id") in
  nl ++ lit "            <td><strong style=" ++ dq
  ++ lit "font-size: 1.1em; color: #2c3e50;" ++ dq ++ lit ">#" ++ id
  ++ lit "</strong></td>" ++ nl
  ++ lit "            <td>"
  ++ escapeHtml (or_else (field reservation "guest_name") (VStr []))
  ++ lit "</td>" ++ nl
  ++ lit "            <td>"
  ++ escapeHtml (or_else (field reservation "email") (VStr []))
  ++ lit "</td>" ++ nl
  ++ lit "            <td>"
  ++ escapeHtml (or_else (field reservation "resort_name") (VStr []))
  ++ lit "</td>" ++ nl
  ++ lit "            <td>"
  ++ formatDate P (field reservation "checkin_date")
  ++ lit "</td>" ++ nl
  ++ lit "            <td>"
  ++ formatDate P (field reservation "checkout_date")
  ++ lit "</td>" ++ nl
  ++ lit "            <td><span class=" ++ dq ++ lit "guest-count" ++ dq ++ lit ">"
  ++ toString (or_else (field reservation "guests") (VNum 1))
  ++ lit "</span></td>" ++ nl
  ++ lit "            <td>" ++ nl
  ++ lit "                <button class=" ++ dq ++ lit "action-btn view" ++ dq
  ++ lit " onclick=" ++ dq ++ lit "viewReservation('" ++ id ++ lit "')" ++ dq
  ++ lit " title=" ++ dq ++ lit "View Details" ++ dq ++ lit ">"
  ++ [55357%N; 56385%N] ++ lit " View</button>" ++ nl
  ++ lit "                <button class=" ++ dq ++ lit "action-btn edit" ++ dq
  ++ lit " onclick=" ++ dq ++ lit "editReservation('" ++ id ++ lit "')" ++ dq
  ++ lit " title=" ++ dq ++ lit "Edit" ++ dq ++ lit ">"
  ++ [9999%N] ++ lit " Edit</button>" ++ nl
  ++ lit "                <button class=" ++ dq ++ lit "action-btn delete" ++ dq
  ++ lit " onclick=" ++ dq ++ lit "deleteReservation('" ++ id ++ lit "')" ++ dq
  ++ lit " title=" ++ dq ++ lit "Delete" ++ dq ++ lit ">"
  ++ [55357%N; 56785%N] ++ lit " Delete</button>" ++ nl
  ++ lit "            </td>" ++ nl
  ++ lit "        ".

Definition appendRow (html : JSString) : M unit :=
  modify (fun w =>
    withTable {| markup := markup (table w);
                 rows := rows (table w) ++ [html] |} w).

Fixpoint forEach {A} (l : list A) (f : A -> M unit) : M unit :=
  match l with
  | [] => ret tt
  | x :: l' => f x ;; forEach l' f
  end.

Definition isNullish (v : Value) : bool :=
  match v with
  | VUndefined | VNull => true
  | _ => false
  end.

(** [renderTable(reservations)].  The argument is whatever the response
    held.  Reading [id] from a null item raises a TypeError, in the
    comparator of the sort or, for a single item, in the loop, in both
    cases before any row is appended. *)
Definition renderTable (P : Platform) (reservations : Value) : M unit :=
  modify (withTable {| markup := []; rows := [] |}) ;;
  length <- prop reservations "length" ;;
  match length with
  | VNum 0 =>
      modify (withTable {| markup := emptyMarkup; rows := [] |})
  | _ =>
      match reservations with
      | VArr items =>
          if existsb isNullish items
          then throw (Native "TypeError: cannot read properties of null")
          else forEach (sort byIdDescending items)
                       (fun reservation => appendRow (rowHtml P reservation))
      | _ => throw (Native "TypeError: reservations.sort is not a function")
      end
  end.

Definition loadFailedMessage : JSString :=
  lit "Failed to load reservations. Make sure the backend server is running.".

Definition loadReservations (P : Platform) : M unit :=
  tryCatch
    (w <- get ;;
     let searchQuery := trim (dom w "searchInput") in
     let format := dom w "responseFormat" in
     let url0 := API_BASE ++ lit "?format=" ++ format in
     url1 <-
       (if negb (isEmpty searchQuery)
        then match encodeURIComponent P searchQuery with
             | Some q => ret (url0 ++ lit "&q=" ++ q)
             | None => throw (Native "URIError: URI malformed")
             end
        else ret url0) ;;
     response <- fetch P {| method := lit "GET"; url := url1;
                            contentType := None; body := NoBody |} ;;
     if JS.eqb format (lit "xml")
     then
       let xmlDoc := domParser P (text response) in
       renderTable P
         (VArr (map readReservation
                    (XML.documentElementsByTagName xmlDoc (lit "reservation"))))
     else
       reservations <- readJson response ;;
       renderTable P reservations)
    (fun _ => showMessage loadFailedMessage error).

(** ** submitReservation *)

Definition submitReservation (P : Platform) (format : JSString) : M unit :=
  valid <- validateForms P ;;
  if negb valid then ret tt
  else
    w0 <- get ;;
    let formData := getFormData (dom w0) in
    tryCatch
      (w <- get ;;
       let id := toString (ofNullable (currentEditId w)) in
       let request :=
         if JS.eqb format (lit "xml")
         then {| method := if editMode w then lit "PUT" else lit "POST";
                 url := if editMode w
                        then API_BASE ++ lit "/" ++ id ++ lit "?format=xml"
                        else API_BASE ++ lit "?format=xml";
                 contentType := Some (lit "application/xml");
                 body := XmlBody (xmlBody formData) |}
         else {| method := if editMode w then lit "PUT" else lit "POST";
                 url := if editMode w
                        then API_BASE ++ lit "/" ++ id
                        else API_BASE;
                 contentType := Some (lit "application/json");
                 body := JsonBody formData |} in
       response <- fetch P request ;;
       if negb (ok response)
       then throw (Error (lit "HTTP " ++ numberToString (status response)
                          ++ lit ": " ++ text response))
       else
         w1 <- get ;;
         showMessage
           (if editMode w1
            then [9989%N] ++ lit " Reservation #"
                 ++ toString (ofNullable (currentEditId w1))
                 ++ lit " updated successfully!"
            else [9989%N] ++ lit " Reservation created successfully!")
           success ;;
         resetForms P ;;
         loadReservations P)
      (fun e =>
         w <- get ;;
         showMessage
           ([10060%N] ++ lit " Failed to "
            ++ (if editMode w then lit "update" else lit "create")
            ++ lit " reservation: " ++ message_of P e)
           error).

(** ** editReservation *)

(** [document.getElementById(k).value = reservation.k || default]. *)
Definition fill (P : Platform) (reservation : Value) (k : string)
  (default : Value) : M unit :=
  v <- prop reservation k ;;
  modify (fun w =>
    withDom (assign k (sanitize P k (toString (or_else v default))) (dom w)) w).

Definition editReservation (P : Platform) (id : JSString) : M unit :=
  tryCatch
    (response <- fetch P {| method := lit "GET";
                            url := API_BASE ++ lit "/" ++ id;
                            contentType := None; body := NoBody |} ;;
     if negb (ok response)
     then throw (Error (lit "HTTP " ++ numberToString (status response)))
     else
       reservation <- readJson response ;;
       fill P reservation "guest_name" (VStr []) ;;
       fill P reservation "email" (VStr []) ;;
       fill P reservation "phone" (VStr []) ;;
       fill P reservation "street_address" (VStr []) ;;
       fill P reservation "municipality" (VStr []) ;;
       fill P reservation "region" (VStr []) ;;
       fill P reservation "country" (VStr []) ;;
       fill P reservation "resort_name" (VStr []) ;;
       fill P reservation "checkin_date" (VStr []) ;;
       fill P reservation "checkout_date" (VStr []) ;;
       fill P reservation "guests" (VNum 1) ;;
       fill P reservation "payment_gateway" (VStr []) ;;
       modify (withSession true (Some id)) ;;
       showMessage
         ([9999%N; 65039%N] ++ lit " Editing reservation #" ++ id
          ++ lit ". Make your changes and click Update.")
         info)
    (fun _ =>
       showMessage
         ([10060%N] ++ lit " Failed to load reservation #" ++ id
          ++ lit " for editing")
         error).

(** ** deleteReservation *)

Definition confirmPrompt (id : JSString) : JSString :=
  lit "Are you sure you want to delete reservation #" ++ id ++ lit "?" ++ nl
  ++ lit "This action cannot be undone.".

Definition deleteFailed (id message : JSString) : JSString :=
  [10060%N] ++ lit " Failed to delete reservation #" ++ id ++ lit ": "
  ++ message.

Definition httpStatus (r : Response) : JSString :=
  lit "HTTP " ++ numberToString (status r).

Definition deleteReservation (P : Platform) (id : JSString) : M unit :=
  if negb (confirmAnswer P (confirmPrompt id)) then ret tt
  else
    tryCatch
      (response <- fetch P {| method := lit "DELETE";
                              url := API_BASE ++ lit "/" ++ id;
                              contentType := None; body := NoBody |} ;;
       if ok response
       then
         showMessage
           ([9989%N] ++ lit " Reservation #" ++ id ++ lit " deleted successfully")
           success ;;
         loadReservations P
       else
         errorData <- readJson response ;;
         e <- prop errorData "error" ;;
         throw (Error (toString (or_else e (VStr (httpStatus response))))))
      (fun e => showMessage (deleteFailed id (message_of P e)) error).

(** ** The listeners bound at the start of the script *)

(** [a < b] on two strings: the order of the first code units that
    differ, a proper prefix coming first. *)
Fixpoint strLt (a b : JSString) : bool :=
  match a, b with
  | _, [] => false
  | [], _ :: _ => true
  | x :: a', y :: b' =>
      if (x <? y)%N then true
      else if (x =? y)%N then strLt a' b' else false
  end.

(** The listener of the [change] event of [checkin_date]: with a
    check-in value, the minimum of the check-out input is moved to the
    next day (presentation), and a check-out value that compares below
    the check-in value is cleared.  [toISOString] raises a RangeError on
    an invalid Date; nothing catches it, and the listener ends there,
    before the comparison.  The day after a valid date is taken to be a
    valid date: the time values within a day of the end of the range of
    Dates, in the year 275760, are outside the model. *)
Definition checkinChange (P : Platform) : M unit :=
  w <- get ;;
  let checkinDate := dom w "checkin_date" in
  if isEmpty checkinDate then ret tt
  else
    match dateOfString (legacyDate P) checkinDate with
    | None => throw (Native "RangeError: Invalid time value")
    | Some _ =>
        let checkout := dom w "checkout_date" in
        if negb (isEmpty checkout) && strLt checkout checkinDate
        then modify (fun w' =>
               withDom (assign "checkout_date"
                          (sanitize P "checkout_date" []) (dom w')) w')
        else ret tt
    end.

(** The listener of [refreshBtn]: the search term is emptied and the
    reservations are listed. *)
Definition refresh (P : Platform) : M unit :=
  modify (fun w =>
    withDom (assign "searchInput" (sanitize P "searchInput" []) (dom w)) w) ;;
  loadReservations P.

(** [toggleFormat()], given the text of the format label: the new text
    of the label and of the button; a message tells the change. *)
Definition toggleFormat (currentFormat : JSString) : M (JSString * JSString) :=
  let newFormat :=
    if JS.eqb currentFormat (lit "JSON") then lit "XML" else lit "JSON" in
  showMessage ([55357%N; 56580%N] ++ lit " Submission format changed to "
               ++ newFormat) info ;;
  ret (newFormat, lit "Switch to " ++ currentFormat).

(** ** The events of a session *)

Inductive Event :=
| PageLoad
| Submit (format : JSString)
| CancelEdit
| BeginEdit (id : JSString)
| Delete (id : JSString)
| Search
| Input (id : string) (value : JSString)
| CheckinChange
| Refresh
| ToggleFormat (currentFormat : JSString).

(** The handler the script binds to each event.  The page load and the
    search controls (the button, and the Enter key in the search box)
    list the reservations; typing changes the value of an input, and the
    [change] event of the check-in date runs its listener; the format
    toggle is given the text of its label.  The detail view keeps a
    state of its own and is modelled apart ([viewReservation]); closing
    it writes to the presentation only. *)
Definition handle (P : Platform) (e : Event) : M unit :=
  match e with
  | PageLoad => loadReservations P
  | Submit format => submitReservation P format
  | CancelEdit => cancelEdit P
  | BeginEdit id => editReservation P id
  | Delete id => deleteReservation P id
  | Search => loadReservations P
  | Input id value => modify (fun w => withDom (assign id value (dom w)) w)
  | CheckinChange => checkinChange P
  | Refresh => refresh P
  | ToggleFormat currentFormat => toggleFormat currentFormat ;; ret tt
  end.

(** The state in which the script starts: the declarations of [editMode]
    and [currentEditId], nothing shown or requested yet. *)
Definition initial (w : World) : Prop :=
  editMode w = false /\ currentEditId w = None
  /\ messages w = [] /\ requests w = [].

(** The states a session can be in: each step is one event, handled
    with whatever the browser, the user and the server do then. *)
Inductive reachable : World -> Prop :=
| reach_initial : forall w, initial w -> reachable w
| reach_event : forall P e w,
    reachable w -> reachable (snd (handle P e w)).

(* ================================================================== *)
(** * The other handlers of the script *)
(* ================================================================== *)

(** ** The change handler of the check-in date, as a function of the state *)

(** The state after the listener on [checkin_date] (see [checkinChange]
    for the listener with its exception): with a check-in value, the minimum of
    the check-out input is moved to the next day (presentation), and a
    check-out value that compares below the check-in value is cleared.
    [toISOString] raises a RangeError on an invalid Date, which ends the
    listener before the comparison.  The day after a valid date is taken
    to be a valid date: the time values within a day of the end of the
    range of Dates, in the year 275760, are outside the model. *)
Definition onCheckinChange (P : Platform) (w : World) : World :=
  let checkinDate := dom w "checkin_date" in
  if isEmpty checkinDate then w
  else
    match dateOfString (legacyDate P) checkinDate with
    | None => w
    | Some _ =>
        let checkout := dom w "checkout_date" in
        if negb (isEmpty checkout) && strLt checkout checkinDate
        then withDom (assign "checkout_date"
                        (sanitize P "checkout_date" []) (dom w)) w
        else w
    end.

(** ** formatXmlForDisplay *)

(** [\w]. *)
Definition isWord (c : N) : bool :=
  ((65 <=? c) && (c <=? 90) || (97 <=? c) && (c <=? 122)
   || (48 <=? c) && (c <=? 57) || (c =? 95))%N.

(** [xml.split(/>\s*</)], read by an automaton: [Scanning piece] holds
    the piece read so far; [Pending piece ws] has met a [>] after
    [piece] and then the white space [ws], and waits for the [<] that
    completes a separator. *)
Inductive SplitState :=
| Scanning (piece : JSString)
| Pending (piece ws : JSString).

Fixpoint splitTags (st : SplitState) (s : JSString) : list JSString :=
  match s with
  | [] =>
      match st with
      | Scanning piece => [piece]
      | Pending piece ws => [piece ++ 62%N :: ws]
      end
  | c :: s' =>
      match st with
      | Scanning piece =>
          if (c =? 62)%N then splitTags (Pending piece []) s'
          else splitTags (Scanning (piece ++ [c])) s'
      | Pending piece ws =>
          if (c =? 60)%N then piece :: splitTags (Scanning []) s'
          else if isWhiteSpace c then splitTags (Pending piece (ws ++ [c])) s'
          else if (c =? 62)%N
               then splitTags (Pending (piece ++ 62%N :: ws) []) s'
               else splitTags (Scanning (piece ++ 62%N :: ws ++ [c])) s'
      end
  end.

(** [/^\/\w/], as a pattern of the whole element. *)
Definition closingTag : Re :=
  Seq (Chr 47) (Seq (Class isWord) (Star (Class (fun _ => true)))).

(** [/^<?\w[^>]*[^\/]$/]. *)
Definition openingTag : Re :=
  Seq (Alt Eps (Chr 60))
    (Seq (Class isWord)
       (Seq (Star (Class (fun c => negb (c =? 62)%N)))
          (Class (fun c => negb (c =? 47)%N)))).

(** The loop over the elements; [indent] counts the tabs of the
    indentation, which only ever holds tabs. *)
Fixpoint layout (indent : nat) (elements : list JSString) : JSString :=
  match elements with
  | [] => []
  | element :: more =>
      let indent1 := if test closingTag element then pred indent else indent in
      repeat 9%N indent1 ++ 60%N :: element ++ [62%N; 13%N; 10%N]
      ++ layout (if test openingTag element then S indent1 else indent1) more
  end.

(** [s.substring(a, b)]: both ends are kept within the string and taken
    in increasing order. *)
Definition substring (a b : nat) (s : JSString) : JSString :=
  let a' := Nat.min a (List.length s) in
  let b' := Nat.min b (List.length s) in
  firstn (Nat.max a' b' - Nat.min a' b') (skipn (Nat.min a' b') s).

Definition formatXmlForDisplay (xml : JSString) : JSString :=
  let formatted := layout 0 (splitTags (Scanning []) xml) in
  substring 1 (List.length formatted - 3) formatted.

(** ** viewReservation *)

(** The detail view: whether it is shown, and its text. *)
Record Modal := {
  modalOpen : bool;
  modalDetails : JSString
}.

Definition viewRequest (id format : JSString) : Request :=
  {| method := lit "GET";
     url := API_BASE ++ lit "/" ++ id ++ lit "?format=" ++ format;
     contentType := None; body := NoBody |}.

Definition viewFailed (id : JSString) : JSString :=
  [10060%N] ++ lit " Failed to load reservation #" ++ id.

(** [viewReservation(id)], with the detail view passed along.
    [stringify] is [JSON.stringify(v, null, 2)].  The constant [data] is
    declared inside the [else] block; where the JSON format is
    highlighted at the end, [data] is an undeclared name, and reading it
    raises a ReferenceError before [syntaxHighlight] is called (the page
    is taken to define no global of that name).  The detail view has been
    written by then. *)
Definition viewReservation (P : Platform) (stringify : Value -> JSString)
  (id : JSString) (modal : Modal) (w : World) : Modal * World :=
  let format := dom w "responseFormat" in
  let failed := fun w' => snd (showMessage (viewFailed id) error w') in
  match fetch P (viewRequest id format) w with
  | (Throw _, w1) => (modal, failed w1)
  | (Return response, w1) =>
      if negb (ok response) then (modal, failed w1)
      else
        let details :=
          if JS.eqb format (lit "xml")
          then Some (formatXmlForDisplay (text response))
          else match json response with
               | inr data => Some (stringify data)
               | inl _ => None
               end in
        match details with
        | None => (modal, failed w1)
        | Some d =>
            let opened := {| modalOpen := true; modalDetails := d |} in
            if JS.eqb format (lit "json")
            then (opened, failed w1)
            else (opened, w1)
        end
  end.

(* ================================================================== *)
(** * The vocabulary of the properties *)
(* ================================================================== *)

(** ** XML escaping *)

(** The entity reference that stands for a character of the markup, the
    character itself otherwise. *)
Definition xmlEntity (c : N) : JSString :=
  if (c =? 38)%N then lit "&amp;"
  else if (c =? 60)%N then lit "&lt;"
  else if (c =? 62)%N then lit "&gt;"
  else if (c =? 34)%N then lit "&quot;"
  else if (c =? 39)%N then lit "&apos;"
  else [c].

Fixpoint startsWith (p s : JSString) : bool :=
  match p, s with
  | [], _ => true
  | x :: p', y :: s' => (x =? y)%N && startsWith p' s'
  | _ :: _, [] => false
  end.

(** Every ampersand of the text opens one of the five references. *)
Fixpoint referencesOnly (t : JSString) : bool :=
  match t with
  | [] => true
  | c :: r =>
      (if (c =? 38)%N
       then startsWith (lit "amp;") r || startsWith (lit "lt;") r
            || startsWith (lit "gt;") r || startsWith (lit "quot;") r
            || startsWith (lit "apos;") r
       else true)
      && referencesOnly r
  end.

(** No angle bracket and no quote of either kind occurs, and an ampersand
    only opens a reference. *)
Definition markupFree (t : JSString) : bool :=
  forallb (fun c => negb ((c =? 60) || (c =? 62) || (c =? 34) || (c =? 39))%N) t
  && referencesOnly t.

(** The elements of the request body, in the order of the document. *)
Definition xmlFields (formData : FormData) : list (string * JSString) :=
  [("guest_name", guest_name formData);
   ("email", email formData);
   ("phone", phone formData);
   ("street_address", street_address formData);
   ("municipality", municipality formData);
   ("region", region formData);
   ("country", country formData);
   ("resort_name", resort_name formData);
   ("checkin_date", checkin_date formData);
   ("checkout_date", checkout_date formData);
   ("guests", numberToString (guests formData));
   ("payment_gateway", payment_gateway formData)].

Definition xmlHeader : JSString :=
  lit "<?xml version=" ++ dq ++ lit "1.0" ++ dq ++ lit " encoding="
  ++ dq ++ lit "UTF-8" ++ dq ++ lit "?>" ++ nl ++ lit "<reservation>" ++ nl.

(** One line of the body: an element around an encoded value. *)
Definition xmlLine (encode : JSString -> JSString) (f : string * JSString)
  : JSString :=
  lit "    <" ++ lit (fst f) ++ lit ">" ++ encode (snd f)
  ++ lit "</" ++ lit (fst f) ++ lit ">" ++ nl.

(** ** Form states *)

(** The form whose inputs have the listed values, the others being empty. *)
Fixpoint formOf (l : list (string * JSString)) (id : string) : JSString :=
  match l with
  | [] => []
  | (k, v) :: rest => if String.eqb id k then v else formOf rest id
  end.

(** A text with white space at neither end. *)
Definition noOuterSpace (t : JSString) : bool :=
  match t with
  | [] => true
  | c :: _ => negb (isWhiteSpace c) && negb (isWhiteSpace (last t c))
  end.

(** [t] is [raw] without the white space around it. *)
Definition trimmedOf (raw t : JSString) : Prop :=
  noOuterSpace t = true
  /\ exists a b, raw = a ++ t ++ b
       /\ forallb isWhiteSpace a = true /\ forallb isWhiteSpace b = true.

(** The reading of the form in which every string field is trimmed and
    the number of guests is the parsed integer, 1 when there is none. *)
Definition readsEveryFieldTrimmed (d : string -> JSString) : Prop :=
  let r := getFormData d in
  trimmedOf (d "guest_name") (guest_name r)
  /\ trimmedOf (d "email") (email r)
  /\ trimmedOf (d "phone") (phone r)
  /\ trimmedOf (d "street_address") (street_address r)
  /\ trimmedOf (d "municipality") (municipality r)
  /\ trimmedOf (d "region") (region r)
  /\ trimmedOf (d "country") (country r)
  /\ trimmedOf (d "resort_name") (resort_name r)
  /\ trimmedOf (d "checkin_date") (checkin_date r)
  /\ trimmedOf (d "checkout_date") (checkout_date r)
  /\ trimmedOf (d "payment_gateway") (payment_gateway r)
  /\ guests r = match parseIntString (d "guests") with
                | Some z => z
                | None => 1
                end.

(** A form with a padded resort name and a guest count of zero. *)
Definition paddedForm : string -> JSString :=
  formOf [("guest_name", lit " Ana Cruz ");
          ("email", lit "ana@example.com");
          ("resort_name", lit " Boracay ");
          ("checkin_date", lit "2030-01-10");
          ("checkout_date", lit "2030-01-12");
          ("guests", lit "0")].

(** ** Status messages and validation *)

(** The state after [showMessage(m, t)]. *)
Definition shown (t : MsgType) (m : JSString) (w : World) : World :=
  withMessages (messages w ++ [(t, icons t ++ lit " " ++ m)]) w.

(** [fieldId] is the first required input, in the order of validation,
    that is empty once trimmed. *)
Definition firstFailing (d : string -> JSString) (fieldId : string) : Prop :=
  exists before after,
    requiredFields = before ++ fieldId :: after
    /\ trim (d fieldId) = []
    /\ Forall (fun g => trim (d g) <> []) before.

(** Calendar order of two dates given by year, month and day. *)
Definition calendarLe (a b : Z * Z * Z) : bool :=
  let '(y1, m1, d1) := a in
  let '(y2, m2, d2) := b in
  (y1 <? y2) || ((y1 =? y2) && ((m1 <? m2) || ((m1 =? m2) && (d1 <=? d2)))).

Definition isWarning (m : MsgType * JSString) : bool :=
  match fst m with
  | warning => true
  | _ => false
  end.

(** ** A browser and a server for the examples *)

Definition parserError : XML.Node :=
  XML.Element (lit "parsererror") [] [].

(** A platform around a given server and a given answer to prompts: dates
    outside the ISO form are invalid, a text that is not well-formed XML
    gives the error document, and assigned values are kept as they are. *)
Definition platformWith (server : list Request -> FetchOutcome)
  (answer : bool) : Platform :=
  {| fetchOutcome := server;
     confirmAnswer := fun _ => answer;
     tomorrow := utcMidnight 2030 1 1;
     legacyDate := fun _ => None;
     toLocaleDateString := fun _ => lit "Invalid Date";
     domParser := fun s => match XML.parse s with
                           | Some root => root
                           | None => parserError
                           end;
     encodeURIComponent := fun s => Some s;
     nativeMessage := fun k => lit k;
     sanitize := fun _ v => v;
     resetValues := fun _ _ => [] |}.

Definition respond (st : Z) (t : JSString) (j : JSString + Value)
  : list Request -> FetchOutcome :=
  fun _ => Responded {| status := st; text := t; json := j |}.

(** A server that answers every request with an empty JSON list. *)
Definition emptyListServer : list Request -> FetchOutcome :=
  respond 200 (lit "[]") (inr (VArr [])).

Definition blankWorld (d : string -> JSString) : World :=
  {| dom := d; editMode := false; currentEditId := None;
     table := {| markup := []; rows := [] |};
     messages := []; requests := [] |}.

(** A complete form with the check-out after the check-in. *)
Definition completeForm : string -> JSString :=
  formOf [("guest_name", lit "Ana Cruz");
          ("email", lit "ana@example.com");
          ("phone", lit "09171234567");
          ("resort_name", lit "Boracay");
          ("checkin_date", lit "2030-01-10");
          ("checkout_date", lit "2030-01-12");
          ("guests", lit "2");
          ("responseFormat", lit "json")].

(** The same form with the guest name left blank. *)
Definition namelessForm : string -> JSString :=
  assign "guest_name" (lit "   ") completeForm.

(** ** Listings *)

(** A reservation object that holds only an id. *)
Definition withId (id : Value) : Value := VObj [("id", id)].

(** [a] may stand before [b] in a list that is descending by id. *)
Definition idDescending (a b : Value) : Prop := idNumber b <= idNumber a.

(** ** Deleting *)

Definition deleteRequest (id : JSString) : Request :=
  {| method := lit "DELETE"; url := API_BASE ++ lit "/" ++ id;
     contentType := None; body := NoBody |}.

(** The state once a request has been issued. *)
Definition requested (req : Request) (w : World) : World :=
  withRequests (requests w ++ [req]) w.

(** The reading of the failure report in which a body that is not JSON
    makes the message fall back to the HTTP status. *)
Definition unparsableBodyReportsStatus (P : Platform) (id : JSString)
  (w : World) : Prop :=
  forall r m,
    confirmAnswer P (confirmPrompt id) = true ->
    fetchOutcome P (requests w ++ [deleteRequest id]) = Responded r ->
    ok r = false ->
    json r = inl m ->
    snd (deleteReservation P id w)
    = shown error (deleteFailed id (httpStatus r))
        (requested (deleteRequest id) w).

(** A server error whose body is an HTML page. *)
Definition htmlErrorServer : list Request -> FetchOutcome :=
  respond 500 (lit "<html>Internal Server Error</html>")
          (inl (lit "Unexpected token '<'")).

(** A server error whose JSON body carries an [error] field. *)
Definition jsonErrorServer : list Request -> FetchOutcome :=
  respond 404 (lit "{}")
          (inr (VObj [("error", VStr (lit "Reservation not found"))])).

(** ** The edit session *)

Definition sessionOf (w : World) : bool * option JSString :=
  (editMode w, currentEditId w).

(** [editMode == (currentEditId != null)]. *)
Definition consistent (w : World) : Prop :=
  editMode w = match currentEditId w with
               | Some _ => true
               | None => false
               end.

(** A handler keeps a property of the state. *)
Definition preserves {A} (I : World -> Prop) (m : M A) : Prop :=
  forall w, I w -> I (snd (m w)).

(** A server that returns the stored reservation 7 for every request. *)
Definition reservationServer : list Request -> FetchOutcome :=
  respond 200 (lit "{}")
    (inr (VObj [("id", VNum 7);
                ("guest_name", VStr (lit "Ana Cruz"));
                ("email", VStr (lit "ana@example.com"));
                ("resort_name", VStr (lit "Boracay"));
                ("checkin_date", VStr (lit "2030-01-10"));
                ("checkout_date", VStr (lit "2030-01-12"));
                ("guests", VNum 2)])).

(** ** Row markup *)

(** [p] occurs in [s] as a run of consecutive code units. *)
Definition occursIn (p s : JSString) : Prop :=
  exists before after, s = before ++ p ++ after.

(** A text in which no angle bracket occurs. *)
Definition noAngleBracket (t : JSString) : bool :=
  forallb (fun c => negb ((c =? 60) || (c =? 62))%N) t.

(** A cell of the row that holds a field of the reservation. *)
Definition textCell (reservation : Value) (k : string) : JSString :=
  lit "            <td>"
  ++ escapeHtml (or_else (field reservation k) (VStr []))
  ++ lit "</td>" ++ nl.

(** The call that a button of the row makes when clicked. *)
Definition clickCall (handler : string) (id : JSString) : JSString :=
  lit " onclick=" ++ dq ++ lit handler ++ lit "('" ++ id ++ lit "')" ++ dq.

(** An id that is an element with a script. *)
Definition scriptId : JSString :=
  lit "<img src=x onerror=alert(1)>".

(** ** Listing failures *)

(** The request of a listing without search term. *)
Definition listRequest (format : JSString) : Request :=
  {| method := lit "GET"; url := API_BASE ++ lit "?format=" ++ format;
     contentType := None; body := NoBody |}.

(** A page that lists one reservation and asks for the given format. *)
Definition listingWorld (format : JSString) : World :=
  {| dom := assign "responseFormat" format completeForm;
     editMode := false; currentEditId := None;
     table := {| markup := []; rows := [lit "<td>#7</td>"] |};
     messages := []; requests := [] |}.

(** A server error with an XML body. *)
Definition xmlErrorServer : list Request -> FetchOutcome :=
  respond 500 (lit "<error>Internal Server Error</error>")
          (inl (lit "Unexpected token '<'")).

(** A server error with a JSON body. *)
Definition jsonObjectErrorServer : list Request -> FetchOutcome :=
  respond 500 (lit "{}")
          (inr (VObj [("error", VStr (lit "Internal Server Error"))])).

(** ** The XML round trip *)

(** ASCII printable: the code units from the space to the tilde. *)
Definition printable (s : JSString) : bool :=
  forallb (fun c => (32 <=? c) && (c <=? 126))%N s.

Definition printableRecord (r : FormData) : Prop :=
  printable (guest_name r) = true /\ printable (email r) = true
  /\ printable (phone r) = true /\ printable (street_address r) = true
  /\ printable (municipality r) = true /\ printable (region r) = true
  /\ printable (country r) = true /\ printable (resort_name r) = true
  /\ printable (checkin_date r) = true /\ printable (checkout_date r) = true
  /\ printable (payment_gateway r) = true.

(** The object the XML reader is expected to give for the document of a
    record: the fields of the record, with an empty id and an empty
    creation time, which the document does not carry. *)
Definition readBack (r : FormData) : Value :=
  VObj [("id", VStr []);
        ("guest_name", VStr (guest_name r));
        ("email", VStr (email r));
        ("phone", VStr (phone r));
        ("street_address", VStr (street_address r));
        ("municipality", VStr (municipality r));
        ("region", VStr (region r));
        ("country", VStr (country r));
        ("resort_name", VStr (resort_name r));
        ("checkin_date", VStr (checkin_date r));
        ("checkout_date", VStr (checkout_date r));
        ("guests", VNum (guests r));
        ("payment_gateway", VStr (payment_gateway r));
        ("created_at", VStr [])].

(** The largest integer below which every integer is a Number. *)
Definition maxSafeInteger : Z := 9007199254740991.

(** A record with markup characters in its values. *)
Definition markupRecord : FormData :=
  {| guest_name := lit "Ana & <Bob> 'x' " ++ dq;
     email := lit "ana@example.com";
     phone := [];
     street_address := lit " 12 Shore Rd ";
     municipality := lit "Malay";
     region := lit "Aklan";
     country := lit "Philippines";
     resort_name := lit "Boracay";
     checkin_date := lit "2030-01-10";
     checkout_date := lit "2030-01-12";
     guests := 3;
     payment_gateway := lit "GCash" |}.

(** The tokens and the nodes of one line of the body. *)
Definition indentation : JSString := 10%N :: lit "    ".

Definition textTokens (v : JSString) : list XML.Token :=
  match v with
  | [] => []
  | _ => [XML.TText v]
  end.

Definition textNodes (v : JSString) : list XML.Node :=
  match v with
  | [] => []
  | _ => [XML.Text v]
  end.

Definition lineTokens (f : string * JSString) : list XML.Token :=
  XML.TText indentation :: XML.TStart (lit (fst f)) []
  :: textTokens (snd f) ++ [XML.TEnd (lit (fst f))].

Definition lineNodes (f : string * JSString) : list XML.Node :=
  [XML.Text indentation; XML.Element (lit (fst f)) [] (textNodes (snd f))].

(** The document element of the body of a record. *)
Definition reservationElement (fields : list (string * JSString)) : XML.Node :=
  XML.Element (lit "reservation") []
    (flat_map lineNodes fields ++ [XML.Text nl]).

(** ** Auxiliary notions of the proofs *)

(** The day number of a calendar date. *)
Definition dayNumber (y m d : Z) : Z :=
  dayFromYear y + daysBeforeMonth y m + (d - 1).

(** A date of the calendar. *)
Definition validDate (c : Z * Z * Z) : Prop :=
  let '(y, m, d) := c in 1 <= m <= 12 /\ 1 <= d <= daysInMonth y m.

(** [p] opens [s]. *)
Definition opens (p s : JSString) : Prop := exists after, s = p ++ after.

(** A character of a tag that is neither a bracket nor a quote. *)
Definition plainChar (c : N) : bool :=
  negb ((c =? 60) || (c =? 62) || (c =? 34) || (c =? 39))%N.

(** The tokens [ts] before those of a continuation. *)
Definition thenTokens (ts : list XML.Token) (k : option (list XML.Token))
  : option (list XML.Token) :=
  option_map (app ts) k.

(** What the reader needs of an element name. *)
Definition goodTag (tag : JSString) : Prop :=
  forallb plainChar tag = true
  /\ XML.closes tag = true
  /\ XML.closes (47%N :: tag) = true
  /\ XML.markupToken tag = Some (XML.TStart tag [])
  /\ XML.markupToken (47%N :: tag) = Some (XML.TEnd tag).

(** The tokens of the body of a record. *)
Definition bodyTokens (fields : list (string * JSString)) : list XML.Token :=
  [XML.TPI (lit "xml"); XML.TText nl; XML.TStart (lit "reservation") []]
  ++ flat_map lineTokens fields
  ++ [XML.TText nl; XML.TEnd (lit "reservation")].

(** The element of one field of a record. *)
Definition fieldElement (f : string * JSString) : XML.Node :=
  XML.Element (lit (fst f)) [] (textNodes (snd f)).

(** The value the reader finds for a tag: that of the first field of
    the name. *)
Definition valueOf (t : JSString) (fields : list (string * JSString))
  : JSString :=
  match find (fun f => JS.eqb (lit (fst f)) t) fields with
  | Some f => snd f
  | None => []
  end.


(** The request of a submission in the XML format. *)
Definition xmlRequest (w : World) : Request :=
  {| method := if editMode w then lit "PUT" else lit "POST";
     url := if editMode w
            then API_BASE ++ lit "/" ++ toString (ofNullable (currentEditId w))
                 ++ lit "?format=xml"
            else API_BASE ++ lit "?format=xml";
     contentType := Some (lit "application/xml");
     body := XmlBody (xmlBody (getFormData (dom w))) |}.

(** ** The range in which the numbers of the model are exact *)

(** An integer that a Number holds exactly and prints with its digits. *)
Definition safeInteger (z : Z) : bool :=
  (- maxSafeInteger <=? z) && (z <=? maxSafeInteger).

(** A text in which [parseInt] reads no integer or a safe one. *)
Definition exactInteger (s : JSString) : bool :=
  match parseIntString s with
  | Some z => safeInteger z
  | None => true
  end.

(** A field of a response that is converted to a string as the model
    does: not an object or an array, and a safe integer when it is a
    number. *)
Definition plainValue (v : Value) : bool :=
  match v with
  | VNum z => safeInteger z
  | VArr _ | VObj _ => false
  | _ => true
  end.

Definition plainId (v : Value) : bool :=
  plainValue v && exactInteger (toString v).

(** The fields of a reservation that a row shows, besides its id. *)
Definition shownFields : list string :=
  ["guest_name"; "email"; "resort_name"; "checkin_date"; "checkout_date";
   "guests"].

(** An item of a list whose id and shown fields are plain. *)
Definition plainRecord (r : Value) : bool :=
  plainId (field r "id")
  && forallb (fun k => plainValue (field r k)) shownFields.

(** ** The required inputs, as the specification lists them *)

(** Each required input with the name by which its error calls it, in the
    order in which they are checked. *)
Definition requiredInputs : list (string * string) :=
  [("guest_name", "guest name"); ("email", "email");
   ("resort_name", "resort name"); ("checkin_date", "checkin date");
   ("checkout_date", "checkout date"); ("guests", "guests")].

(** ** The text that escaped markup stands for *)

(** The way the serializer of HTML writes a character of a text node:
    the ampersand, the angle brackets and the no-break space as
    references, every other character as it is. *)
Definition textNodeChar (c : N) : JSString :=
  if (c =? 38)%N then lit "&amp;"
  else if (c =? 60)%N then lit "&lt;"
  else if (c =? 62)%N then lit "&gt;"
  else if (c =? 160)%N then lit "&nbsp;"
  else [c].

Definition htmlReference (name : JSString) : option N :=
  if JS.eqb name (lit "amp") then Some 38%N
  else if JS.eqb name (lit "lt") then Some 60%N
  else if JS.eqb name (lit "gt") then Some 62%N
  else if JS.eqb name (lit "nbsp") then Some 160%N
  else None.

(** The text a reader of HTML character data gets: the references
    [&amp;], [&lt;], [&gt;] and [&nbsp;] stand for their characters, and
    everything else for itself.  [pending] holds the name of a reference
    being read. *)
Fixpoint readHtmlText (pending : option JSString) (s : JSString) : JSString :=
  match s with
  | [] =>
      match pending with
      | None => []
      | Some name => 38%N :: name
      end
  | c :: s' =>
      match pending with
      | Some name =>
          if (c =? 59)%N
          then match htmlReference name with
               | Some v => v :: readHtmlText None s'
               | None => 38%N :: name ++ 59%N :: readHtmlText None s'
               end
          else readHtmlText (Some (name ++ [c])) s'
      | None =>
          if (c =? 38)%N then readHtmlText (Some []) s'
          else c :: readHtmlText None s'
      end
  end.

(** A form with every required input but the email. *)
Definition emaillessForm : string -> JSString :=
  assign "email" (lit " ") completeForm.

(** The records with the ids 3, "10", null and 7. *)
Definition fourRecords : list (list (string * Value)) :=
  [[("id", VNum 3)]; [("id", VStr (lit "10"))]; [("id", VNull)];
   [("id", VNum 7)]].

(* ================================================================== *)
(** * The vocabulary of the further properties *)
(* ================================================================== *)

(** ** The language of a regular expression *)

Inductive matches : Re -> JSString -> Prop :=
| m_eps : matches Eps []
| m_class : forall (p : N -> bool) c, p c = true -> matches (Class p) [c]
| m_seq : forall a b s t, matches a s -> matches b t -> matches (Seq a b) (s ++ t)
| m_alt_l : forall a b s, matches a s -> matches (Alt a b) s
| m_alt_r : forall a b s, matches b s -> matches (Alt a b) s
| m_star_nil : forall a, matches (Star a) []
| m_star_app : forall a s t,
    matches a s -> matches (Star a) t -> matches (Star a) (s ++ t).

(** A part of an email address: not empty, without white space and
    without [@]. *)
Definition addressPart (s : JSString) : Prop :=
  s <> [] /\ forallb notSpaceNorAt s = true.

(** The number of occurrences of a code unit. *)
Definition occurrences (c : N) (s : JSString) : nat :=
  List.length (filter (fun x => (x =? c)%N) s).

(** ** Validation, as a function of the form *)

(** Whether the two dates are present and out of order. *)
Definition datesOutOfOrder (P : Platform) (d : string -> JSString) : bool :=
  negb (isEmpty (d "checkin_date")) && negb (isEmpty (d "checkout_date"))
  && dateLe (dateOfString (legacyDate P) (d "checkout_date"))
            (dateOfString (legacyDate P) (d "checkin_date")).

(** The verdict on a form: every required input present, an email of the
    expected shape, and no dates out of order. *)
Definition validForm (P : Platform) (d : string -> JSString) : bool :=
  match firstEmpty d requiredFields with
  | Some _ => false
  | None => test emailRegex (d "email") && negb (datesOutOfOrder P d)
  end.

(** The warnings of a form that passes. *)
Definition warningsOf (P : Platform) (d : string -> JSString)
  : list (MsgType * JSString) :=
  (if negb (isEmpty (d "checkin_date")) && negb (isEmpty (d "checkout_date"))
      && dateLt (dateOfString (legacyDate P) (d "checkin_date"))
                (Some (tomorrow P))
   then [(warning, icons warning ++ lit " " ++ tomorrowMessage)] else [])
  ++ (if negb (isEmpty (d "phone")) && negb (test phoneRegex (d "phone"))
      then [(warning, icons warning ++ lit " " ++ phoneMessage)] else []).

(** The one error of a form that fails. *)
Definition errorOf (P : Platform) (d : string -> JSString) : JSString :=
  match firstEmpty d requiredFields with
  | Some fieldId => pleaseFillIn fieldId
  | None =>
      if test emailRegex (d "email") then dateOrderMessage
      else invalidEmailMessage
  end.

(** What validation shows for a form. *)
Definition validationMessages (P : Platform) (d : string -> JSString)
  : list (MsgType * JSString) :=
  if validForm P d then warningsOf P d
  else [(error, icons error ++ lit " " ++ errorOf P d)].

(** A form with an email that has no dot after the [@]. *)
Definition badEmailForm : string -> JSString :=
  assign "email" (lit "ana@example") completeForm.

(** ** Submissions *)

(** The request of a submission, by format and by mode. *)
Definition submitRequest (format : JSString) (w : World) : Request :=
  if JS.eqb format (lit "xml")
  then {| method := if editMode w then lit "PUT" else lit "POST";
          url := if editMode w
                 then API_BASE ++ lit "/"
                      ++ toString (ofNullable (currentEditId w))
                      ++ lit "?format=xml"
                 else API_BASE ++ lit "?format=xml";
          contentType := Some (lit "application/xml");
          body := XmlBody (xmlBody (getFormData (dom w))) |}
  else {| method := if editMode w then lit "PUT" else lit "POST";
          url := if editMode w
                 then API_BASE ++ lit "/"
                      ++ toString (ofNullable (currentEditId w))
                 else API_BASE;
          contentType := Some (lit "application/json");
          body := JsonBody (getFormData (dom w)) |}.

Definition submitFailed (w : World) (m : JSString) : JSString :=
  [10060%N] ++ lit " Failed to "
  ++ (if editMode w then lit "update" else lit "create")
  ++ lit " reservation: " ++ m.

Definition submitSucceeded (w : World) : JSString :=
  if editMode w
  then [9989%N] ++ lit " Reservation #"
       ++ toString (ofNullable (currentEditId w))
       ++ lit " updated successfully!"
  else [9989%N] ++ lit " Reservation created successfully!".

(** The text thrown for a response that is not accepted. *)
Definition httpError (r : Response) : JSString :=
  lit "HTTP " ++ numberToString (status r) ++ lit ": " ++ text r.

(** The state after validation has passed with its warnings. *)
Definition warned (P : Platform) (w : World) : World :=
  withMessages (messages w ++ warningsOf P (dom w)) w.

(** The form after [resetForms]. *)
Definition resetForm (P : Platform) (d : string -> JSString)
  : string -> JSString :=
  assign "country" (sanitize P "country" (lit "Philippines"))
    (resetValues P d).

(** A server that refuses every request. *)
Definition refusingServer : list Request -> FetchOutcome :=
  respond 422 (lit "guests must be positive") (inl (lit "Unexpected token"))
  .

(** ** Listings *)

(** The address of a listing: the format, and the search term when it
    is not blank; [None] when the term cannot be encoded. *)
Definition listUrl (P : Platform) (d : string -> JSString) : option JSString :=
  let url0 := API_BASE ++ lit "?format=" ++ d "responseFormat" in
  if negb (isEmpty (trim (d "searchInput")))
  then option_map (fun q => url0 ++ lit "&q=" ++ q)
                  (encodeURIComponent P (trim (d "searchInput")))
  else Some url0.

Definition getRequest (u : JSString) : Request :=
  {| method := lit "GET"; url := u; contentType := None; body := NoBody |}.

Definition clearedTable : TableBody := {| markup := []; rows := [] |}.

(** The rows of a list of items. *)
Definition listed (P : Platform) (items : list Value) : TableBody :=
  match items with
  | [] => {| markup := emptyMarkup; rows := [] |}
  | _ => {| markup := [];
            rows := map (rowHtml P) (sort byIdDescending items) |}
  end.

(** ** Editing *)

Definition editRequest (id : JSString) : Request :=
  {| method := lit "GET"; url := API_BASE ++ lit "/" ++ id;
     contentType := None; body := NoBody |}.

Definition editFailed (id : JSString) : JSString :=
  [10060%N] ++ lit " Failed to load reservation #" ++ id
  ++ lit " for editing".

Definition editing (id : JSString) : JSString :=
  [9999%N; 65039%N] ++ lit " Editing reservation #" ++ id
  ++ lit ". Make your changes and click Update.".

(** The inputs that an edit fills, each with the value used when the
    record has none. *)
Definition editFields : list (string * Value) :=
  [("guest_name", VStr []); ("email", VStr []); ("phone", VStr []);
   ("street_address", VStr []); ("municipality", VStr []);
   ("region", VStr []); ("country", VStr []); ("resort_name", VStr []);
   ("checkin_date", VStr []); ("checkout_date", VStr []);
   ("guests", VNum 1); ("payment_gateway", VStr [])].

(** The form once it is filled from a record. *)
Definition filledForm (P : Platform) (reservation : Value)
  (d : string -> JSString) : string -> JSString :=
  fold_left
    (fun d' f =>
       assign (fst f)
         (sanitize P (fst f)
            (toString (or_else (field reservation (fst f)) (snd f)))) d')
    editFields d.

Definition deleted (id : JSString) : JSString :=
  [9989%N] ++ lit " Reservation #" ++ id ++ lit " deleted successfully".

(** What [renderTable] shows for a value, or the exception it raises
    once the table has been cleared. *)
Definition rendering (P : Platform) (v : Value) : Exn + TableBody :=
  match getProp v "length" with
  | None => inl (Native "TypeError: cannot read properties of null")
  | Some (VNum 0) => inr {| markup := emptyMarkup; rows := [] |}
  | Some _ =>
      match v with
      | VArr items =>
          if existsb isNullish items
          then inl (Native "TypeError: cannot read properties of null")
          else inr {| markup := [];
                      rows := map (rowHtml P) (sort byIdDescending items) |}
      | _ => inl (Native "TypeError: reservations.sort is not a function")
      end
  end.

(** The value a listing reads from a response, by format. *)
Definition listBody (P : Platform) (format : JSString) (r : Response)
  : JSString + Value :=
  if JS.eqb format (lit "xml")
  then inr (VArr (map readReservation
                    (XML.documentElementsByTagName (domParser P (text r))
                       (lit "reservation"))))
  else json r.

(** The state after a listing. *)
Definition listing (P : Platform) (w : World) : World :=
  match listUrl P (dom w) with
  | None => shown error loadFailedMessage w
  | Some u =>
      let w1 := requested (getRequest u) w in
      match fetchOutcome P (requests w ++ [getRequest u]) with
      | NetworkError _ => shown error loadFailedMessage w1
      | Responded r =>
          match listBody P (dom w "responseFormat") r with
          | inl _ => shown error loadFailedMessage w1
          | inr v =>
              match rendering P v with
              | inr t => withTable t w1
              | inl _ =>
                  shown error loadFailedMessage (withTable clearedTable w1)
              end
          end
      end
  end.

Definition loadFailure : MsgType * JSString :=
  (error, icons error ++ lit " " ++ loadFailedMessage).

(** A server whose list holds a null item. *)
Definition nullItemServer : list Request -> FetchOutcome :=
  respond 200 (lit "[null]") (inr (VArr [VNull])).

(** A platform on which no search term can be encoded. *)
Definition unencodable (P : Platform) : Platform :=
  {| fetchOutcome := fetchOutcome P;
     confirmAnswer := confirmAnswer P;
     tomorrow := tomorrow P;
     legacyDate := legacyDate P;
     toLocaleDateString := toLocaleDateString P;
     domParser := domParser P;
     encodeURIComponent := fun _ => None;
     nativeMessage := nativeMessage P;
     sanitize := sanitize P;
     resetValues := resetValues P |}.

(** The state after [editReservation]. *)
Definition edited (P : Platform) (id : JSString) (w : World) : World :=
  let w1 := requested (editRequest id) w in
  match fetchOutcome P (requests w ++ [editRequest id]) with
  | NetworkError _ => shown error (editFailed id) w1
  | Responded r =>
      if ok r
      then match json r with
           | inl _ => shown error (editFailed id) w1
           | inr reservation =>
               if isNullish reservation
               then shown error (editFailed id) w1
               else shown info (editing id)
                      (withSession true (Some id)
                         (withDom (filledForm P reservation (dom w)) w1))
           end
      else shown error (editFailed id) w1
  end.



(** A server that is not reachable. *)
Definition offline : list Request -> FetchOutcome :=
  fun _ => NetworkError (lit "Failed to fetch").

(** A complete form with the check-out before the check-in. *)
Definition backwardForm : string -> JSString :=
  assign "checkout_date" (lit "2030-01-09") completeForm.

(** ** The pieces of a split *)

(** What a state of the split has read since the last separator. *)
Definition content (st : SplitState) : JSString :=
  match st with
  | Scanning piece => piece
  | Pending piece ws => piece ++ 62%N :: ws
  end.

(** The state after reading a text in which no separator ends. *)
Fixpoint feed (st : SplitState) (s : JSString) : option SplitState :=
  match s with
  | [] => Some st
  | c :: s' =>
      match st with
      | Scanning piece =>
          if (c =? 62)%N then feed (Pending piece []) s'
          else feed (Scanning (piece ++ [c])) s'
      | Pending piece ws =>
          if (c =? 60)%N then None
          else if isWhiteSpace c then feed (Pending piece (ws ++ [c])) s'
          else if (c =? 62)%N then feed (Pending (piece ++ 62%N :: ws) []) s'
          else feed (Scanning (piece ++ 62%N :: ws ++ [c])) s'
      end
  end.

(** The pieces written one after the other, with [>], white space and
    [<] between two of them. *)
Inductive spaced : list JSString -> JSString -> Prop :=
| spaced_one : forall p, spaced [p] p
| spaced_cons : forall p ws ps s,
    forallb isWhiteSpace ws = true ->
    spaced ps s ->
    spaced (p :: ps) (p ++ 62%N :: ws ++ 60%N :: s).

(** A server that answers with an error status and a list of two
    records. *)
Definition twoRecordServer : list Request -> FetchOutcome :=
  respond 500 (lit "[]") (inr (VArr [withId (VNum 3); withId (VStr (lit "10"))])).

(** A page whose check-in input holds a text that is not a date. *)
Definition undatedWorld : World :=
  blankWorld (assign "checkin_date" (lit "soon") completeForm).

(* ================================================================== *)
(** * Properties *)
(* ================================================================== *)

(** ** Strings *)

Lemma replaceAll_app c r a b :
  replaceAll c r (a ++ b) = replaceAll c r a ++ replaceAll c r b.
Proof. unfold replaceAll. apply flat_map_app. Qed.

Lemma replaceAll_cons c r x s :
  replaceAll c r (x :: s) = (if (x =? c)%N then r else [x]) ++ replaceAll c r s.
Proof. reflexivity. Qed.

(** The five passes of [escapeXml] act on one character as [xmlEntity]. *)
Lemma escape_passes_char (c : N) :
  replaceAll 39 (lit "&apos;")
    (replaceAll 34 (lit "&quot;")
       (replaceAll 62 (lit "&gt;")
          (replaceAll 60 (lit "&lt;")
             (replaceAll 38 (lit "&amp;") [c]))))
  = xmlEntity c.
Proof.
  unfold xmlEntity.
  destruct (N.eqb_spec c 38) as [->|H38]; [reflexivity|].
  destruct (N.eqb_spec c 60) as [->|H60]; [reflexivity|].
  destruct (N.eqb_spec c 62) as [->|H62]; [reflexivity|].
  destruct (N.eqb_spec c 34) as [->|H34]; [reflexivity|].
  destruct (N.eqb_spec c 39) as [->|H39]; [reflexivity|].
  apply N.eqb_neq in H38, H60, H62, H34, H39.
  unfold replaceAll; cbn [flat_map app].
  rewrite H38; cbn [flat_map app].
  rewrite H60; cbn [flat_map app].
  rewrite H62; cbn [flat_map app].
  rewrite H34; cbn [flat_map app].
  rewrite H39; reflexivity.
Qed.

Lemma escape_passes (s : JSString) :
  replaceAll 39 (lit "&apos;")
    (replaceAll 34 (lit "&quot;")
       (replaceAll 62 (lit "&gt;")
          (replaceAll 60 (lit "&lt;")
             (replaceAll 38 (lit "&amp;") s))))
  = flat_map xmlEntity s.
Proof.
  induction s as [|c s IH]; [reflexivity|].
  change (c :: s) with ([c] ++ s).
  rewrite !replaceAll_app, IH, escape_passes_char. reflexivity.
Qed.

Lemma escapeXml_entities (s : JSString) : escapeXml s = flat_map xmlEntity s.
Proof.
  unfold escapeXml. destruct s as [|c s]; [reflexivity|].
  cbn [isEmpty]. apply escape_passes.
Qed.

Lemma referencesOnly_entities (s : JSString) :
  referencesOnly (flat_map xmlEntity s) = true.
Proof.
  induction s as [|c s IH]; [reflexivity|].
  cbn [flat_map]. unfold xmlEntity at 1.
  destruct (N.eqb_spec c 38) as [->|H38]; [exact IH|].
  destruct (N.eqb_spec c 60) as [->|H60]; [exact IH|].
  destruct (N.eqb_spec c 62) as [->|H62]; [exact IH|].
  destruct (N.eqb_spec c 34) as [->|H34]; [exact IH|].
  destruct (N.eqb_spec c 39) as [->|H39]; [exact IH|].
  cbn [app referencesOnly].
  apply N.eqb_neq in H38. rewrite H38. exact IH.
Qed.

Lemma noQuoteNorBracket_entities (s : JSString) :
  forallb (fun c => negb ((c =? 60) || (c =? 62) || (c =? 34) || (c =? 39))%N)
          (flat_map xmlEntity s) = true.
Proof.
  induction s as [|c s IH]; [reflexivity|].
  cbn [flat_map]. rewrite forallb_app, IH, andb_true_r.
  unfold xmlEntity.
  destruct (N.eqb_spec c 38) as [->|H38]; [reflexivity|].
  destruct (N.eqb_spec c 60) as [->|H60]; [reflexivity|].
  destruct (N.eqb_spec c 62) as [->|H62]; [reflexivity|].
  destruct (N.eqb_spec c 34) as [->|H34]; [reflexivity|].
  destruct (N.eqb_spec c 39) as [->|H39]; [reflexivity|].
  apply N.eqb_neq in H60, H62, H34, H39.
  cbn [forallb]. rewrite H60, H62, H34, H39. reflexivity.
Qed.

Lemma markupFree_escapeXml (s : JSString) : markupFree (escapeXml s) = true.
Proof.
  rewrite escapeXml_entities. unfold markupFree.
  now rewrite noQuoteNorBracket_entities, referencesOnly_entities.
Qed.

Lemma xmlBody_lines (formData : FormData) :
  xmlBody formData
  = xmlHeader ++ List.concat (map (xmlLine escapeXml) (xmlFields formData))
    ++ lit "</reservation>".
Proof.
  unfold xmlBody, xmlHeader, xmlFields, xmlLine.
  cbn [map List.concat fst snd].
  repeat rewrite <- app_assoc. reflexivity.
Qed.

(** ** Trimming *)

Lemma trimStart_split (s : JSString) :
  exists a, s = a ++ trimStart s /\ forallb isWhiteSpace a = true.
Proof.
  induction s as [|c s (a & Hs & Ha)]; [now exists []|].
  cbn [trimStart]. destruct (isWhiteSpace c) eqn:Hc.
  - exists (c :: a). cbn [app forallb]. rewrite Hc, Ha. now rewrite <- Hs.
  - now exists [].
Qed.

Lemma trimStart_head (s : JSString) :
  match trimStart s with
  | [] => True
  | c :: _ => isWhiteSpace c = false
  end.
Proof.
  induction s as [|c s IH]; [exact I|].
  cbn [trimStart]. destruct (isWhiteSpace c) eqn:Hc; [exact IH|exact Hc].
Qed.

Lemma trimEnd_split (s : JSString) :
  exists b, s = trimEnd s ++ b /\ forallb isWhiteSpace b = true.
Proof.
  unfold trimEnd. destruct (trimStart_split (rev s)) as (a & Hs & Ha).
  exists (rev a). split.
  - rewrite <- rev_app_distr, <- Hs. symmetry. apply rev_involutive.
  - rewrite forallb_forall in *. intros x Hx. apply Ha. now apply in_rev.
Qed.

Lemma trimEnd_last (s : JSString) (d : N) :
  trimEnd s <> [] -> isWhiteSpace (last (trimEnd s) d) = false.
Proof.
  unfold trimEnd. pose proof (trimStart_head (rev s)) as H.
  destruct (trimStart (rev s)) as [|c r]; [easy|].
  intros _. cbn [rev]. now rewrite last_last.
Qed.

Lemma trim_trimmedOf (s : JSString) : trimmedOf s (trim s).
Proof.
  unfold trim.
  destruct (trimStart_split s) as (a & Hs & Ha).
  destruct (trimEnd_split (trimStart s)) as (b & Ht & Hb).
  split.
  - unfold noOuterSpace.
    destruct (trimEnd (trimStart s)) as [|c r] eqn:E; [reflexivity|].
    pose proof (trimStart_head s) as Hh.
    rewrite Ht in Hh. cbn [app] in Hh. rewrite Hh. cbn [negb andb].
    rewrite <- E. rewrite trimEnd_last; [reflexivity|].
    rewrite E. discriminate.
  - exists a, b. repeat split; auto. now rewrite <- Ht.
Qed.

(** C5, as amended.  [getFormData] is a total reading of the form: the
    free-text fields (guest name, email, phone, street address,
    municipality, region, country) are the input values without the white
    space around them; the resort name, the two dates and the payment
    gateway are the input values as they are; the number of guests is the
    integer that [parseInt] reads when there is one and it is not zero,
    and 1 otherwise, for an input in which [parseInt] reads no integer or
    a safe one (beyond, a Number rounds the integer); it is never zero. *)
Theorem getFormData_reading (d : string -> JSString) :
  let r := getFormData d in
  (trimmedOf (d "guest_name") (guest_name r)
   /\ trimmedOf (d "email") (email r)
   /\ trimmedOf (d "phone") (phone r)
   /\ trimmedOf (d "street_address") (street_address r)
   /\ trimmedOf (d "municipality") (municipality r)
   /\ trimmedOf (d "region") (region r)
   /\ trimmedOf (d "country") (country r))
  /\ (resort_name r = d "resort_name"
      /\ checkin_date r = d "checkin_date"
      /\ checkout_date r = d "checkout_date"
      /\ payment_gateway r = d "payment_gateway")
  /\ (exactInteger (d "guests") = true ->
      guests r = match parseIntString (d "guests") with
                 | Some z => if z =? 0 then 1 else z
                 | None => 1
                 end
      /\ safeInteger (guests r) = true)
  /\ guests r <> 0.
Proof.
  cbn [getFormData guest_name email phone street_address municipality region
       country resort_name checkin_date checkout_date payment_gateway guests].
  repeat split; try apply trim_trimmedOf.
  - unfold exactInteger, intOr in *.
    destruct (parseIntString (d "guests")) as [z|]; [|reflexivity].
    now destruct (Z.eqb_spec z 0).
  - unfold intOr. destruct (parseIntString (d "guests")) as [z|]; [|lia].
    destruct (Z.eqb_spec z 0); lia.
Qed.

Lemma getFormData_reading_witness :
  guests (getFormData paddedForm) = 1
  /\ safeInteger (guests (getFormData paddedForm)) = true.
Proof.
  destruct (getFormData_reading paddedForm) as (_ & _ & H & _).
  exact (H eq_refl).
Defined.

(** What [getFormData] reads from the padded form. *)
Example paddedForm_reading :
  resort_name (getFormData paddedForm) = lit " Boracay "
  /\ parseIntString (paddedForm "guests") = Some 0
  /\ guests (getFormData paddedForm) = 1.
Proof. repeat split. Qed.

(** C5 fails as stated: with a resort name written with spaces around it
    and a guest count of 0, the resort name is read untrimmed and the
    number of guests is 1, not the parsed 0. *)
Lemma getFormData_not_every_field_trimmed :
  ~ readsEveryFieldTrimmed paddedForm.
Proof.
  unfold readsEveryFieldTrimmed. intros H.
  destruct H as (_ & _ & _ & _ & _ & _ & _ & (H & _) & _).
  vm_compute in H. discriminate H.
Qed.

(** ** Validation *)

Lemma isEmpty_nil (s : JSString) : isEmpty s = true <-> s = [].
Proof. destruct s; cbn; split; congruence. Qed.

Lemma firstEmpty_Some d l f :
  firstEmpty d l = Some f ->
  exists before after,
    l = before ++ f :: after /\ trim (d f) = []
    /\ Forall (fun g => trim (d g) <> []) before.
Proof.
  induction l as [|g l IH]; cbn [firstEmpty]; [discriminate|].
  destruct (isEmpty (trim (d g))) eqn:E.
  - intros [= <-]. exists [], l. repeat split; auto. now apply isEmpty_nil.
  - intros H. destruct (IH H) as (b & a & -> & Hf & Hb).
    exists (g :: b), a. repeat split; auto.
    constructor; auto. intros Hg. apply isEmpty_nil in Hg. congruence.
Qed.

Lemma firstEmpty_None d l :
  firstEmpty d l = None <-> forall g, In g l -> trim (d g) <> [].
Proof.
  induction l as [|g l IH]; cbn [firstEmpty].
  - split; [intros _ ? []|reflexivity].
  - destruct (isEmpty (trim (d g))) eqn:E.
    + split; [discriminate|]. intros H. apply isEmpty_nil in E.
      exfalso. apply (H g); [now left|exact E].
    + rewrite IH. split.
      * intros H x [<-|Hx]; [|now apply H].
        intros Hg. apply isEmpty_nil in Hg. congruence.
      * intros H x Hx. apply H. now right.
Qed.

Lemma firstEmpty_exists d l :
  (exists g, In g l /\ trim (d g) = []) -> exists f, firstEmpty d l = Some f.
Proof.
  intros (g & Hg & Hd). destruct (firstEmpty d l) as [f|] eqn:E; [eauto|].
  exfalso. rewrite firstEmpty_None in E. exact (E g Hg Hd).
Qed.

Lemma validateForms_missing P w f :
  firstEmpty (dom w) requiredFields = Some f ->
  validateForms P w = (Return false, shown error (pleaseFillIn f) w).
Proof.
  intros H. unfold validateForms, bind, get. rewrite H. reflexivity.
Qed.

(** C6.  When a required input is empty once trimmed, a submission stops
    at validation: no request is issued, the state changes only by the
    error message, and the message names the first failing input.  The
    inputs are checked in the order guest name, email, resort name,
    check-in date, check-out date, guests, and the error of each reads
    "Please fill in: " followed by its name, with a space for the
    underscore; with the guest name empty it reads "Please fill in:
    guest name". *)
Theorem submit_blocked_by_missing_field P format w :
  (exists g, In g (map fst requiredInputs) /\ trim (dom w g) = []) ->
  (exists before fieldId name after,
      requiredInputs = before ++ (fieldId, name) :: after
      /\ Forall (fun g => trim (dom w (fst g)) <> []) before
      /\ trim (dom w fieldId) = []
      /\ firstFailing (dom w) fieldId
      /\ submitReservation P format w
         = (Return tt,
            shown error ([10060%N] ++ lit " Please fill in: " ++ lit name) w)
      /\ requests (snd (submitReservation P format w)) = requests w)
  /\ (trim (dom w "guest_name") = [] ->
      submitReservation P format w
      = (Return tt,
         shown error ([10060%N] ++ lit " Please fill in: guest name") w)).
Proof.
  intros H.
  assert (Hf : exists f, firstEmpty (dom w) requiredFields = Some f)
    by (apply firstEmpty_exists; exact H).
  destruct Hf as (f & Hf).
  assert (Hrun : submitReservation P format w
                 = (Return tt, shown error (pleaseFillIn f) w)).
  { unfold submitReservation, bind.
    rewrite (validateForms_missing P w Hf). reflexivity. }
  pose proof (firstEmpty_Some _ _ Hf) as Hfirst.
  split.
  - unfold requiredFields in Hf. cbn [firstEmpty] in Hf.
    destruct (isEmpty (trim (dom w "guest_name"))) eqn:E1.
    { injection Hf as <-. apply isEmpty_nil in E1.
      exists [], "guest_name", "guest name", (tl requiredInputs).
      rewrite Hrun. repeat split; auto. }
    destruct (isEmpty (trim (dom w "email"))) eqn:E2.
    { injection Hf as <-. apply isEmpty_nil in E2.
      exists (firstn 1 requiredInputs), "email", "email",
        (skipn 2 requiredInputs).
      rewrite Hrun. repeat split; auto.
      repeat constructor; cbn [fst]; intros E; rewrite E in *; discriminate. }
    destruct (isEmpty (trim (dom w "resort_name"))) eqn:E3.
    { injection Hf as <-. apply isEmpty_nil in E3.
      exists (firstn 2 requiredInputs), "resort_name", "resort name",
        (skipn 3 requiredInputs).
      rewrite Hrun. repeat split; auto.
      repeat constructor; cbn [fst]; intros E; rewrite E in *; discriminate. }
    destruct (isEmpty (trim (dom w "checkin_date"))) eqn:E4.
    { injection Hf as <-. apply isEmpty_nil in E4.
      exists (firstn 3 requiredInputs), "checkin_date", "checkin date",
        (skipn 4 requiredInputs).
      rewrite Hrun. repeat split; auto.
      repeat constructor; cbn [fst]; intros E; rewrite E in *; discriminate. }
    destruct (isEmpty (trim (dom w "checkout_date"))) eqn:E5.
    { injection Hf as <-. apply isEmpty_nil in E5.
      exists (firstn 4 requiredInputs), "checkout_date", "checkout date",
        (skipn 5 requiredInputs).
      rewrite Hrun. repeat split; auto.
      repeat constructor; cbn [fst]; intros E; rewrite E in *; discriminate. }
    destruct (isEmpty (trim (dom w "guests"))) eqn:E6; [|discriminate].
    injection Hf as <-. apply isEmpty_nil in E6.
    exists (firstn 5 requiredInputs), "guests", "guests", [].
    rewrite Hrun. repeat split; auto.
    repeat constructor; cbn [fst]; intros E; rewrite E in *; discriminate.
  - intros Hname. unfold requiredFields in Hf. cbn [firstEmpty] in Hf.
    rewrite Hname in Hf. cbn [isEmpty] in Hf. injection Hf as <-.
    exact Hrun.
Qed.

Lemma submit_blocked_by_missing_field_witness :
  submitReservation (platformWith emptyListServer true) (lit "xml")
    (blankWorld namelessForm)
  = (Return tt,
     shown error ([10060%N] ++ lit " Please fill in: guest name")
       (blankWorld namelessForm))
  /\ exists before fieldId name after,
       requiredInputs = before ++ (fieldId, name) :: after
       /\ Forall (fun g => trim (emaillessForm (fst g)) <> []) before
       /\ trim (emaillessForm fieldId) = []
       /\ firstFailing emaillessForm fieldId
       /\ submitReservation (platformWith emptyListServer true) (lit "json")
            (blankWorld emaillessForm)
          = (Return tt,
             shown error ([10060%N] ++ lit " Please fill in: " ++ lit name)
               (blankWorld emaillessForm))
       /\ requests (snd (submitReservation (platformWith emptyListServer true)
                           (lit "json") (blankWorld emaillessForm))) = [].
Proof.
  split.
  - refine (proj2 (submit_blocked_by_missing_field
                     (platformWith emptyListServer true) (lit "xml")
                     (blankWorld namelessForm) _) eq_refl).
    exists "guest_name". split; [now left|reflexivity].
  - refine (proj1 (submit_blocked_by_missing_field
                     (platformWith emptyListServer true) (lit "json")
                     (blankWorld emaillessForm) _)).
    exists "email". split; [cbn; tauto|reflexivity].
Defined.

(** ** Calendar dates *)

Lemma mod100_mod4 (y : Z) : y mod 100 = 0 -> y mod 4 = 0.
Proof. intros H. Z.div_mod_to_equations. lia. Qed.

Lemma mod400_mod100 (y : Z) : y mod 400 = 0 -> y mod 100 = 0.
Proof. intros H. Z.div_mod_to_equations. lia. Qed.

Lemma quarter_step (y : Z) :
  (y - 1968) / 4 = (y - 1969) / 4 + (if y mod 4 =? 0 then 1 else 0).
Proof. destruct (Z.eqb_spec (y mod 4) 0); Z.div_mod_to_equations; lia. Qed.

Lemma century_step (y : Z) :
  (y - 1900) / 100 = (y - 1901) / 100 + (if y mod 100 =? 0 then 1 else 0).
Proof. destruct (Z.eqb_spec (y mod 100) 0); Z.div_mod_to_equations; lia. Qed.

Lemma quadricentennial_step (y : Z) :
  (y - 1600) / 400 = (y - 1601) / 400 + (if y mod 400 =? 0 then 1 else 0).
Proof. destruct (Z.eqb_spec (y mod 400) 0); Z.div_mod_to_equations; lia. Qed.

(** A year has 365 days, one more when it is a leap year. *)
Lemma dayFromYear_succ (y : Z) :
  dayFromYear (y + 1)
  = dayFromYear y + 365 + (if isLeapYear y then 1 else 0).
Proof.
  unfold dayFromYear, isLeapYear.
  replace (y + 1 - 1969) with (y - 1968) by lia.
  replace (y + 1 - 1901) with (y - 1900) by lia.
  replace (y + 1 - 1601) with (y - 1600) by lia.
  rewrite quarter_step, century_step, quadricentennial_step.
  pose proof (@mod100_mod4 y). pose proof (@mod400_mod100 y).
  destruct (Z.eqb_spec (y mod 4) 0), (Z.eqb_spec (y mod 100) 0),
    (Z.eqb_spec (y mod 400) 0); cbn [negb andb orb]; lia.
Qed.

Lemma dayFromYear_gap (y1 y2 : Z) :
  y1 < y2 ->
  dayFromYear y1 + 365 + (if isLeapYear y1 then 1 else 0) <= dayFromYear y2.
Proof.
  intros H. replace y2 with (y1 + 1 + (y2 - y1 - 1)) by lia.
  assert (Hk : 0 <= y2 - y1 - 1) by lia.
  generalize (y2 - y1 - 1) Hk. clear H Hk y2.
  intros k Hk. pattern k. apply natlike_ind; [| |exact Hk].
  - rewrite Z.add_0_r, dayFromYear_succ. lia.
  - intros x Hx IH. replace (y1 + 1 + Z.succ x) with ((y1 + 1 + x) + 1) by lia.
    rewrite dayFromYear_succ. destruct (isLeapYear (y1 + 1 + x)); lia.
Qed.

Lemma month_cases (m : Z) :
  1 <= m <= 12 ->
  m = 1 \/ m = 2 \/ m = 3 \/ m = 4 \/ m = 5 \/ m = 6
  \/ m = 7 \/ m = 8 \/ m = 9 \/ m = 10 \/ m = 11 \/ m = 12.
Proof. lia. Qed.

(** The last day of a month comes before the first of the next. *)
Lemma daysBeforeMonth_next (y m : Z) :
  1 <= m < 12 ->
  daysBeforeMonth y (m + 1) = daysBeforeMonth y m + daysInMonth y m.
Proof.
  intros H.
  assert (Hm : 1 <= m <= 12) by lia.
  destruct (month_cases Hm) as [->|[->|[->|[->|[->|[->|[->|[->|[->|[->|[->| ->]]]]]]]]]]];
    try lia; unfold daysBeforeMonth, daysInMonth; cbn;
    destruct (isLeapYear y); reflexivity.
Qed.

Lemma daysInMonth_pos (y m : Z) : 28 <= daysInMonth y m <= 31.
Proof.
  unfold daysInMonth.
  destruct (m =? 2); [destruct (isLeapYear y); lia|].
  destruct ((m =? 4) || (m =? 6) || (m =? 9) || (m =? 11)); lia.
Qed.

Lemma daysBeforeMonth_gap (y m1 m2 : Z) :
  1 <= m1 -> m1 < m2 -> m2 <= 12 ->
  daysBeforeMonth y m1 + daysInMonth y m1 <= daysBeforeMonth y m2.
Proof.
  intros H1 H12 H2. replace m2 with (m1 + 1 + (m2 - m1 - 1)) in * by lia.
  assert (Hk : 0 <= m2 - m1 - 1) by lia.
  revert H2. generalize (m2 - m1 - 1) Hk. clear H12 Hk m2.
  intros k Hk. pattern k. apply natlike_ind; [| |exact Hk].
  - intros H. rewrite Z.add_0_r, daysBeforeMonth_next by lia. lia.
  - intros x Hx IH H.
    replace (m1 + 1 + Z.succ x) with ((m1 + 1 + x) + 1) by lia.
    rewrite daysBeforeMonth_next by lia.
    pose proof (daysInMonth_pos y (m1 + 1 + x)). specialize (IH ltac:(lia)). lia.
Qed.

Lemma daysBeforeMonth_year (y m : Z) :
  1 <= m <= 12 ->
  daysBeforeMonth y m + daysInMonth y m
  <= 365 + (if isLeapYear y then 1 else 0).
Proof.
  intros Hm.
  destruct (month_cases Hm) as [->|[->|[->|[->|[->|[->|[->|[->|[->|[->|[->| ->]]]]]]]]]]];
    unfold daysBeforeMonth, daysInMonth; cbn; destruct (isLeapYear y); lia.
Qed.

(** The day number grows strictly with the calendar order. *)
Lemma dayNumber_le (a b : Z * Z * Z) :
  validDate a -> validDate b ->
  let '(y1, m1, d1) := a in
  let '(y2, m2, d2) := b in
  (dayNumber y1 m1 d1 <=? dayNumber y2 m2 d2) = calendarLe a b.
Proof.
  destruct a as [[y1 m1] d1], b as [[y2 m2] d2].
  unfold validDate, calendarLe, dayNumber. intros (Hm1 & Hd1) (Hm2 & Hd2).
  pose proof (daysBeforeMonth_year y1 Hm1) as Hy1.
  pose proof (daysBeforeMonth_year y2 Hm2) as Hy2.
  assert (Hb1 : 0 <= daysBeforeMonth y1 m1).
  { destruct (Z.eq_dec m1 1) as [->|]; [cbn; lia|].
    pose proof (@daysBeforeMonth_gap y1 1 m1 ltac:(lia) ltac:(lia) ltac:(lia)) as G.
    cbn in G. lia. }
  assert (Hb2 : 0 <= daysBeforeMonth y2 m2).
  { destruct (Z.eq_dec m2 1) as [->|]; [cbn; lia|].
    pose proof (@daysBeforeMonth_gap y2 1 m2 ltac:(lia) ltac:(lia) ltac:(lia)) as G.
    cbn in G. lia. }
  destruct (Z.ltb_spec y1 y2) as [Hy|Hy]; cbn [orb].
  - pose proof (dayFromYear_gap Hy). apply Z.leb_le. lia.
  - destruct (Z.eqb_spec y1 y2) as [->|Hne]; cbn [andb].
    + destruct (Z.ltb_spec m1 m2) as [Hm|Hm]; cbn [orb].
      * pose proof (@daysBeforeMonth_gap y2 m1 m2 ltac:(lia) Hm ltac:(lia)).
        apply Z.leb_le. lia.
      * destruct (Z.eqb_spec m1 m2) as [->|Hmne]; cbn [andb].
        -- destruct (Z.leb_spec d1 d2); [apply Z.leb_le|apply Z.leb_gt]; lia.
        -- pose proof (@daysBeforeMonth_gap y2 m2 m1 ltac:(lia) ltac:(lia) ltac:(lia)).
           apply Z.leb_gt. lia.
    + assert (Hlt : y2 < y1) by lia.
      pose proof (dayFromYear_gap Hlt). apply Z.leb_gt. lia.
Qed.

Lemma parseIsoDate_valid s c : parseIsoDate s = Some c -> validDate c.
Proof.
  unfold parseIsoDate.
  destruct s as [|y1 [|y2 [|y3 [|y4 [|h1 [|m1 [|m2 [|h2 [|d1 [|d2 [|? ?]]]]]]]]]]];
    try discriminate.
  destruct (digitZ y1) as [a|]; [|discriminate].
  destruct (digitZ y2) as [b|]; [|discriminate].
  destruct (digitZ y3) as [c'|]; [|discriminate].
  destruct (digitZ y4) as [d|]; [|discriminate].
  destruct (digitZ m1) as [e|]; [|discriminate].
  destruct (digitZ m2) as [f|]; [|discriminate].
  destruct (digitZ d1) as [g|]; [|discriminate].
  destruct (digitZ d2) as [h|]; [|discriminate].
  cbv zeta.
  match goal with |- (if ?b then _ else _) = _ -> _ => destruct b eqn:E end;
    [|discriminate].
  intros Heq.
  assert (Hc : c = (1000 * a + 100 * b + 10 * c' + d, 10 * e + f, 10 * g + h))
    by congruence.
  rewrite Hc. unfold validDate.
  repeat (apply andb_prop in E; destruct E as [E ?]).
  repeat match goal with H : (_ <=? _) = true |- _ => apply Z.leb_le in H end.
  lia.
Qed.

Lemma utcMidnight_le (a b : Z * Z * Z) :
  validDate a -> validDate b ->
  let '(y1, m1, d1) := a in
  let '(y2, m2, d2) := b in
  (utcMidnight y1 m1 d1 <=? utcMidnight y2 m2 d2) = calendarLe a b.
Proof.
  intros Ha Hb. pose proof (dayNumber_le a b Ha Hb) as H.
  destruct a as [[y1 m1] d1], b as [[y2 m2] d2].
  rewrite <- H. unfold utcMidnight, dayNumber, msPerDay.
  destruct (Z.leb_spec (dayFromYear y1 + daysBeforeMonth y1 m1 + (d1 - 1))
                       (dayFromYear y2 + daysBeforeMonth y2 m2 + (d2 - 1)));
    [apply Z.leb_le|apply Z.leb_gt]; lia.
Qed.

Lemma trim_nonempty (s : JSString) : trim s <> [] -> isEmpty s = false.
Proof. destruct s; [intros H; now elim H|reflexivity]. Qed.

(** C2.  With the required fields present and a well-formed email,
    validation fails, with the date-order error, exactly when the check-out
    date is not after the check-in date, the two being compared as Dates;
    otherwise it succeeds, and what it shows are warnings only, among them
    the warning of a check-in before tomorrow when that is the case.  For
    dates written YYYY-MM-DD, the comparison of the Dates is the calendar
    order. *)
Theorem date_order_decides_validation P w :
  (forall g, In g requiredFields -> trim (dom w g) <> []) ->
  test emailRegex (dom w "email") = true ->
  let checkin := dateOfString (legacyDate P) (dom w "checkin_date") in
  let checkout := dateOfString (legacyDate P) (dom w "checkout_date") in
  (dateLe checkout checkin = true ->
   validateForms P w = (Return false, shown error dateOrderMessage w))
  /\ (dateLe checkout checkin = false ->
      exists warnings,
        fst (validateForms P w) = Return true
        /\ messages (snd (validateForms P w)) = messages w ++ warnings
        /\ forallb isWarning warnings = true
        /\ (dateLt checkin (Some (tomorrow P)) = true ->
            In (warning, icons warning ++ lit " " ++ tomorrowMessage) warnings))
  /\ (forall c1 c2,
        parseIsoDate (dom w "checkin_date") = Some c1 ->
        parseIsoDate (dom w "checkout_date") = Some c2 ->
        dateLe checkout checkin = calendarLe c2 c1).
Proof.
  intros Hreq Hemail checkin checkout.
  assert (Hfirst : firstEmpty (dom w) requiredFields = None)
    by now apply firstEmpty_None.
  assert (Hin : isEmpty (dom w "checkin_date") = false).
  { apply trim_nonempty, Hreq. cbn. tauto. }
  assert (Hout : isEmpty (dom w "checkout_date") = false).
  { apply trim_nonempty, Hreq. cbn. tauto. }
  split; [|split].
  - intros Hle. unfold validateForms, bind, get.
    rewrite Hfirst, Hemail. cbn [negb]. rewrite Hin, Hout. cbn [negb andb].
    fold checkin checkout. rewrite Hle. reflexivity.
  - intros Hle. unfold validateForms, bind, get.
    rewrite Hfirst, Hemail. cbn [negb]. rewrite Hin, Hout. cbn [negb andb].
    fold checkin checkout. rewrite Hle. cbv zeta.
    destruct (dateLt checkin (Some (tomorrow P))) eqn:Htom;
      destruct (negb (isEmpty (dom w "phone"))
                && negb (test phoneRegex (dom w "phone"))) eqn:Hphone;
      cbn -[tomorrowMessage phoneMessage icons lit].
    + exists [(warning, icons warning ++ lit " " ++ tomorrowMessage);
              (warning, icons warning ++ lit " " ++ phoneMessage)].
      repeat split; [now rewrite <- app_assoc|now left].
    + exists [(warning, icons warning ++ lit " " ++ tomorrowMessage)].
      repeat split; now left.
    + exists [(warning, icons warning ++ lit " " ++ phoneMessage)].
      repeat split; discriminate.
    + exists [].
      repeat split; [now rewrite app_nil_r|discriminate].
  - intros c1 c2 H1 H2. subst checkin checkout. unfold dateOfString.
    rewrite H1, H2.
    pose proof (utcMidnight_le c2 c1 (parseIsoDate_valid _ H2)
                  (parseIsoDate_valid _ H1)) as H.
    destruct c1 as [[y1 m1] d1], c2 as [[y2 m2] d2]. exact H.
Qed.

Lemma date_order_decides_validation_witness :
  (forall g, In g requiredFields -> trim (completeForm g) <> [])
  /\ test emailRegex (completeForm "email") = true
  /\ fst (validateForms (platformWith emptyListServer true)
            (blankWorld completeForm)) = Return true.
Proof.
  assert (Hreq : forall g, In g requiredFields -> trim (completeForm g) <> []).
  { intros g [<-|[<-|[<-|[<-|[<-|[<-|[]]]]]]]; vm_compute; discriminate. }
  assert (Hemail : test emailRegex (completeForm "email") = true)
    by reflexivity.
  split; [exact Hreq|]. split; [exact Hemail|].
  destruct (date_order_decides_validation (platformWith emptyListServer true)
              (blankWorld completeForm) Hreq Hemail) as (_ & Hpass & _).
  destruct (Hpass eq_refl) as (warnings & Hok & _).
  exact Hok.
Defined.

(** ** Sorting and rendering *)

Lemma insertSorted_perm {A} (cmp : A -> A -> Z) x l :
  Permutation (x :: l) (insertSorted cmp x l).
Proof.
  induction l as [|y l IH]; cbn [insertSorted]; [reflexivity|].
  destruct (cmp x y <=? 0); [reflexivity|].
  rewrite perm_swap. now constructor.
Qed.

Lemma sort_perm {A} (cmp : A -> A -> Z) l : Permutation l (sort cmp l).
Proof.
  induction l as [|x l IH]; cbn; [constructor|].
  rewrite <- insertSorted_perm. now constructor.
Qed.

Lemma insertSorted_descending x l :
  StronglySorted idDescending l ->
  StronglySorted idDescending (insertSorted byIdDescending x l).
Proof.
  induction 1 as [|y l Hs IH Hy]; cbn [insertSorted].
  - repeat constructor.
  - unfold byIdDescending at 1.
    destruct (Z.leb_spec (idNumber y - idNumber x) 0) as [Hle|Hgt].
    + constructor; [now constructor|].
      constructor; [unfold idDescending; lia|].
      rewrite Forall_forall in *. intros z Hz. specialize (Hy z Hz).
      unfold idDescending in *. lia.
    + constructor; [exact IH|].
      rewrite <- insertSorted_perm.
      constructor; [unfold idDescending; lia|exact Hy].
Qed.

Lemma sort_descending l : StronglySorted idDescending (sort byIdDescending l).
Proof.
  induction l as [|x l IH]; cbn; [constructor|].
  now apply insertSorted_descending.
Qed.

Lemma withTable_withTable t1 t2 w : withTable t2 (withTable t1 w) = withTable t2 w.
Proof. reflexivity. Qed.

Lemma forEach_appendRow {A} (f : A -> JSString) (l : list A) (w : World) :
  forEach l (fun r => appendRow (f r)) w
  = (Return tt,
     withTable {| markup := markup (table w);
                  rows := rows (table w) ++ map f l |} w).
Proof.
  revert w. induction l as [|x l IH]; intros w.
  - cbn. rewrite app_nil_r. now destruct w as [? ? ? [? ?] ? ?].
  - cbn [forEach map]. unfold bind, appendRow at 1, modify. rewrite IH.
    cbn. now rewrite <- app_assoc.
Qed.

Lemma no_null_objects (records : list (list (string * Value))) :
  existsb isNullish (map VObj records) = false.
Proof. induction records; cbn; auto. Qed.

Lemma renderTable_array P items w :
  items <> [] -> existsb isNullish items = false ->
  renderTable P (VArr items) w
  = (Return tt,
     withTable {| markup := [];
                  rows := map (rowHtml P) (sort byIdDescending items) |} w).
Proof.
  intros Hne Hnull. unfold renderTable, bind, modify, prop.
  cbn [getProp String.eqb Ascii.eqb Bool.eqb ret].
  destruct items as [|x items]; [now elim Hne|].
  cbn [List.length Z.of_nat]. rewrite Hnull.
  rewrite forEach_appendRow. reflexivity.
Qed.

Lemma renderTable_empty P w :
  renderTable P (VArr []) w
  = (Return tt, withTable {| markup := emptyMarkup; rows := [] |} w).
Proof. reflexivity. Qed.

(** ** Deleting *)

Lemma delete_declined P id w :
  confirmAnswer P (confirmPrompt id) = false ->
  deleteReservation P id w = (Return tt, w).
Proof. intros H. unfold deleteReservation. now rewrite H. Qed.

Lemma delete_failed_with P id w r :
  confirmAnswer P (confirmPrompt id) = true ->
  fetchOutcome P (requests w ++ [deleteRequest id]) = Responded r ->
  ok r = false ->
  deleteReservation P id w
  = match json r with
    | inl m =>
        (Return tt,
         shown error (deleteFailed id m) (requested (deleteRequest id) w))
    | inr body =>
        match getProp body "error" with
        | Some e =>
            (Return tt,
             shown error
               (deleteFailed id (toString (or_else e (VStr (httpStatus r)))))
               (requested (deleteRequest id) w))
        | None =>
            (Return tt,
             shown error
               (deleteFailed id
                  (nativeMessage P "TypeError: cannot read properties of null"))
               (requested (deleteRequest id) w))
        end
    end.
Proof.
  intros Hc Hf Hok. unfold deleteReservation. rewrite Hc. cbn [negb].
  unfold tryCatch, bind, fetch. cbn [requests withRequests].
  fold (deleteRequest id). rewrite Hf, Hok.
  unfold readJson, prop.
  destruct (json r) as [m|body]; [reflexivity|].
  unfold ret at 1. cbv beta iota.
  destruct (getProp body "error") as [e|]; reflexivity.
Qed.

(** C7, on the code.  A declined confirmation leaves the state as it
    is: no request is issued.  After a confirmed deletion that the server
    answers with a status outside 200 to 299, the error shown carries the
    [error] field of the JSON body when the body has one that is not
    empty, and the HTTP status when the JSON body has no such field; when
    the body is not JSON, [response.json()] rejects before the fallback
    is reached, and the error carries the message of the JSON parser
    instead of the HTTP status. *)
Theorem deleteReservation_reports P id w :
  (confirmAnswer P (confirmPrompt id) = false ->
   deleteReservation P id w = (Return tt, w))
  /\ (confirmAnswer P (confirmPrompt id) = true ->
      forall r,
        fetchOutcome P (requests w ++ [deleteRequest id]) = Responded r ->
        ok r = false ->
        (forall body e,
           json r = inr body -> getProp body "error" = Some e ->
           truthy e = true ->
           deleteReservation P id w
           = (Return tt,
              shown error (deleteFailed id (toString e))
                (requested (deleteRequest id) w)))
        /\ (forall body e,
              json r = inr body -> getProp body "error" = Some e ->
              truthy e = false ->
              deleteReservation P id w
              = (Return tt,
                 shown error (deleteFailed id (httpStatus r))
                   (requested (deleteRequest id) w)))
        /\ (forall m,
              json r = inl m ->
              deleteReservation P id w
              = (Return tt,
                 shown error (deleteFailed id m)
                   (requested (deleteRequest id) w)))).
Proof.
  split; [apply delete_declined|].
  intros Hc r Hf Hok. rewrite (delete_failed_with P id w Hc Hf Hok).
  repeat split.
  - intros body e -> -> He. unfold or_else. now rewrite He.
  - intros body e -> -> He. unfold or_else. now rewrite He.
  - intros m ->. reflexivity.
Qed.

Lemma deleteReservation_reports_witness :
  deleteReservation (platformWith jsonErrorServer false) (lit "42")
    (blankWorld completeForm)
  = (Return tt, blankWorld completeForm)
  /\ deleteReservation (platformWith jsonErrorServer true) (lit "42")
       (blankWorld completeForm)
     = (Return tt,
        shown error (deleteFailed (lit "42") (lit "Reservation not found"))
          (requested (deleteRequest (lit "42")) (blankWorld completeForm))).
Proof.
  split.
  - exact (proj1 (deleteReservation_reports (platformWith jsonErrorServer false)
                    (lit "42") (blankWorld completeForm)) eq_refl).
  - destruct (proj2 (deleteReservation_reports (platformWith jsonErrorServer true)
                       (lit "42") (blankWorld completeForm)) eq_refl
                _ eq_refl eq_refl) as (H & _).
    exact (H _ _ eq_refl eq_refl eq_refl).
Defined.

(** When the server answers 500 with an HTML page, the message shown
    carries the parser's complaint about the body, not "HTTP 500". *)
Lemma delete_unparsable_body_not_status :
  ~ unparsableBodyReportsStatus (platformWith htmlErrorServer true) (lit "42")
      (blankWorld completeForm).
Proof.
  intros H.
  specialize (H _ _ eq_refl eq_refl eq_refl eq_refl).
  apply (f_equal messages) in H. vm_compute in H. discriminate H.
Qed.

(** ** The edit session *)

Lemma preserves_ret {A} I (a : A) : preserves I (ret a).
Proof. intros w H. exact H. Qed.

Lemma preserves_throw {A} I e : preserves I (@throw A e).
Proof. intros w H. exact H. Qed.

Lemma preserves_get I : preserves I get.
Proof. intros w H. exact H. Qed.

Lemma preserves_bind {A B} I (m : M A) (k : A -> M B) :
  preserves I m -> (forall a, preserves I (k a)) -> preserves I (bind m k).
Proof.
  intros Hm Hk w Hw. unfold bind. specialize (Hm w Hw).
  destruct (m w) as [[a|e] w']; cbn in *; [now apply Hk|exact Hm].
Qed.

Lemma preserves_tryCatch {A} I (m : M A) (h : Exn -> M A) :
  preserves I m -> (forall e, preserves I (h e)) -> preserves I (tryCatch m h).
Proof.
  intros Hm Hh w Hw. unfold tryCatch. specialize (Hm w Hw).
  destruct (m w) as [[a|e] w']; cbn in *; [exact Hm|now apply Hh].
Qed.

Lemma preserves_modify I (f : World -> World) :
  (forall w, I w -> I (f w)) -> preserves I (modify f).
Proof. intros Hf w Hw. now apply Hf. Qed.

Lemma preserves_forEach {A} I (l : list A) (f : A -> M unit) :
  (forall x, preserves I (f x)) -> preserves I (forEach l f).
Proof.
  intros Hf. induction l as [|x l IH]; cbn [forEach].
  - apply preserves_ret.
  - apply preserves_bind; [apply Hf|intros _; exact IH].
Qed.

Create HintDb keep discriminated.

#[local] Hint Resolve preserves_ret preserves_throw preserves_get
  preserves_modify preserves_forEach : keep.

#[local] Hint Extern 2 (preserves _ (bind _ _)) =>
  apply preserves_bind; [|intro] : keep.
#[local] Hint Extern 2 (preserves _ (tryCatch _ _)) =>
  apply preserves_tryCatch; [|intro] : keep.
#[local] Hint Extern 3 (preserves _ (if ?b then _ else _)) =>
  destruct b : keep.
#[local] Hint Extern 3 (preserves _ (match ?x with _ => _ end)) =>
  destruct x : keep.

Section Frame.

(** A property of the state that the writes of the handlers keep: those
    to the inputs, the table and the messages, and the recording of a
    request. *)
Variable I : World -> Prop.
Hypothesis I_dom : forall f w, I w -> I (withDom f w).
Hypothesis I_table : forall t w, I w -> I (withTable t w).
Hypothesis I_messages : forall l w, I w -> I (withMessages l w).
Hypothesis I_request :
  forall r w, I w -> I (withRequests (requests w ++ [r]) w).

Lemma keeps_showMessage m t : preserves I (showMessage m t).
Proof. apply preserves_modify. intros w. apply I_messages. Qed.

Lemma keeps_fetch P req : preserves I (fetch P req).
Proof.
  intros w Hw. unfold fetch.
  destruct (fetchOutcome P _); cbn; now apply I_request.
Qed.

Lemma keeps_readJson r : preserves I (readJson r).
Proof. unfold readJson. destruct (json r); auto with keep. Qed.

Lemma keeps_prop v k : preserves I (prop v k).
Proof. unfold prop. destruct (getProp v k); auto with keep. Qed.

Lemma keeps_withTable t : preserves I (modify (withTable t)).
Proof. apply preserves_modify. intros w. apply I_table. Qed.

Lemma keeps_appendRow html : preserves I (appendRow html).
Proof. apply preserves_modify. intros w. apply I_table. Qed.

Hint Resolve keeps_showMessage keeps_fetch keeps_readJson keeps_prop
  keeps_withTable keeps_appendRow : keep.

Lemma keeps_renderTable P v : preserves I (renderTable P v).
Proof. unfold renderTable. auto 20 with keep. Qed.

Hint Resolve keeps_renderTable : keep.

Lemma keeps_loadReservations P : preserves I (loadReservations P).
Proof. unfold loadReservations. auto 20 with keep. Qed.

Lemma keeps_validateForms P : preserves I (validateForms P).
Proof. unfold validateForms. auto 30 with keep. Qed.

Lemma keeps_fill P v k d : preserves I (fill P v k d).
Proof.
  unfold fill. apply preserves_bind; [apply keeps_prop|intro].
  apply preserves_modify. intros w. apply I_dom.
Qed.

Hint Resolve keeps_loadReservations keeps_validateForms keeps_fill : keep.

Lemma keeps_deleteReservation P id : preserves I (deleteReservation P id).
Proof. unfold deleteReservation. auto 20 with keep. Qed.

Lemma keeps_editReservation P id :
  (forall w, I w -> I (withSession true (Some id) w)) ->
  preserves I (editReservation P id).
Proof.
  intros Hedit. unfold editReservation.
  apply preserves_tryCatch; [|intro; apply keeps_showMessage].
  apply preserves_bind; [apply keeps_fetch|intro r].
  destruct (negb (ok r)); [apply preserves_throw|].
  apply preserves_bind; [apply keeps_readJson|intro v].
  repeat (apply preserves_bind; [apply keeps_fill|intros _]).
  apply preserves_bind; [|intros _; apply keeps_showMessage].
  apply preserves_modify. exact Hedit.
Qed.

(** The handlers that write the session pair keep [I] when the two
    writes do. *)
Hypothesis I_reset : forall w, I w -> I (withSession false None w).
Hypothesis I_edit : forall id w, I w -> I (withSession true (Some id) w).

Lemma keeps_resetForms P : preserves I (resetForms P).
Proof.
  apply preserves_modify. intros w Hw. now apply I_reset, I_dom.
Qed.

Hint Resolve keeps_resetForms keeps_deleteReservation : keep.

Lemma keeps_cancelEdit P : preserves I (cancelEdit P).
Proof. unfold cancelEdit. auto with keep. Qed.

Lemma keeps_submitReservation P format : preserves I (submitReservation P format).
Proof. unfold submitReservation. auto 30 with keep. Qed.

Lemma keeps_checkinChange P : preserves I (checkinChange P).
Proof.
  unfold checkinChange. apply preserves_bind; [apply preserves_get|intro w0].
  cbv zeta. destruct (isEmpty (dom w0 "checkin_date")); [apply preserves_ret|].
  destruct (dateOfString (legacyDate P) (dom w0 "checkin_date"));
    [|apply preserves_throw].
  destruct (negb (isEmpty (dom w0 "checkout_date")) && strLt _ _);
    [|apply preserves_ret].
  apply preserves_modify. intros w. apply I_dom.
Qed.

Lemma keeps_refresh P : preserves I (refresh P).
Proof.
  unfold refresh. apply preserves_bind; [|intros _; apply keeps_loadReservations].
  apply preserves_modify. intros w. apply I_dom.
Qed.

Lemma keeps_toggleFormat label : preserves I (toggleFormat label).
Proof.
  unfold toggleFormat. cbv zeta.
  apply preserves_bind; [apply keeps_showMessage|intros _; apply preserves_ret].
Qed.

Lemma keeps_handle P e : preserves I (handle P e).
Proof.
  destruct e; cbn [handle];
    auto using keeps_loadReservations, keeps_submitReservation,
      keeps_cancelEdit, keeps_deleteReservation, keeps_checkinChange,
      keeps_refresh.
  - apply keeps_editReservation. intros w. apply I_edit.
  - apply preserves_modify. intros w. apply I_dom.
  - apply preserves_bind; [apply keeps_toggleFormat|intros _; apply preserves_ret].
Qed.

End Frame.

Lemma handle_consistent P e : preserves consistent (handle P e).
Proof. apply keeps_handle; auto; reflexivity. Qed.

Lemma loadReservations_session P w :
  sessionOf (snd (loadReservations P w)) = sessionOf w.
Proof.
  apply (@keeps_loadReservations (fun x => sessionOf x = sessionOf w)); auto.
Qed.

Lemma validateForms_session P w :
  sessionOf (snd (validateForms P w)) = sessionOf w.
Proof.
  apply (@keeps_validateForms (fun x => sessionOf x = sessionOf w)); auto.
Qed.

Lemma submit_success_resets P format w :
  fst (validateForms P w) = Return true ->
  (forall reqs, exists r, fetchOutcome P reqs = Responded r /\ ok r = true) ->
  sessionOf (snd (submitReservation P format w)) = (false, None).
Proof.
  intros Hv Hs. unfold submitReservation, bind at 1.
  destruct (validateForms P w) as [[b|e] w1]; cbn in Hv; [|discriminate].
  injection Hv as ->. cbn [negb].
  unfold bind at 1, get at 1. unfold tryCatch, bind at 1, get at 1.
  unfold bind at 1, fetch.
  match goal with |- context [fetchOutcome P ?l] =>
    destruct (Hs l) as (r & -> & Hok) end.
  rewrite Hok. cbn [negb].
  unfold bind at 1, get at 1. unfold bind at 1, showMessage at 1, modify at 1.
  unfold bind at 1, resetForms, modify at 1.
  match goal with |- context [loadReservations P ?x] =>
    pose proof (loadReservations_session P x) as Hl;
    destruct (loadReservations P x) as [[u|e] w2] end;
    cbn in Hl |- *; exact Hl.
Qed.

(** C9.  In every state that a session reaches from the initial one by
    its events (page load, submissions, cancelling, beginning an edit,
    deleting, searching, refreshing, typing, changing the check-in date,
    toggling the format), [editMode] holds exactly when
    [currentEditId] is not null.  [resetForms] sets the pair to false and
    null, and so do cancelling an edit and a submission that the server
    accepts; beginning an edit sets it to true and the id, or leaves it
    as it was when the record cannot be fetched; after the initial load
    the pair is false and null, as declared. *)
Theorem session_pair_consistent :
  (forall w, reachable w -> consistent w)
  /\ (forall P w, sessionOf (snd (resetForms P w)) = (false, None))
  /\ (forall P w, sessionOf (snd (cancelEdit P w)) = (false, None))
  /\ (forall P format w,
        fst (validateForms P w) = Return true ->
        (forall reqs, exists r, fetchOutcome P reqs = Responded r /\ ok r = true) ->
        sessionOf (snd (submitReservation P format w)) = (false, None))
  /\ (forall P id w,
        sessionOf (snd (editReservation P id w)) = (true, Some id)
        \/ sessionOf (snd (editReservation P id w)) = sessionOf w)
  /\ (forall P w,
        initial w -> sessionOf (snd (handle P PageLoad w)) = (false, None)).
Proof.
  split; [|split; [|split; [|split; [|split]]]].
  - induction 1 as [w (He & Hi & _)|P e w _ IH].
    + unfold consistent. now rewrite He, Hi.
    + now apply handle_consistent.
  - reflexivity.
  - reflexivity.
  - exact submit_success_resets.
  - intros P id w.
    apply (@keeps_editReservation
             (fun x => sessionOf x = (true, Some id) \/ sessionOf x = sessionOf w)).
    all: auto.
  - intros P w (He & Hi & _). cbn [handle].
    rewrite loadReservations_session. unfold sessionOf. now rewrite He, Hi.
Qed.

Lemma session_pair_consistent_witness :
  let w := snd (handle (platformWith reservationServer true)
                  (BeginEdit (lit "7")) (blankWorld completeForm)) in
  reachable w /\ sessionOf w = (true, Some (lit "7")) /\ consistent w.
Proof.
  intros w.
  assert (Hr : reachable w).
  { apply reach_event. apply reach_initial. repeat split. }
  split; [exact Hr|]. split; [reflexivity|].
  exact (proj1 session_pair_consistent w Hr).
Defined.

(** ** Row markup *)

Lemma occursIn_here (p s : JSString) : occursIn p (p ++ s).
Proof. exists [], s. reflexivity. Qed.

Lemma occursIn_later (x p s : JSString) : occursIn p s -> occursIn p (x ++ s).
Proof.
  intros (a & b & ->). exists (x ++ a), b. now rewrite <- app_assoc.
Qed.

Lemma occursIn_cons (c : N) (p s : JSString) :
  occursIn p s -> occursIn p (c :: s).
Proof. apply (occursIn_later [c]). Qed.

Lemma noAngleBracket_escapeHtml (v : Value) :
  noAngleBracket (escapeHtml v) = true.
Proof.
  unfold noAngleBracket, escapeHtml.
  induction (toString v) as [|c s IH]; [reflexivity|].
  cbn [flat_map]. rewrite forallb_app, IH, andb_true_r.
  destruct (N.eqb_spec c 38) as [->|H38]; [reflexivity|].
  destruct (N.eqb_spec c 160) as [->|H160]; [reflexivity|].
  destruct (N.eqb_spec c 60) as [->|H60]; [reflexivity|].
  destruct (N.eqb_spec c 62) as [->|H62]; [reflexivity|].
  apply N.eqb_neq in H60, H62. cbn [forallb]. now rewrite H60, H62.
Qed.

Lemma opens_nil (s : JSString) : opens [] s.
Proof. now exists s. Qed.

Lemma opens_cons (c : N) (p s : JSString) : opens p s -> opens (c :: p) (c :: s).
Proof. intros (b & ->). now exists b. Qed.

Lemma opens_app (x p s : JSString) : opens p s -> opens (x ++ p) (x ++ s).
Proof. intros (b & ->). exists b. now rewrite app_assoc. Qed.

Lemma occursIn_opens (p s : JSString) : opens p s -> occursIn p s.
Proof. intros (b & ->). now exists [], b. Qed.

(** Writes the literals of the goal as lists of code units. *)
Ltac spell_literals :=
  repeat match goal with
         | |- context [lit ?s] =>
             let v := eval vm_compute in (lit s) in change (lit s) with v
         end;
  unfold nl, dq; repeat rewrite <- app_assoc; cbn [app].

(** Finds a run in a chain of concatenations. *)
Ltac find_run :=
  spell_literals;
  repeat first
    [ apply occursIn_opens;
      solve [repeat first [apply opens_nil | apply opens_cons | apply opens_app]]
    | apply occursIn_cons
    | apply occursIn_later ].

Lemma readHtmlText_amp (rest : JSString) :
  readHtmlText None (lit "&amp;" ++ rest) = 38%N :: readHtmlText None rest.
Proof. reflexivity. Qed.

Lemma readHtmlText_nbsp (rest : JSString) :
  readHtmlText None (lit "&nbsp;" ++ rest) = 160%N :: readHtmlText None rest.
Proof. reflexivity. Qed.

Lemma readHtmlText_lt (rest : JSString) :
  readHtmlText None (lit "&lt;" ++ rest) = 60%N :: readHtmlText None rest.
Proof. reflexivity. Qed.

Lemma readHtmlText_gt (rest : JSString) :
  readHtmlText None (lit "&gt;" ++ rest) = 62%N :: readHtmlText None rest.
Proof. reflexivity. Qed.

Lemma readHtmlText_escaped (s : JSString) :
  readHtmlText None
    (flat_map (fun c => if (c =? 38)%N then lit "&amp;"
                        else if (c =? 160)%N then lit "&nbsp;"
                        else if (c =? 60)%N then lit "&lt;"
                        else if (c =? 62)%N then lit "&gt;"
                        else [c]) s)
  = s.
Proof.
  induction s as [|c s IH]; [reflexivity|].
  cbn [flat_map].
  destruct (N.eqb_spec c 38) as [->|H38];
    [now rewrite readHtmlText_amp, IH|].
  destruct (N.eqb_spec c 160) as [->|H160];
    [now rewrite readHtmlText_nbsp, IH|].
  destruct (N.eqb_spec c 60) as [->|H60];
    [now rewrite readHtmlText_lt, IH|].
  destruct (N.eqb_spec c 62) as [->|H62];
    [now rewrite readHtmlText_gt, IH|].
  cbn [app readHtmlText]. apply N.eqb_neq in H38. rewrite H38.
  now rewrite IH.
Qed.

Lemma escapeHtml_textNode (v : Value) :
  escapeHtml v = flat_map textNodeChar (toString v).
Proof.
  unfold escapeHtml. induction (toString v) as [|c s IH]; [reflexivity|].
  cbn [flat_map]. rewrite IH. f_equal. unfold textNodeChar.
  destruct (N.eqb_spec c 38) as [->|H38]; [reflexivity|].
  destruct (N.eqb_spec c 160) as [->|H160]; [reflexivity|].
  now destruct (c =? 60)%N, (c =? 62)%N.
Qed.

Lemma readHtmlText_escapeHtml (v : Value) :
  readHtmlText None (escapeHtml v) = toString v.
Proof. unfold escapeHtml. apply readHtmlText_escaped. Qed.

(** C10.  In the markup of a row, the guest name, the email and the
    resort name stand HTML-escaped in their cells: the escaped text is
    the text of the field with its ampersands, angle brackets and
    no-break spaces written as references, it holds no angle bracket,
    and read as HTML character data it is the text of the field again.
    The id of the record
    stands as it is, after the [#] of the first cell and between the
    quotes of the three [onclick] calls, so that whatever characters the
    id holds reach the markup unchanged: an id that is an element with a
    script is part of the row. *)
Theorem row_escapes_fields_but_not_id P reservation :
  let id := toString (field reservation "id") in
  (occursIn (textCell reservation "guest_name") (rowHtml P reservation)
   /\ occursIn (textCell reservation "email") (rowHtml P reservation)
   /\ occursIn (textCell reservation "resort_name") (rowHtml P reservation)
   /\ (forall v, noAngleBracket (escapeHtml v) = true)
   /\ (forall v, readHtmlText None (escapeHtml v) = toString v)
   /\ (forall v, escapeHtml v = flat_map textNodeChar (toString v))
   /\ escapeHtml (VStr (lit "a<b>&c")) = lit "a&lt;b&gt;&amp;c")
  /\ (occursIn (lit ">#" ++ id ++ lit "</strong></td>") (rowHtml P reservation)
      /\ occursIn (clickCall "viewReservation" id) (rowHtml P reservation)
      /\ occursIn (clickCall "editReservation" id) (rowHtml P reservation)
      /\ occursIn (clickCall "deleteReservation" id) (rowHtml P reservation))
  /\ occursIn (lit ">#" ++ scriptId ++ lit "</strong></td>")
       (rowHtml P (withId (VStr scriptId))).
Proof.
  intros id. repeat split.
  - unfold rowHtml, textCell. fold id. find_run.
  - unfold rowHtml, textCell. fold id. find_run.
  - unfold rowHtml, textCell. fold id. find_run.
  - apply noAngleBracket_escapeHtml.
  - apply readHtmlText_escapeHtml.
  - apply escapeHtml_textNode.
  - unfold rowHtml. fold id. find_run.
  - unfold rowHtml, clickCall. fold id. find_run.
  - unfold rowHtml, clickCall. fold id. find_run.
  - unfold rowHtml, clickCall. fold id. find_run.
  - unfold rowHtml. cbn [withId field getProp lookup String.eqb Ascii.eqb
                         Bool.eqb toString]. find_run.
Qed.

(** ** Listing failures *)

(** When the request itself fails, the table is left as it was and the
    failure is shown. *)
Lemma load_network_error_keeps_table P w m :
  trim (dom w "searchInput") = [] ->
  fetchOutcome P (requests w ++ [listRequest (dom w "responseFormat")])
  = NetworkError m ->
  loadReservations P w
  = (Return tt,
     shown error loadFailedMessage
       (requested (listRequest (dom w "responseFormat")) w)).
Proof.
  intros Hq Hf. unfold loadReservations, tryCatch, bind at 1, get at 1.
  rewrite Hq. cbn [isEmpty negb]. unfold bind at 1, ret at 1.
  unfold bind at 1, fetch. cbn [requests withRequests].
  fold (listRequest (dom w "responseFormat")). rewrite Hf. reflexivity.
Qed.

(** So is it when the body of a JSON listing is not JSON. *)
Lemma load_unparsable_json_keeps_table P w r m :
  trim (dom w "searchInput") = [] ->
  JS.eqb (dom w "responseFormat") (lit "xml") = false ->
  fetchOutcome P (requests w ++ [listRequest (dom w "responseFormat")])
  = Responded r ->
  json r = inl m ->
  loadReservations P w
  = (Return tt,
     shown error loadFailedMessage
       (requested (listRequest (dom w "responseFormat")) w)).
Proof.
  intros Hq Hx Hf Hj. unfold loadReservations, tryCatch, bind at 1, get at 1.
  rewrite Hq. cbn [isEmpty negb]. unfold bind at 1, ret at 1.
  unfold bind at 1, fetch. cbn [requests withRequests].
  fold (listRequest (dom w "responseFormat")). rewrite Hf, Hx.
  unfold bind, readJson. rewrite Hj. reflexivity.
Qed.

(** C8, on the code.  A listing answered with HTTP 500 does not leave the
    table as it was.  In the XML format the body is parsed as a document
    without reservations: the row that was listed is replaced by the
    "No reservations found" markup and no message is shown.  In the JSON
    format with an error object as body, the table is emptied before the
    failure is noticed and shown. *)
Theorem load_http_500_clears_table :
  let before := table (listingWorld (lit "xml")) in
  let afterXml := snd (loadReservations (platformWith xmlErrorServer true)
                         (listingWorld (lit "xml"))) in
  let afterJson := snd (loadReservations (platformWith jsonObjectErrorServer true)
                          (listingWorld (lit "json"))) in
  rows before = [lit "<td>#7</td>"]
  /\ table afterXml = {| markup := emptyMarkup; rows := [] |}
  /\ messages afterXml = []
  /\ table afterJson = {| markup := []; rows := [] |}
  /\ messages afterJson = [(error, icons error ++ lit " " ++ loadFailedMessage)].
Proof. repeat split. Qed.

(** ** Numbers and their decimal writing *)

Lemma uintUnits_digits (d : Decimal.uint) :
  forallb isDigit (uintUnits d) = true.
Proof. induction d; cbn; auto. Qed.

Lemma readDigits_uintUnits (d : Decimal.uint) (seen : bool) (acc : N) :
  readDigits 10 (uintUnits d) seen acc
  = (match d with Decimal.Nil => seen | _ => true end,
     (DecimalPos.Unsigned.of_lu (Decimal.rev d)
      + acc * 10 ^ DecimalPos.Unsigned.usize d)%N).
Proof.
  revert seen acc.
  induction d as [|d IH|d IH|d IH|d IH|d IH|d IH|d IH|d IH|d IH|d IH];
    intros seen acc;
    [cbn; f_equal; lia| ..];
    cbn [uintUnits readDigits];
    match goal with
    | |- context [digitValue 10 ?c] =>
        let v := eval vm_compute in (digitValue 10 c) in
        change (digitValue 10 c) with v
    end;
    cbv iota beta; rewrite IH;
    match goal with
    | |- context [DecimalPos.Unsigned.of_lu (Decimal.rev (?c d))] =>
        change (Decimal.rev (c d)) with (Decimal.revapp d (c Decimal.Nil));
        rewrite (DecimalPos.Unsigned.of_lu_revapp d (c Decimal.Nil))
    end;
    cbn [DecimalPos.Unsigned.of_lu DecimalPos.Unsigned.usize];
    rewrite N.pow_succ_r';
    (f_equal; [now destruct d|lia]).
Qed.

Lemma readDigits_decimal (n : N) : readDigits 10 (decimal n) false 0 = (true, n).
Proof.
  unfold decimal. rewrite readDigits_uintUnits.
  rewrite <- DecimalPos.Unsigned.of_uint_alt.
  change (Pos.of_uint (N.to_uint n)) with (N.of_uint (N.to_uint n)).
  rewrite DecimalN.Unsigned.of_to. f_equal; [|lia].
  destruct (N.to_uint n) eqn:E; auto.
  exfalso. destruct n; [discriminate|].
  cbn in E. now apply DecimalPos.Unsigned.to_uint_nonnil in E.
Qed.

Lemma isDigit_range (c : N) : isDigit c = true -> (48 <= c <= 57)%N.
Proof.
  unfold isDigit. intros H. apply andb_prop in H as [H1 H2].
  apply N.leb_le in H1, H2. lia.
Qed.

Lemma digit_not_space (c : N) : isDigit c = true -> isWhiteSpace c = false.
Proof.
  intros H. apply isDigit_range in H.
  apply Bool.not_true_is_false. unfold isWhiteSpace. intros Hs.
  repeat (apply orb_prop in Hs; destruct Hs as [Hs|Hs]);
    try (apply N.eqb_eq in Hs; lia).
  apply andb_prop in Hs as [H1 H2]. apply N.leb_le in H1. lia.
Qed.

Lemma stripHexPrefix_digits (s : JSString) :
  forallb isDigit s = true -> stripHexPrefix s = (10%N, s).
Proof.
  destruct s as [|c0 [|c1 r]]; try reflexivity.
  cbn [forallb stripHexPrefix]. intros H.
  apply andb_prop in H as [_ H]. apply andb_prop in H as [H _].
  apply isDigit_range in H.
  destruct (N.eqb_spec c1 120); [lia|]. destruct (N.eqb_spec c1 88); [lia|].
  now rewrite andb_false_r.
Qed.

Lemma parseIntString_digits (s : JSString) :
  s <> [] -> forallb isDigit s = true ->
  parseIntString s
  = match readDigits 10 s false 0 with
    | (true, n) => Some (Z.of_N n)
    | (false, _) => None
    end.
Proof.
  intros Hne Hd. destruct s as [|c r]; [now elim Hne|].
  pose proof Hd as Hc. cbn [forallb] in Hc. apply andb_prop in Hc as [Hc _].
  unfold parseIntString. cbn [trimStart]. rewrite (digit_not_space _ Hc).
  apply isDigit_range in Hc. unfold stripSign.
  destruct (N.eqb_spec c 45); [lia|]. destruct (N.eqb_spec c 43); [lia|].
  now rewrite (stripHexPrefix_digits _ Hd).
Qed.

Lemma parseIntString_negative (s : JSString) :
  forallb isDigit s = true ->
  parseIntString (45%N :: s)
  = match readDigits 10 s false 0 with
    | (true, n) => Some (- Z.of_N n)
    | (false, _) => None
    end.
Proof.
  intros Hd. unfold parseIntString. cbn [trimStart].
  change (isWhiteSpace 45) with false. cbv iota.
  unfold stripSign. change (45 =? 45)%N with true. cbv iota.
  now rewrite (stripHexPrefix_digits _ Hd).
Qed.

Lemma decimal_nonempty (n : N) : decimal n <> [].
Proof.
  unfold decimal. destruct (N.to_uint n) eqn:E; try discriminate.
  exfalso. destruct n; [discriminate|].
  cbn in E. now apply DecimalPos.Unsigned.to_uint_nonnil in E.
Qed.

(** Reading back the decimal writing of an integer gives the integer. *)
Lemma parseIntString_numberToString (z : Z) :
  parseIntString (numberToString z) = Some z.
Proof.
  unfold numberToString. destruct (Z.ltb_spec z 0).
  - rewrite parseIntString_negative by apply uintUnits_digits.
    rewrite readDigits_decimal. f_equal. lia.
  - rewrite parseIntString_digits;
      [|apply decimal_nonempty|apply uintUnits_digits].
    rewrite readDigits_decimal. f_equal. lia.
Qed.

Lemma numberToString_nonempty (z : Z) : numberToString z <> [].
Proof.
  unfold numberToString. destruct (z <? 0); [discriminate|].
  apply decimal_nonempty.
Qed.

Lemma numberToString_printable (z : Z) : printable (numberToString z) = true.
Proof.
  assert (H : forall d, printable (uintUnits d) = true)
    by (induction d; cbn; auto).
  unfold numberToString, decimal. destruct (z <? 0); [cbn|]; apply H.
Qed.

(** ** Reading the XML body back *)

Lemma eqb_refl (s : JSString) : JS.eqb s s = true.
Proof. induction s as [|c s IH]; cbn; [reflexivity|]. now rewrite N.eqb_refl. Qed.

Lemma normalizeEol_id (s : JSString) :
  forallb (fun c => negb (c =? 13)%N) s = true -> XML.normalizeEol s = s.
Proof.
  induction s as [|c s IH]; [reflexivity|]. cbn [forallb XML.normalizeEol].
  intros H. apply andb_prop in H as [Hc Hs].
  apply negb_true_iff in Hc. rewrite Hc. now rewrite IH.
Qed.

Lemma lex_text (t rest acc : JSString) :
  forallb (fun c => negb (c =? 60)%N) t = true ->
  XML.lex (XML.InText acc) (t ++ 60%N :: rest)
  = XML.textToken (acc ++ t) (XML.lex (XML.InMarkup [] None) rest).
Proof.
  revert acc. induction t as [|c t IH]; intros acc H.
  - now rewrite app_nil_r.
  - cbn [forallb] in H. apply andb_prop in H as [Hc Ht].
    apply negb_true_iff in Hc. cbn [app XML.lex]. rewrite Hc.
    rewrite IH by exact Ht. now rewrite <- app_assoc.
Qed.

Lemma lex_markup (m rest acc : JSString) :
  forallb plainChar m = true ->
  XML.closes (acc ++ m) = true ->
  XML.lex (XML.InMarkup acc None) (m ++ 62%N :: rest)
  = match XML.markupToken (acc ++ m), XML.lex (XML.InText []) rest with
    | Some t, Some k => Some (t :: k)
    | _, _ => None
    end.
Proof.
  revert acc. induction m as [|c m IH]; intros acc Hm Hc.
  - rewrite app_nil_r in *. cbn [app XML.lex].
    change (62 =? 62)%N with true. now rewrite Hc.
  - cbn [forallb] in Hm. apply andb_prop in Hm as [Hp Hm].
    unfold plainChar in Hp. apply negb_true_iff in Hp.
    apply orb_false_elim in Hp as [Hp H39].
    apply orb_false_elim in Hp as [Hp H34].
    apply orb_false_elim in Hp as [H60 H62].
    cbn [app XML.lex]. rewrite H62, H60, H34, H39. cbn [andb orb].
    replace (acc ++ c :: m) with ((acc ++ [c]) ++ m) in *
      by now rewrite <- app_assoc.
    now apply IH.
Qed.

Lemma printable_isChar (c : N) :
  (32 <=? c)%N && (c <=? 126)%N = true -> XML.isChar c = true.
Proof.
  intros H. apply andb_prop in H as [H1 H2]. apply N.leb_le in H2.
  unfold XML.isChar. rewrite H1.
  assert (H3 : (c <=? 55295)%N = true) by (apply N.leb_le; lia).
  rewrite H3. cbn. now rewrite !orb_true_r.
Qed.

(** Decoding the encoded text gives the text back. *)
Lemma decode_entities (v : JSString) :
  printable v = true ->
  XML.decode false None (flat_map xmlEntity v) = Some v.
Proof.
  induction v as [|c v IH]; [reflexivity|].
  unfold printable. cbn [forallb]. intros H.
  apply andb_prop in H as [Hc Hv]. specialize (IH Hv).
  cbn [flat_map]. unfold xmlEntity at 1.
  destruct (N.eqb_spec c 38) as [->|H38]; [cbn; now rewrite IH|].
  destruct (N.eqb_spec c 60) as [->|H60]; [cbn; now rewrite IH|].
  destruct (N.eqb_spec c 62) as [->|H62]; [cbn; now rewrite IH|].
  destruct (N.eqb_spec c 34) as [->|H34]; [cbn; now rewrite IH|].
  destruct (N.eqb_spec c 39) as [->|H39]; [cbn; now rewrite IH|].
  cbn [app XML.decode]. apply N.eqb_neq in H38, H60.
  rewrite H38, H60, (printable_isChar _ Hc), IH. reflexivity.
Qed.

Lemma xmlEntity_nonempty (c : N) : exists x xs, xmlEntity c = x :: xs.
Proof.
  unfold xmlEntity.
  destruct (c =? 38)%N; [cbn; eauto|].
  destruct (c =? 60)%N; [cbn; eauto|].
  destruct (c =? 62)%N; [cbn; eauto|].
  destruct (c =? 34)%N; [cbn; eauto|].
  destruct (c =? 39)%N; cbn; eauto.
Qed.

Lemma textToken_escaped (v : JSString) (k : option (list XML.Token)) :
  printable v = true ->
  XML.textToken (escapeXml v) k = thenTokens (textTokens v) k.
Proof.
  intros Hv. rewrite escapeXml_entities.
  destruct v as [|c v]; [now destruct k|].
  pose proof (decode_entities _ Hv) as Hd.
  cbn [flat_map] in *. destruct (xmlEntity_nonempty c) as (x & xs & E).
  rewrite E in *. cbn [app] in *. unfold XML.textToken. rewrite Hd.
  now destruct k.
Qed.

Lemma no_bracket_in_escaped (v : JSString) :
  forallb (fun c => negb (c =? 60)%N) (escapeXml v) = true.
Proof.
  rewrite escapeXml_entities.
  pose proof (noQuoteNorBracket_entities v) as H.
  rewrite forallb_forall in *. intros c Hc. specialize (H c Hc).
  apply negb_true_iff in H. apply negb_true_iff.
  now destruct (c =? 60)%N.
Qed.

Lemma lex_line (tag : string) (v rest : JSString) :
  goodTag (lit tag) -> printable v = true ->
  XML.lex (XML.InText nl) (xmlLine escapeXml (tag, v) ++ rest)
  = thenTokens (lineTokens (tag, v)) (XML.lex (XML.InText nl) rest).
Proof.
  intros (Hplain & Hc1 & Hc2 & Hstart & Hend) Hv.
  unfold xmlLine, lineTokens. cbn [fst snd].
  replace ((lit "    <" ++ lit tag ++ lit ">" ++ escapeXml v
            ++ lit "</" ++ lit tag ++ lit ">" ++ nl) ++ rest)
    with (lit "    "
          ++ 60%N :: (lit tag
          ++ 62%N :: (escapeXml v
          ++ 60%N :: ((47%N :: lit tag)
          ++ 62%N :: (nl ++ rest)))))
    by (repeat rewrite <- app_assoc; reflexivity).
  rewrite lex_text by reflexivity.
  rewrite lex_markup; [|exact Hplain|exact Hc1].
  change ([] ++ lit tag) with (lit tag). rewrite Hstart.
  rewrite lex_text by apply no_bracket_in_escaped.
  change ([] ++ escapeXml v) with (escapeXml v).
  rewrite textToken_escaped by exact Hv.
  rewrite (lex_markup (47%N :: lit tag) (nl ++ rest) []);
    [|cbn [forallb]; rewrite Hplain; reflexivity|exact Hc2].
  change ([] ++ 47%N :: lit tag) with (47%N :: lit tag). rewrite Hend.
  change (XML.lex (XML.InText []) (nl ++ rest))
    with (XML.lex (XML.InText nl) rest).
  destruct (XML.lex (XML.InText nl) rest) as [k|]; cbn.
  - unfold thenTokens, indentation. cbn. rewrite <- app_assoc. reflexivity.
  - unfold thenTokens. now destruct (textTokens v).
Qed.

Lemma lex_lines (fields : list (string * JSString)) (rest : JSString) :
  Forall (fun f => goodTag (lit (fst f)) /\ printable (snd f) = true) fields ->
  XML.lex (XML.InText nl)
    (List.concat (map (xmlLine escapeXml) fields) ++ rest)
  = thenTokens (flat_map lineTokens fields) (XML.lex (XML.InText nl) rest).
Proof.
  induction 1 as [|[tag v] fields [Ht Hv] _ IH]; cbn [map List.concat flat_map].
  - cbn [app]. unfold thenTokens. now destruct (XML.lex _ rest).
  - cbn [fst snd] in Ht, Hv.
    rewrite <- app_assoc. rewrite lex_line; [|exact Ht|exact Hv]. rewrite IH.
    unfold thenTokens. destruct (XML.lex _ rest); cbn; [|reflexivity].
    repeat rewrite <- app_assoc. reflexivity.
Qed.

Lemma lex_header (rest : JSString) :
  XML.lex (XML.InText []) (xmlHeader ++ rest)
  = thenTokens [XML.TPI (lit "xml"); XML.TText nl;
                XML.TStart (lit "reservation") []]
      (XML.lex (XML.InText nl) rest).
Proof.
  unfold xmlHeader.
  replace ((lit "<?xml version=" ++ dq ++ lit "1.0" ++ dq ++ lit " encoding="
            ++ dq ++ lit "UTF-8" ++ dq ++ lit "?>" ++ nl
            ++ lit "<reservation>" ++ nl) ++ rest)
    with ([] ++ 60%N :: ((lit "?xml version=" ++ dq ++ lit "1.0" ++ dq
                          ++ lit " encoding=" ++ dq ++ lit "UTF-8" ++ dq
                          ++ lit "?")
          ++ 62%N :: (nl
          ++ 60%N :: (lit "reservation"
          ++ 62%N :: (nl ++ rest)))))
    by (repeat rewrite <- app_assoc; reflexivity).
  rewrite lex_text by reflexivity. cbn [app XML.textToken].
  assert (Hpi : forall s,
    XML.lex (XML.InMarkup [] None)
      ((lit "?xml version=" ++ dq ++ lit "1.0" ++ dq
        ++ lit " encoding=" ++ dq ++ lit "UTF-8" ++ dq ++ lit "?")
       ++ 62%N :: s)
    = thenTokens [XML.TPI (lit "xml")] (XML.lex (XML.InText []) s)).
  { intros s. cbn. now destruct (XML.lex (XML.InText []) s). }
  rewrite Hpi. rewrite lex_text by reflexivity.
  rewrite lex_markup by reflexivity.
  change (XML.markupToken ([] ++ lit "reservation"))
    with (Some (XML.TStart (lit "reservation") [])).
  change (XML.lex (XML.InText []) (nl ++ rest))
    with (XML.lex (XML.InText nl) rest).
  destruct (XML.lex (XML.InText nl) rest); reflexivity.
Qed.

Lemma lex_footer :
  XML.lex (XML.InText nl) (lit "</reservation>")
  = Some [XML.TText nl; XML.TEnd (lit "reservation")].
Proof. reflexivity. Qed.

Lemma lex_document (fields : list (string * JSString)) :
  Forall (fun f => goodTag (lit (fst f)) /\ printable (snd f) = true) fields ->
  XML.lex (XML.InText [])
    (xmlHeader ++ List.concat (map (xmlLine escapeXml) fields)
     ++ lit "</reservation>")
  = Some (bodyTokens fields).
Proof.
  intros H. rewrite lex_header, (lex_lines _ H), lex_footer. reflexivity.
Qed.

(** *** Building the tree *)

Lemma build_line (f : string * JSString) (rest : list XML.Token) stack cur :
  XML.build (lineTokens f ++ rest) stack cur
  = XML.build rest stack (rev (lineNodes f) ++ cur).
Proof.
  destruct f as [tag v]. unfold lineTokens, lineNodes. cbn [fst snd].
  cbn [app XML.build rev].
  destruct v as [|c v]; cbn [textTokens textNodes app XML.build];
    now rewrite eqb_refl.
Qed.

Lemma build_lines (fields : list (string * JSString)) (rest : list XML.Token)
  stack cur :
  XML.build (flat_map lineTokens fields ++ rest) stack cur
  = XML.build rest stack (rev (flat_map lineNodes fields) ++ cur).
Proof.
  revert cur. induction fields as [|f fields IH]; intros cur; [reflexivity|].
  cbn [flat_map]. rewrite <- app_assoc, build_line, IH.
  now rewrite rev_app_distr, <- app_assoc.
Qed.

Lemma no_declaration_in_lines (fields : list (string * JSString)) :
  existsb XML.isReservedPI (flat_map lineTokens fields) = false.
Proof.
  induction fields as [|[tag v] fields IH]; [reflexivity|].
  cbn [flat_map]. rewrite existsb_app, IH, orb_false_r.
  unfold lineTokens. cbn [existsb XML.isReservedPI fst snd orb].
  rewrite existsb_app. now destruct v.
Qed.

Lemma noCR_escaped (v : JSString) :
  printable v = true ->
  forallb (fun c => negb (c =? 13)%N) (escapeXml v) = true.
Proof.
  intros Hv. rewrite escapeXml_entities.
  induction v as [|c v IH]; [reflexivity|].
  unfold printable in Hv. cbn [forallb] in Hv.
  apply andb_prop in Hv as [Hc Hv]. cbn [flat_map].
  rewrite forallb_app, (IH Hv), andb_true_r. unfold xmlEntity.
  destruct (c =? 38)%N; [reflexivity|]. destruct (c =? 60)%N; [reflexivity|].
  destruct (c =? 62)%N; [reflexivity|]. destruct (c =? 34)%N; [reflexivity|].
  destruct (c =? 39)%N; [reflexivity|].
  apply andb_prop in Hc as [H1 _]. apply N.leb_le in H1.
  cbn [forallb]. destruct (N.eqb_spec c 13); [lia|reflexivity].
Qed.

Lemma noCR_lines (fields : list (string * JSString)) :
  Forall (fun f => forallb (fun c => negb (c =? 13)%N) (lit (fst f)) = true
                   /\ printable (snd f) = true) fields ->
  forallb (fun c => negb (c =? 13)%N)
          (List.concat (map (xmlLine escapeXml) fields)) = true.
Proof.
  induction 1 as [|[tag v] fields [Ht Hv] _ IH]; [reflexivity|].
  cbn [map List.concat]. rewrite forallb_app, IH, andb_true_r.
  unfold xmlLine. cbn [fst snd] in *.
  repeat rewrite forallb_app. rewrite Ht, (noCR_escaped _ Hv). reflexivity.
Qed.

(** The body of a record with printable values parses to one
    [reservation] element with one child element per field. *)
Lemma parse_document (fields : list (string * JSString)) :
  Forall (fun f => goodTag (lit (fst f)) /\ printable (snd f) = true) fields ->
  Forall (fun f => forallb (fun c => negb (c =? 13)%N) (lit (fst f)) = true
                   /\ printable (snd f) = true) fields ->
  XML.parse (xmlHeader ++ List.concat (map (xmlLine escapeXml) fields)
             ++ lit "</reservation>")
  = Some (reservationElement fields).
Proof.
  intros Hg Hc. unfold XML.parse.
  rewrite normalizeEol_id.
  2:{ repeat rewrite forallb_app. now rewrite (noCR_lines Hc). }
  rewrite (lex_document Hg). unfold bodyTokens.
  cbn [app tl existsb XML.isReservedPI orb].
  rewrite existsb_app, no_declaration_in_lines. cbn [existsb XML.isReservedPI orb].
  cbn [XML.build]. rewrite build_lines. cbn [XML.build].
  rewrite eqb_refl. cbn [XML.build rev app].
  rewrite app_nil_r, rev_involutive. reflexivity.
Qed.

(** *** Reading the fields *)

Lemma descendantsOrSelf_element n a ch :
  XML.descendantsOrSelf (XML.Element n a ch)
  = XML.Element n a ch :: flat_map XML.descendantsOrSelf ch.
Proof.
  reflexivity.
Qed.

Lemma descendants_textNodes (v : JSString) :
  flat_map XML.descendantsOrSelf (textNodes v) = [].
Proof. now destruct v. Qed.

Lemma textContent_fieldElement (f : string * JSString) :
  XML.textContent (fieldElement f) = snd f.
Proof.
  destruct f as [tag [|c v]]; [reflexivity|].
  cbn. now rewrite app_nil_r.
Qed.

Lemma descendants_lines (fields : list (string * JSString)) (ws : JSString) :
  flat_map XML.descendantsOrSelf (flat_map lineNodes fields ++ [XML.Text ws])
  = map fieldElement fields.
Proof.
  induction fields as [|f fields IH]; [reflexivity|].
  cbn [flat_map lineNodes app map].
  rewrite descendantsOrSelf_element, descendants_textNodes.
  cbn [XML.descendantsOrSelf app]. now rewrite IH.
Qed.

Lemma getXmlValue_reservation (fields : list (string * JSString)) (t : JSString) :
  getXmlValue (reservationElement fields) t = valueOf t fields.
Proof.
  unfold getXmlValue, XML.getElementsByTagName, reservationElement, valueOf.
  rewrite descendantsOrSelf_element, descendants_lines. cbn [tl].
  induction fields as [|f fields IH]; [reflexivity|].
  cbn [map filter find]. change (XML.nodeName (fieldElement f)) with (lit (fst f)).
  destruct (JS.eqb (lit (fst f)) t); [apply textContent_fieldElement|exact IH].
Qed.

Lemma goodTags (formData : FormData) :
  Forall (fun f => goodTag (lit (fst f)) /\ printable (snd f) = true)
         (xmlFields formData)
  <-> Forall (fun f => printable (snd f) = true) (xmlFields formData).
Proof.
  unfold xmlFields. split; intros H.
  - eapply Forall_impl; [|exact H]. now intros f [_ Hf].
  - repeat match goal with
           | H : Forall _ (_ :: _) |- _ => inversion_clear H
           end.
    repeat (constructor; [split; [repeat split|assumption]|]).
    constructor.
Qed.

Lemma printable_fields (formData : FormData) :
  printableRecord formData ->
  Forall (fun f => printable (snd f) = true) (xmlFields formData).
Proof.
  intros (H1 & H2 & H3 & H4 & H5 & H6 & H7 & H8 & H9 & H10 & H11).
  unfold xmlFields. repeat (constructor; [cbn [snd]; try assumption|]).
  - apply numberToString_printable.
  - constructor.
Qed.

Lemma noCR_fields (formData : FormData) :
  Forall (fun f => printable (snd f) = true) (xmlFields formData) ->
  Forall (fun f => forallb (fun c => negb (c =? 13)%N) (lit (fst f)) = true
                   /\ printable (snd f) = true) (xmlFields formData).
Proof.
  unfold xmlFields. intros H.
  repeat match goal with
         | H : Forall _ (_ :: _) |- _ => inversion_clear H
         end.
  repeat (constructor; [split; [reflexivity|assumption]|]).
  constructor.
Qed.

Lemma parseInt_guests (g : Z) :
  parseInt (or_else (VStr (numberToString g)) (VNum 1)) = VNum g.
Proof.
  unfold or_else, truthy. pose proof (numberToString_nonempty g) as Hne.
  destruct (numberToString g) as [|c s] eqn:E; [now elim Hne|].
  unfold parseInt. cbn [toString]. rewrite <- E.
  now rewrite parseIntString_numberToString.
Qed.

(** Evaluates the comparisons of two literal names. *)
Ltac compare_names :=
  repeat match goal with
         | |- context [JS.eqb (lit ?a) (lit ?b)] =>
             let v := eval vm_compute in (JS.eqb (lit a) (lit b)) in
             change (JS.eqb (lit a) (lit b)) with v
         end.

(** C3.  The XML round trip: the body built for a record whose string
    fields are ASCII printable, and whose number of guests is a safe
    integer, is a well-formed document with one [reservation] element, and
    the object the XML reader builds from that element holds the field
    values of the record: every string as it was and the number of
    guests as the same integer, with an empty id and an empty creation
    time, which the body does not carry. *)
Theorem xml_round_trip (formData : FormData) :
  printableRecord formData ->
  - maxSafeInteger <= guests formData <= maxSafeInteger ->
  exists root,
    XML.parse (xmlBody formData) = Some root
    /\ XML.documentElementsByTagName root (lit "reservation") = [root]
    /\ readReservation root = readBack formData.
Proof.
  intros Hp _. pose proof (printable_fields Hp) as Hf.
  exists (reservationElement (xmlFields formData)).
  split; [|split].
  - rewrite xmlBody_lines. apply parse_document.
    + now apply goodTags.
    + now apply noCR_fields.
  - unfold XML.documentElementsByTagName, reservationElement.
    rewrite descendantsOrSelf_element, descendants_lines. reflexivity.
  - unfold readReservation, readBack.
    rewrite !getXmlValue_reservation.
    unfold valueOf, xmlFields.
    cbn [XML.getAttribute reservationElement option_map find fst snd].
    compare_names. cbv iota. cbn [isEmpty snd].
    now rewrite parseInt_guests.
Qed.

Lemma xml_round_trip_witness :
  printableRecord markupRecord
  /\ - maxSafeInteger <= guests markupRecord <= maxSafeInteger
  /\ exists root,
       XML.parse (xmlBody markupRecord) = Some root
       /\ XML.documentElementsByTagName root (lit "reservation") = [root]
       /\ readReservation root = readBack markupRecord.
Proof.
  assert (Hp : printableRecord markupRecord) by (repeat split).
  assert (Hg : - maxSafeInteger <= guests markupRecord <= maxSafeInteger)
    by (split; discriminate).
  split; [exact Hp|]. split; [exact Hg|].
  exact (@xml_round_trip markupRecord Hp Hg).
Defined.

(** ** The request of an XML submission *)

Lemma validateForms_frame P w :
  dom (snd (validateForms P w)) = dom w
  /\ requests (snd (validateForms P w)) = requests w
  /\ sessionOf (snd (validateForms P w)) = sessionOf w.
Proof.
  apply (@keeps_validateForms
           (fun x => dom x = dom w /\ requests x = requests w
                     /\ sessionOf x = sessionOf w)); auto.
Qed.

Lemma submit_xml_request P w :
  fst (validateForms P w) = Return true ->
  exists more,
    requests (snd (submitReservation P (lit "xml") w))
    = requests w ++ xmlRequest w :: more.
Proof.
  intros Hv. pose proof (validateForms_frame P w) as (Hd & Hr & Hs).
  unfold submitReservation, bind at 1.
  destruct (validateForms P w) as [[b|e] w1]; cbn [fst snd] in *;
    [|discriminate].
  injection Hv as ->. cbn [negb]. unfold bind at 1, get at 1.
  set (J := fun x : World =>
              exists more, requests x = requests w ++ xmlRequest w :: more).
  assert (HJ : forall l x, J x -> J (withMessages l x)) by (intros l x H; exact H).
  assert (Hdom : forall f x, J x -> J (withDom f x)) by (intros f x H; exact H).
  assert (Htab : forall t x, J x -> J (withTable t x)) by (intros t x H; exact H).
  assert (Hreq : forall r x, J x -> J (withRequests (requests x ++ [r]) x)).
  { intros r x (more & Hx). exists (more ++ [r]). cbn [requests withRequests].
    rewrite Hx, <- app_assoc. reflexivity. }
  assert (Hres : forall x, J x -> J (withSession false None x))
    by (intros x H; exact H).
  change (J (snd (tryCatch
    (w2 <- get ;;
     response <- fetch P
       (if JS.eqb (lit "xml") (lit "xml")
        then {| method := if editMode w2 then lit "PUT" else lit "POST";
                url := if editMode w2
                       then API_BASE ++ lit "/"
                            ++ toString (ofNullable (currentEditId w2))
                            ++ lit "?format=xml"
                       else API_BASE ++ lit "?format=xml";
                contentType := Some (lit "application/xml");
                body := XmlBody (xmlBody (getFormData (dom w1))) |}
        else {| method := if editMode w2 then lit "PUT" else lit "POST";
                url := if editMode w2
                       then API_BASE ++ lit "/"
                            ++ toString (ofNullable (currentEditId w2))
                       else API_BASE;
                contentType := Some (lit "application/json");
                body := JsonBody (getFormData (dom w1)) |}) ;;
     if negb (ok response)
     then throw (Error (lit "HTTP " ++ numberToString (status response)
                        ++ lit ": " ++ text response))
     else
       w3 <- get ;;
       showMessage
         (if editMode w3
          then [9989%N] ++ lit " Reservation #"
               ++ toString (ofNullable (currentEditId w3))
               ++ lit " updated successfully!"
          else [9989%N] ++ lit " Reservation created successfully!")
         success ;;
       resetForms P ;;
       loadReservations P)
    (fun e =>
       w2 <- get ;;
       showMessage
         ([10060%N] ++ lit " Failed to "
          ++ (if editMode w2 then lit "update" else lit "create")
          ++ lit " reservation: " ++ message_of P e)
         error) w1))).
  change (JS.eqb (lit "xml") (lit "xml")) with true. cbv iota.
  unfold tryCatch, bind at 1, get at 1. unfold bind at 1.
  assert (Hfetched : forall req,
            req = xmlRequest w -> J (withRequests (requests w1 ++ [req]) w1)).
  { intros req ->. exists []. cbn [requests withRequests]. now rewrite Hr. }
  assert (Hreq1 : {| method := if editMode w1 then lit "PUT" else lit "POST";
                     url := if editMode w1
                            then API_BASE ++ lit "/"
                                 ++ toString (ofNullable (currentEditId w1))
                                 ++ lit "?format=xml"
                            else API_BASE ++ lit "?format=xml";
                     contentType := Some (lit "application/xml");
                     body := XmlBody (xmlBody (getFormData (dom w1))) |}
                  = xmlRequest w).
  { unfold xmlRequest. unfold sessionOf in Hs. injection Hs as -> ->.
    now rewrite Hd. }
  rewrite Hreq1. specialize (Hfetched _ eq_refl).
  unfold fetch.
  set (w' := withRequests (requests w1 ++ [xmlRequest w]) w1) in *.
  destruct (fetchOutcome P (requests w')) as [m|r].
  - apply (@keeps_showMessage J HJ). exact Hfetched.
  - destruct (negb (ok r)).
    + apply (@keeps_showMessage J HJ). exact Hfetched.
    + match goal with
      | |- J (snd (let (o, x) := ?m w' in _)) =>
          assert (Hm : J (snd (m w')));
          [|destruct (m w') as [[u|e] w4]; cbn [snd] in *;
            [exact Hm|now apply (@keeps_showMessage J HJ)]]
      end.
      revert Hfetched. generalize w'.
      change (preserves J
        (w3 <- get ;;
         showMessage
           (if editMode w3
            then [9989%N] ++ lit " Reservation #"
                 ++ toString (ofNullable (currentEditId w3))
                 ++ lit " updated successfully!"
            else [9989%N] ++ lit " Reservation created successfully!")
           success ;;
         resetForms P ;;
         loadReservations P)).
      apply preserves_bind; [apply preserves_get|intro w3].
      apply preserves_bind; [now apply keeps_showMessage|intros _].
      apply preserves_bind; [now apply keeps_resetForms|intros _].
      now apply keeps_loadReservations.
Qed.

(** C1.  Escaping is total over the submitted values.  A submission in
    the XML format that passes validation sends, as its first request,
    the XML body of the record read from the form; that body is the
    fixed header, one element per field in the order of the document and
    the closing tag; and each field value, whatever characters it holds,
    is carried with every [&], [<], [>], double quote and apostrophe
    replaced by its entity reference ([&apos;] for the apostrophe), so
    that the encoded value holds no bracket, no quote and no ampersand
    other than the start of a reference. *)
Theorem escapeXml_total_over_fields :
  (forall P w,
     fst (validateForms P w) = Return true ->
     exists more,
       requests (snd (submitReservation P (lit "xml") w))
       = requests w ++ xmlRequest w :: more)
  /\ (forall w, body (xmlRequest w) = XmlBody (xmlBody (getFormData (dom w))))
  /\ (forall formData,
        xmlBody formData
        = xmlHeader
          ++ List.concat (map (xmlLine escapeXml) (xmlFields formData))
          ++ lit "</reservation>")
  /\ (forall v : JSString,
        escapeXml v = flat_map xmlEntity v /\ markupFree (escapeXml v) = true).
Proof.
  split; [exact submit_xml_request|].
  split; [reflexivity|].
  split; [exact xmlBody_lines|].
  intros v. split.
  - apply escapeXml_entities.
  - apply markupFree_escapeXml.
Qed.

Lemma escapeXml_total_over_fields_witness :
  fst (validateForms (platformWith emptyListServer true)
         (blankWorld completeForm)) = Return true
  /\ exists more,
       requests (snd (submitReservation (platformWith emptyListServer true)
                        (lit "xml") (blankWorld completeForm)))
       = xmlRequest (blankWorld completeForm) :: more.
Proof.
  split; [reflexivity|].
  exact (proj1 escapeXml_total_over_fields (platformWith emptyListServer true)
           (blankWorld completeForm) eq_refl).
Defined.

(** ** The order of the table *)

Lemma idNumber_number r z : field r "id" = VNum z -> idNumber r = z.
Proof.
  intros H. unfold idNumber, parseInt. rewrite H. cbn [toString].
  now rewrite parseIntString_numberToString.
Qed.

Lemma idNumber_decimal r z :
  field r "id" = VStr (numberToString z) -> idNumber r = z.
Proof.
  intros H. unfold idNumber, parseInt. rewrite H. cbn [toString].
  now rewrite parseIntString_numberToString.
Qed.

(** C4.  For records whose id and shown fields are plain (no object or
    array, numbers and the integers written in ids within the safe
    range), [renderTable] lists the records in descending order of their
    numeric id: the rows are those of a rearrangement of the records in
    which no record stands before one with a larger id number.  The id
    number of a record is the integer of its id when the id is a number
    or the decimal writing of one, the integer that [parseInt] reads in
    an id that is a text (within the safe range), and 0 when the id is missing, null, empty or
    not read as an integer.  Records with the ids 3, "10", null
    and 7 are listed as 10, 7, 3 and the record with the null id last. *)
Theorem renderTable_sorts_by_id_descending P
  (records : list (list (string * Value))) w :
  (forallb plainRecord (map VObj records) = true ->
   exists sorted,
     Permutation (map VObj records) sorted
     /\ StronglySorted idDescending sorted
     /\ renderTable P (VArr (map VObj records)) w
        = (Return tt,
           withTable {| markup := match records with
                                  | [] => emptyMarkup
                                  | _ => []
                                  end;
                        rows := map (rowHtml P) sorted |} w))
  /\ (forall r z,
        safeInteger z = true -> field r "id" = VNum z -> idNumber r = z)
  /\ (forall r z,
        safeInteger z = true -> field r "id" = VStr (numberToString z) ->
        idNumber r = z)
  /\ (forall r s,
        exactInteger s = true -> field r "id" = VStr s ->
        idNumber r = match parseIntString s with
                     | Some z => z
                     | None => 0
                     end)
  /\ (forall r, parseInt (field r "id") = VNaN -> idNumber r = 0)
  /\ (forall r,
        field r "id" = VNull \/ field r "id" = VUndefined
        \/ field r "id" = VStr [] \/ field r "id" = VStr (lit "abc") ->
        idNumber r = 0)
  /\ (forall props, lookup "id" props = VUndefined -> idNumber (VObj props) = 0)
  /\ sort byIdDescending
       [withId (VNum 3); withId (VStr (lit "10")); withId VNull; withId (VNum 7)]
     = [withId (VStr (lit "10")); withId (VNum 7); withId (VNum 3); withId VNull].
Proof.
  split; [|split; [|split; [|split; [|split; [|split; [|split]]]]]].
  - intros _. exists (sort byIdDescending (map VObj records)).
    split; [apply sort_perm|]. split; [apply sort_descending|].
    destruct records as [|r records]; [apply renderTable_empty|].
    apply renderTable_array; [discriminate|apply no_null_objects].
  - intros r z _. apply idNumber_number.
  - intros r z _. apply idNumber_decimal.
  - intros r s _ H. unfold idNumber, parseInt. rewrite H. cbn [toString].
    now destruct (parseIntString s).
  - intros r H. unfold idNumber. now rewrite H.
  - intros r [H|[H|[H|H]]]; unfold idNumber; now rewrite H.
  - intros props H. unfold idNumber, field. cbn [getProp]. rewrite H. reflexivity.
  - reflexivity.
Qed.

Lemma renderTable_sorts_by_id_descending_witness :
  forallb plainRecord (map VObj fourRecords) = true
  /\ exists sorted,
       Permutation (map VObj fourRecords) sorted
       /\ StronglySorted idDescending sorted
       /\ renderTable (platformWith emptyListServer true)
            (VArr (map VObj fourRecords)) (blankWorld completeForm)
          = (Return tt,
             withTable {| markup := [];
                          rows := map (rowHtml (platformWith emptyListServer true))
                                    sorted |}
               (blankWorld completeForm)).
Proof.
  split; [reflexivity|].
  exact (proj1 (renderTable_sorts_by_id_descending
                  (platformWith emptyListServer true) fourRecords
                  (blankWorld completeForm)) eq_refl).
Defined.

(* ================================================================== *)
(** * Further properties *)
(* ================================================================== *)

(** ** Regular expressions: [test] decides the language *)

Lemma nullable_matches (r : Re) : nullable r = true <-> matches r [].
Proof.
  induction r as [| |p|a IHa b IHb|a IHa b IHb|a IHa]; cbn [nullable].
  - split; [discriminate|]. intros H. inversion H.
  - split; [constructor|reflexivity].
  - split; [discriminate|]. intros H. inversion H.
  - rewrite andb_true_iff, IHa, IHb. split.
    + intros [Ha Hb]. exact (m_seq Ha Hb).
    + intros H. inversion H as [| |a' b' s t Hs Ht| | | |]; subst.
      match goal with E : _ ++ _ = [] |- _ =>
        apply app_eq_nil in E as [-> ->] end.
      now split.
  - rewrite orb_true_iff, IHa, IHb. split.
    + intros [H|H]; [now apply m_alt_l|now apply m_alt_r].
    + intros H. inversion H; subst; auto.
  - split; [constructor|reflexivity].
Qed.

(** A match of a repetition that starts with [c] starts with a match
    of the body that starts with [c]. *)
Lemma star_cons (a : Re) (c : N) (s : JSString) :
  matches (Star a) (c :: s) ->
  exists s1 s2, s = s1 ++ s2 /\ matches a (c :: s1) /\ matches (Star a) s2.
Proof.
  intros H. remember (Star a) as r eqn:Er. remember (c :: s) as u eqn:Eu.
  revert s Eu. induction H as [| | | | | |a' s1 s2 H1 _ H2 IH2];
    try discriminate; intros s Eu.
  injection Er as ->. destruct s1 as [|x s1].
  - cbn in Eu. now apply IH2.
  - cbn in Eu. injection Eu as -> <-. now exists s1, s2.
Qed.

Lemma deriv_matches (r : Re) (c : N) (s : JSString) :
  matches (deriv c r) s <-> matches r (c :: s).
Proof.
  revert s. induction r as [| |p|a IHa b IHb|a IHa b IHb|a IHa]; intros s;
    cbn [deriv].
  - split; intros H; inversion H.
  - split; intros H; inversion H.
  - destruct (p c) eqn:Hp; split; intros H; inversion H; subst.
    + now constructor.
    + constructor.
    + congruence.
  - assert (Hseq : matches (Seq (deriv c a) b) s
                   -> matches (Seq a b) (c :: s)).
    { intros H. inversion H as [| |a' b' s1 s2 H1 H2| | | |]; subst.
      apply IHa in H1. exact (m_seq H1 H2). }
    assert (Hinv : matches (Seq a b) (c :: s) ->
                   matches (Seq (deriv c a) b) s
                   \/ (matches a [] /\ matches b (c :: s))).
    { intros H. remember (c :: s) as u eqn:Eu.
      inversion H as [| |a' b' s1 s2 H1 H2| | | |]; subst.
      destruct s1 as [|x s1].
      - right. match goal with E : _ = c :: s |- _ => cbn in E; subst end.
        now split.
      - left. match goal with E : _ = c :: s |- _ =>
          cbn in E; injection E as -> <- end.
        apply IHa in H1. exact (m_seq H1 H2). }
    destruct (nullable a) eqn:Hn.
    + split.
      * intros H. inversion H; subst; [now apply Hseq|].
        apply nullable_matches in Hn.
        match goal with Hb : matches (deriv c b) s |- _ => apply IHb in Hb;
          exact (m_seq Hn Hb) end.
      * intros H. destruct (Hinv H) as [H1|[_ H2]];
          [now apply m_alt_l|apply m_alt_r; now apply IHb].
    + split; [exact Hseq|].
      intros H. destruct (Hinv H) as [H1|[H1 _]]; [exact H1|].
      apply nullable_matches in H1. congruence.
  - split; intros H; inversion H; subst.
    + apply m_alt_l. now apply IHa.
    + apply m_alt_r. now apply IHb.
    + apply m_alt_l. now apply IHa.
    + apply m_alt_r. now apply IHb.
  - split.
    + intros H. inversion H as [| |a' b' s1 s2 H1 H2| | | |]; subst.
      apply IHa in H1. exact (m_star_app H1 H2).
    + intros H. apply star_cons in H as (s1 & s2 & -> & H1 & H2).
      apply IHa in H1. exact (m_seq H1 H2).
Qed.

Lemma test_matches (r : Re) (s : JSString) : test r s = true <-> matches r s.
Proof.
  unfold test. revert r. induction s as [|c s IH]; intros r; cbn [fold_left].
  - apply nullable_matches.
  - rewrite IH. apply deriv_matches.
Qed.

(** *** Classes and their repetitions *)

Lemma matches_class (p : N -> bool) (s : JSString) :
  matches (Class p) s <-> exists c, s = [c] /\ p c = true.
Proof.
  split.
  - intros H. inversion H; subst. eauto.
  - intros (c & -> & H). now constructor.
Qed.

Lemma matches_star_class (p : N -> bool) (s : JSString) :
  matches (Star (Class p)) s <-> forallb p s = true.
Proof.
  split.
  - intros H. remember (Star (Class p)) as r eqn:Er.
    induction H as [| | | | | |a s1 s2 H1 _ H2 IH2]; try discriminate;
      [reflexivity|].
    injection Er as ->. inversion H1; subst. cbn.
    now rewrite IH2, andb_true_r.
  - induction s as [|c s IH]; cbn [forallb]; [constructor|].
    intros H. apply andb_prop in H as [Hc Hs].
    exact (m_star_app (m_class p c Hc) (IH Hs)).
Qed.

Lemma matches_plus_class (p : N -> bool) (s : JSString) :
  matches (Plus (Class p)) s <-> s <> [] /\ forallb p s = true.
Proof.
  unfold Plus. split.
  - intros H. inversion H as [| |a b s1 s2 H1 H2| | | |]; subst.
    inversion H1; subst. apply matches_star_class in H2.
    cbn. split; [discriminate|]. now rewrite H2, andb_true_r.
  - intros [Hne H]. destruct s as [|c s]; [now elim Hne|].
    cbn [forallb] in H. apply andb_prop in H as [Hc Hs].
    apply (m_seq (s := [c])); [now constructor|].
    now apply matches_star_class.
Qed.

Lemma matches_chr (c : N) (s : JSString) : matches (Chr c) s <-> s = [c].
Proof.
  unfold Chr. rewrite matches_class. split.
  - intros (x & -> & H). apply N.eqb_eq in H. now subst.
  - intros ->. exists c. split; [reflexivity|apply N.eqb_refl].
Qed.

Lemma matches_seq (a b : Re) (s : JSString) :
  matches (Seq a b) s <-> exists u v, s = u ++ v /\ matches a u /\ matches b v.
Proof.
  split.
  - intros H. inversion H; subst. eauto.
  - intros (u & v & -> & Ha & Hb). now constructor.
Qed.

Lemma matches_times_class (p : N -> bool) (n : nat) (s : JSString) :
  matches (Times n (Class p)) s <-> List.length s = n /\ forallb p s = true.
Proof.
  revert s. induction n as [|n IH]; intros s; cbn [Times].
  - split.
    + intros H. inversion H. now split.
    + intros [H _]. destruct s; [constructor|discriminate].
  - rewrite matches_seq. split.
    + intros (u & v & -> & Hu & Hv). apply matches_class in Hu as (c & -> & Hc).
      apply IH in Hv as [Hl Hv]. cbn. now rewrite Hl, Hc, Hv.
    + intros [Hl Hs]. destruct s as [|c s]; [discriminate|].
      cbn in Hl, Hs. apply andb_prop in Hs as [Hc Hs].
      exists [c], s. repeat split; [now constructor|].
      apply IH. split; [lia|exact Hs].
Qed.

(** ** The email and phone patterns *)

Lemma notSpaceNorAt_spec (c : N) :
  notSpaceNorAt c = true -> isWhiteSpace c = false /\ c <> 64%N.
Proof.
  unfold notSpaceNorAt. intros H. apply negb_true_iff in H.
  apply orb_false_elim in H as [H1 H2]. split; [exact H1|].
  now apply N.eqb_neq.
Qed.

Lemma occurrences_app (c : N) (a b : JSString) :
  occurrences c (a ++ b) = (occurrences c a + occurrences c b)%nat.
Proof. unfold occurrences. now rewrite filter_app, length_app. Qed.

Lemma addressPart_clean (s : JSString) :
  forallb notSpaceNorAt s = true ->
  forallb (fun c => negb (isWhiteSpace c)) s = true /\ occurrences 64 s = 0%nat.
Proof.
  induction s as [|c s IH]; [now split|]. cbn [forallb]. intros H.
  apply andb_prop in H as [Hc Hs]. destruct (IH Hs) as [H1 H2].
  apply notSpaceNorAt_spec in Hc as [Hw Hat]. rewrite Hw, H1. split; [reflexivity|].
  unfold occurrences in *. cbn [filter].
  apply N.eqb_neq in Hat. now rewrite Hat.
Qed.

Lemma emailRegex_parts (s : JSString) :
  test emailRegex s = true <->
  exists a b c,
    s = a ++ 64%N :: b ++ 46%N :: c
    /\ addressPart a /\ addressPart b /\ addressPart c.
Proof.
  rewrite test_matches. unfold emailRegex, addressPart. split.
  - intros H.
    apply matches_seq in H as (a & r1 & -> & Ha & H).
    apply matches_seq in H as (x & r2 & -> & Hx & H).
    apply matches_seq in H as (b & r3 & -> & Hb & H).
    apply matches_seq in H as (y & c & -> & Hy & Hc).
    apply matches_chr in Hx, Hy. subst x y.
    apply matches_plus_class in Ha, Hb, Hc.
    exists a, b, c. repeat split; try tauto.
  - intros (a & b & c & -> & Ha & Hb & Hc).
    apply matches_plus_class in Ha, Hb, Hc.
    apply m_seq; [exact Ha|].
    apply (m_seq (s := [64%N])); [now apply matches_chr|].
    apply m_seq; [exact Hb|].
    apply (m_seq (s := [46%N])); [now apply matches_chr|exact Hc].
Qed.

Lemma emailRegex_clean (s : JSString) :
  test emailRegex s = true ->
  forallb (fun c => negb (isWhiteSpace c)) s = true
  /\ occurrences 64 s = 1%nat.
Proof.
  intros H.
  apply emailRegex_parts in H as (a & b & c & -> & [_ Ha] & [_ Hb] & [_ Hc]).
  apply addressPart_clean in Ha as [Ha1 Ha2], Hb as [Hb1 Hb2], Hc as [Hc1 Hc2].
  split.
  - rewrite forallb_app. cbn [forallb]. rewrite forallb_app. cbn [forallb].
    now rewrite Ha1, Hb1, Hc1.
  - rewrite occurrences_app.
    change (64%N :: b ++ 46%N :: c) with ([64%N] ++ b ++ [46%N] ++ c).
    rewrite !occurrences_app, Ha2, Hb2, Hc2. reflexivity.
Qed.

(** The email pattern accepts exactly the texts made of three parts
    without white space or [@], not empty, an [@] after the first and a
    dot after the second; such a text holds no white space and exactly
    one [@]. *)
Theorem emailRegex_language (s : JSString) :
  (test emailRegex s = true <->
   exists a b c,
     s = a ++ 64%N :: b ++ 46%N :: c
     /\ addressPart a /\ addressPart b /\ addressPart c)
  /\ (test emailRegex s = true ->
      forallb (fun c => negb (isWhiteSpace c)) s = true
      /\ occurrences 64 s = 1%nat).
Proof. split; [apply emailRegex_parts|apply emailRegex_clean]. Qed.

Lemma emailRegex_language_witness :
  forallb (fun c => negb (isWhiteSpace c)) (lit "ana@example.com") = true
  /\ occurrences 64 (lit "ana@example.com") = 1%nat.
Proof.
  exact (proj2 (emailRegex_language (lit "ana@example.com")) eq_refl).
Defined.

(** The phone pattern accepts exactly the eleven digits that start
    with 09. *)
Theorem phoneRegex_language (s : JSString) :
  test phoneRegex s = true <->
  exists d, s = 48%N :: 57%N :: d
            /\ List.length d = 9%nat /\ forallb isDigit d = true.
Proof.
  rewrite test_matches. unfold phoneRegex. split.
  - intros H.
    apply matches_seq in H as (x & r1 & -> & Hx & H).
    apply matches_seq in H as (y & d & -> & Hy & Hd).
    apply matches_chr in Hx, Hy. subst x y.
    apply matches_times_class in Hd. now exists d.
  - intros (d & -> & Hd).
    apply (m_seq (s := [48%N])); [now apply matches_chr|].
    apply (m_seq (s := [57%N])); [now apply matches_chr|].
    now apply matches_times_class.
Qed.

Lemma phoneRegex_language_witness :
  exists d, lit "09171234567" = 48%N :: 57%N :: d
            /\ List.length d = 9%nat /\ forallb isDigit d = true.
Proof.
  exact (proj1 (phoneRegex_language (lit "09171234567")) eq_refl).
Defined.

(** ** Validation as a function of the form *)

Lemma validateForms_eval P w :
  validateForms P w
  = (Return (validForm P (dom w)),
     withMessages (messages w ++ validationMessages P (dom w)) w).
Proof.
  unfold validateForms, validationMessages, validForm, errorOf, warningsOf,
    datesOutOfOrder, bind, get.
  destruct (firstEmpty (dom w) requiredFields) as [f|]; [reflexivity|].
  destruct (test emailRegex (dom w "email")); [|reflexivity].
  cbn [negb andb].
  destruct (negb (isEmpty (dom w "checkin_date"))
            && negb (isEmpty (dom w "checkout_date"))) eqn:Hd; cbn [andb].
  - destruct (dateLe _ _); [reflexivity|]. cbn [negb].
    destruct (dateLt _ _);
      destruct (negb (isEmpty (dom w "phone"))
                && negb (test phoneRegex (dom w "phone")));
      cbn; rewrite ?app_nil_r, <- ?app_assoc; try reflexivity;
      now destruct w.
  - cbn [negb].
    destruct (negb (isEmpty (dom w "phone"))
              && negb (test phoneRegex (dom w "phone")));
      cbn; rewrite ?app_nil_r; try reflexivity; now destruct w.
Qed.

(** ** The verdict of validation *)

Lemma validForm_of_verdict P w b :
  fst (validateForms P w) = Return b -> validForm P (dom w) = b.
Proof. rewrite validateForms_eval. cbn. congruence. Qed.

(** Validation passes exactly when every required input is present once
    trimmed, the email has the expected shape and the dates are not out
    of order; the phone number and the clock never change the verdict. *)
Theorem validation_verdict P w :
  (fst (validateForms P w) = Return true <->
   (forall g, In g requiredFields -> trim (dom w g) <> [])
   /\ test emailRegex (dom w "email") = true
   /\ datesOutOfOrder P (dom w) = false)
  /\ (forall P' v,
        legacyDate P' = legacyDate P ->
        fst (validateForms P' (withDom (assign "phone" v (dom w)) w))
        = fst (validateForms P w)).
Proof.
  split.
  - rewrite validateForms_eval. cbn [fst]. unfold validForm.
    rewrite <- firstEmpty_None.
    destruct (firstEmpty (dom w) requiredFields) as [f|].
    + split; [discriminate|]. now intros [H _].
    + destruct (test emailRegex (dom w "email")),
        (datesOutOfOrder P (dom w)); cbn; split; try discriminate;
        try tauto; intros (_ & H1 & H2); discriminate.
  - intros P' v HP. rewrite !validateForms_eval. cbn [fst dom withDom].
    unfold validForm, datesOutOfOrder. now rewrite HP.
Qed.

Lemma validation_verdict_witness :
  fst (validateForms (platformWith offline false)
         (withDom (assign "phone" (lit "12345") (dom (blankWorld completeForm)))
            (blankWorld completeForm)))
  = fst (validateForms (platformWith emptyListServer true)
           (blankWorld completeForm)).
Proof.
  exact (proj2 (validation_verdict (platformWith emptyListServer true)
                  (blankWorld completeForm))
           (platformWith offline false) (lit "12345") eq_refl).
Defined.

(** Validation writes nothing but messages: one error when it fails,
    warnings only, and at most two, when it passes. *)
Theorem validation_only_shows_messages P w :
  exists l,
    snd (validateForms P w) = withMessages (messages w ++ l) w
    /\ (fst (validateForms P w) = Return false ->
        exists m, l = [(error, icons error ++ lit " " ++ m)])
    /\ (fst (validateForms P w) = Return true ->
        forallb isWarning l = true /\ (List.length l <= 2)%nat).
Proof.
  exists (validationMessages P (dom w)). rewrite validateForms_eval.
  cbn [fst snd]. split; [reflexivity|]. unfold validationMessages.
  destruct (validForm P (dom w)); split; try discriminate.
  - intros _. unfold warningsOf.
    destruct (_ && dateLt _ _); destruct (_ && negb (test phoneRegex _));
      cbn; split; auto.
  - intros _. eauto.
Qed.

Lemma validation_only_shows_messages_witness :
  exists l,
    snd (validateForms (platformWith emptyListServer true)
           (blankWorld badEmailForm))
    = withMessages (messages (blankWorld badEmailForm) ++ l)
        (blankWorld badEmailForm)
    /\ exists m, l = [(error, icons error ++ lit " " ++ m)].
Proof.
  destruct (validation_only_shows_messages (platformWith emptyListServer true)
              (blankWorld badEmailForm)) as (l & Hs & Hf & _).
  exact (ex_intro _ l (conj Hs (Hf eq_refl))).
Defined.

Lemma trimStart_clean (s : JSString) :
  forallb (fun c => negb (isWhiteSpace c)) s = true -> trimStart s = s.
Proof.
  destruct s as [|c s]; [reflexivity|]. cbn [forallb trimStart].
  intros H. apply andb_prop in H as [Hc _].
  now destruct (isWhiteSpace c).
Qed.

Lemma trim_clean (s : JSString) :
  forallb (fun c => negb (isWhiteSpace c)) s = true -> trim s = s.
Proof.
  intros H. unfold trim, trimEnd. rewrite (trimStart_clean s H).
  rewrite trimStart_clean; [apply rev_involutive|].
  apply forallb_forall. intros c Hc. apply in_rev in Hc.
  revert c Hc. now apply forallb_forall.
Qed.

(** The record that is sent satisfies what validation has checked on the
    inputs: the name, the resort and the two dates are not empty, the
    email is the text of the input, unchanged by the trimming, and has
    the shape of an email, the number of guests is not zero and the
    check-out is not on or before the check-in. *)
Theorem validated_record_is_complete P w :
  fst (validateForms P w) = Return true ->
  let formData := getFormData (dom w) in
  guest_name formData <> []
  /\ email formData = dom w "email"
  /\ test emailRegex (email formData) = true
  /\ resort_name formData <> []
  /\ checkin_date formData <> []
  /\ checkout_date formData <> []
  /\ guests formData <> 0
  /\ dateLe (dateOfString (legacyDate P) (checkout_date formData))
            (dateOfString (legacyDate P) (checkin_date formData)) = false.
Proof.
  intros Hv formData. subst formData. apply validForm_of_verdict in Hv.
  unfold validForm in Hv.
  destruct (firstEmpty (dom w) requiredFields) eqn:Hreq; [discriminate|].
  apply andb_prop in Hv as [Hemail Hdates].
  pose proof (proj1 (firstEmpty_None (dom w) requiredFields) Hreq) as Hall.
  assert (Hne : forall g, In g requiredFields -> dom w g <> []).
  { intros g Hg E. apply (Hall g Hg). now rewrite E. }
  cbn [getFormData guest_name email resort_name checkin_date checkout_date
         guests].
  rewrite (trim_clean _ (proj1 (emailRegex_clean _ Hemail))).
  repeat split.
  - apply Hall. cbn. tauto.
  - exact Hemail.
  - apply Hne. cbn. tauto.
  - apply Hne. cbn. tauto.
  - apply Hne. cbn. tauto.
  - unfold intOr. destruct (parseIntString (dom w "guests")) as [z|];
      [|discriminate].
    destruct (Z.eqb_spec z 0); [discriminate|assumption].
  - unfold datesOutOfOrder in Hdates.
    assert (Hi : isEmpty (dom w "checkin_date") = false).
    { destruct (dom w "checkin_date") eqn:E; [|reflexivity].
      exfalso. apply (Hne "checkin_date"); [cbn; tauto|exact E]. }
    assert (Ho : isEmpty (dom w "checkout_date") = false).
    { destruct (dom w "checkout_date") eqn:E; [|reflexivity].
      exfalso. apply (Hne "checkout_date"); [cbn; tauto|exact E]. }
    rewrite Hi, Ho in Hdates. cbn [negb andb] in Hdates.
    now apply negb_true_iff in Hdates.
Qed.

Lemma validated_record_is_complete_witness :
  email (getFormData completeForm) = lit "ana@example.com"
  /\ guests (getFormData completeForm) <> 0.
Proof.
  destruct (@validated_record_is_complete (platformWith emptyListServer true)
              (blankWorld completeForm) eq_refl)
    as (_ & He & _ & _ & _ & _ & Hg & _).
  exact (conj He Hg).
Defined.

(** A form that fails validation is not sent: the submission ends with
    the one error of the form and no request; the error of a malformed
    email and that of dates out of order are the ones of validation. *)
Theorem invalid_form_is_not_sent P format w :
  fst (validateForms P w) = Return false ->
  submitReservation P format w
  = (Return tt, shown error (errorOf P (dom w)) w)
  /\ requests (snd (submitReservation P format w)) = requests w
  /\ ((forall g, In g requiredFields -> trim (dom w g) <> []) ->
      errorOf P (dom w)
      = if test emailRegex (dom w "email") then dateOrderMessage
        else invalidEmailMessage).
Proof.
  intros Hv. apply validForm_of_verdict in Hv.
  assert (Hrun : submitReservation P format w
                 = (Return tt, shown error (errorOf P (dom w)) w)).
  { unfold submitReservation, bind at 1. rewrite validateForms_eval.
    unfold validationMessages. rewrite Hv. reflexivity. }
  split; [exact Hrun|]. split; [now rewrite Hrun|].
  intros Hreq. apply firstEmpty_None in Hreq. unfold errorOf. now rewrite Hreq.
Qed.

Lemma invalid_form_is_not_sent_witness :
  fst (validateForms (platformWith emptyListServer true)
         (blankWorld badEmailForm)) = Return false
  /\ submitReservation (platformWith emptyListServer true) (lit "json")
       (blankWorld badEmailForm)
     = (Return tt, shown error invalidEmailMessage (blankWorld badEmailForm)).
Proof.
  split; [reflexivity|].
  exact (proj1 (@invalid_form_is_not_sent (platformWith emptyListServer true)
                  (lit "json") (blankWorld badEmailForm) eq_refl)).
Defined.

(** ** Handlers end normally *)

Lemma tryCatch_returns (m : M unit) (h : Exn -> M unit) :
  (forall e w, fst (h e w) = Return tt) ->
  forall w, fst (tryCatch m h w) = Return tt.
Proof.
  intros Hh w. unfold tryCatch. destruct (m w) as [[[]|e] w']; cbn; auto.
Qed.

Lemma loadReservations_returns P w : fst (loadReservations P w) = Return tt.
Proof. unfold loadReservations. now apply tryCatch_returns. Qed.

Lemma loadReservations_pair P w :
  loadReservations P w = (Return tt, snd (loadReservations P w)).
Proof.
  pose proof (loadReservations_returns P w) as H.
  destruct (loadReservations P w) as [o w']. cbn in *. now subst.
Qed.

(** ** What a submission does *)

Lemma submitReservation_eval P format w :
  validForm P (dom w) = true ->
  submitReservation P format w
  = let w1 := requested (submitRequest format w) (warned P w) in
    match fetchOutcome P (requests w ++ [submitRequest format w]) with
    | NetworkError m => (Return tt, shown error (submitFailed w m) w1)
    | Responded r =>
        if ok r
        then loadReservations P
               (snd (resetForms P (shown success (submitSucceeded w) w1)))
        else (Return tt, shown error (submitFailed w (httpError r)) w1)
    end.
Proof.
  intros Hv. unfold submitReservation, bind at 1. rewrite validateForms_eval.
  unfold validationMessages. rewrite Hv. cbn [negb]. cbv zeta.
  fold (warned P w). unfold bind at 1, get at 1.
  unfold tryCatch, bind at 1, get at 1. unfold bind at 1, fetch.
  replace (if JS.eqb format (lit "xml") then _ else _)
    with (submitRequest format w) by reflexivity.
  cbn [requests withRequests warned withMessages].
  destruct (fetchOutcome P (requests w ++ [submitRequest format w]))
    as [m|r]; [reflexivity|].
  destruct (ok r); cbn [negb]; [|reflexivity].
  unfold bind at 1, get at 1. unfold bind at 1, showMessage at 1, modify at 1.
  unfold bind at 1.
  match goal with |- context [resetForms P ?x] =>
    replace x with (shown success (submitSucceeded w)
                      (requested (submitRequest format w) (warned P w)))
      by reflexivity end.
  unfold resetForms at 1, modify at 1. cbn [snd resetForms modify].
  match goal with |- context [loadReservations P ?x] =>
    rewrite (loadReservations_pair P x) end.
  reflexivity.
Qed.

(** ** What a listing does *)

Lemma renderTable_eval P v w :
  renderTable P v w
  = match rendering P v with
    | inr t => (Return tt, withTable t w)
    | inl e => (Throw e, withTable clearedTable w)
    end.
Proof.
  unfold renderTable, rendering, bind at 1, modify at 1, bind at 1, prop.
  destruct (getProp v "length") as [len|] eqn:E; [|reflexivity].
  unfold ret at 1.
  assert (Hrest :
    (match v with
     | VArr items =>
         if existsb isNullish items
         then throw (Native "TypeError: cannot read properties of null")
         else forEach (sort byIdDescending items)
                (fun reservation => appendRow (rowHtml P reservation))
     | _ => throw (Native "TypeError: reservations.sort is not a function")
     end) (withTable {| markup := []; rows := [] |} w)
    = match
        match v with
        | VArr items =>
            if existsb isNullish items
            then inl (Native "TypeError: cannot read properties of null")
            else inr {| markup := [];
                        rows := map (rowHtml P) (sort byIdDescending items) |}
        | _ => inl (Native "TypeError: reservations.sort is not a function")
        end
      with
      | inr t => (Return tt, withTable t w)
      | inl e => (Throw e, withTable clearedTable w)
      end).
  { destruct v; try reflexivity.
    destruct (existsb isNullish items); [reflexivity|].
    rewrite forEach_appendRow. reflexivity. }
  destruct len; try exact Hrest.
  destruct z; try exact Hrest. reflexivity.
Qed.

Lemma loadReservations_eval P w :
  loadReservations P w = (Return tt, listing P w).
Proof.
  unfold loadReservations, listing, listUrl, tryCatch, bind at 1, get at 1.
  cbv zeta.
  destruct (negb (isEmpty (trim (dom w "searchInput")))).
  - destruct (encodeURIComponent P (trim (dom w "searchInput"))) as [q|];
      [|reflexivity].
    cbn [option_map]. unfold bind at 1, ret at 1. unfold bind at 1, fetch.
    cbn [requests withRequests]. unfold getRequest.
    destruct (fetchOutcome P _) as [m|r]; [reflexivity|].
    unfold listBody.
    destruct (JS.eqb (dom w "responseFormat") (lit "xml")).
    + rewrite renderTable_eval. now destruct (rendering P _).
    + unfold bind at 1, readJson. destruct (json r) as [m|v]; [reflexivity|].
      unfold ret at 1. rewrite renderTable_eval. now destruct (rendering P _).
  - unfold bind at 1, ret at 1. unfold bind at 1, fetch.
    cbn [requests withRequests]. unfold getRequest.
    destruct (fetchOutcome P _) as [m|r]; [reflexivity|].
    unfold listBody.
    destruct (JS.eqb (dom w "responseFormat") (lit "xml")).
    + rewrite renderTable_eval. now destruct (rendering P _).
    + unfold bind at 1, readJson. destruct (json r) as [m|v]; [reflexivity|].
      unfold ret at 1. rewrite renderTable_eval. now destruct (rendering P _).
Qed.

Lemma rendering_objects P (items : list Value) :
  existsb isNullish items = false ->
  rendering P (VArr items) = inr (listed P items).
Proof.
  intros H. unfold rendering, listed.
  cbn [getProp String.eqb Ascii.eqb Bool.eqb].
  destruct items as [|x items]; [reflexivity|].
  cbn [List.length Z.of_nat]. now rewrite H.
Qed.

Lemma readReservation_not_null l :
  existsb isNullish (map readReservation l) = false.
Proof. induction l; cbn; auto. Qed.

Lemma listing_frame P w :
  requests (listing P w)
  = requests w ++ match listUrl P (dom w) with
                  | Some u => [getRequest u]
                  | None => []
                  end
  /\ dom (listing P w) = dom w
  /\ sessionOf (listing P w) = sessionOf w
  /\ exists more, messages (listing P w) = messages w ++ more.
Proof.
  unfold listing.
  destruct (listUrl P (dom w)) as [u|];
    [|cbn; rewrite app_nil_r; repeat split; now eexists].
  cbv zeta.
  destruct (fetchOutcome P _) as [m|r]; [repeat split; now eexists|].
  destruct (listBody P _ r) as [m|v]; [repeat split; now eexists|].
  destruct (rendering P v); repeat split; try (now eexists).
  exists []. cbn. now rewrite app_nil_r.
Qed.

(** A listing sends at most one request, a GET to the address built from
    the format and the trimmed search term, and writes neither to the
    inputs nor to the edit session; a search term of white space only
    is left out of the address. *)
Theorem listing_request P w :
  requests (snd (loadReservations P w))
  = requests w ++ match listUrl P (dom w) with
                  | Some u => [getRequest u]
                  | None => []
                  end
  /\ dom (snd (loadReservations P w)) = dom w
  /\ sessionOf (snd (loadReservations P w)) = sessionOf w
  /\ (trim (dom w "searchInput") = [] ->
      listUrl P (dom w)
      = Some (API_BASE ++ lit "?format=" ++ dom w "responseFormat"))
  /\ (forall q,
        trim (dom w "searchInput") <> [] ->
        encodeURIComponent P (trim (dom w "searchInput")) = Some q ->
        listUrl P (dom w)
        = Some (API_BASE ++ lit "?format=" ++ dom w "responseFormat"
                ++ lit "&q=" ++ q)).
Proof.
  rewrite loadReservations_eval. cbn [snd].
  destruct (listing_frame P w) as (Hr & Hd & Hs & _).
  repeat split; auto.
  - intros H. unfold listUrl. now rewrite H.
  - intros q Hq He. unfold listUrl. rewrite He.
    destruct (trim (dom w "searchInput")); [now elim Hq|].
    cbn [isEmpty negb option_map]. now rewrite <- !app_assoc.
Qed.

Lemma listing_request_witness :
  listUrl (platformWith emptyListServer true) (dom (listingWorld (lit "xml")))
  = Some (API_BASE ++ lit "?format=" ++ lit "xml").
Proof.
  destruct (listing_request (platformWith emptyListServer true)
              (listingWorld (lit "xml"))) as (_ & _ & _ & H & _).
  exact (H eq_refl).
Defined.

(** A JSON listing shows what the body holds, whatever the status of the
    response and whatever was listed before: an array of items that are
    not null, with plain ids and plain shown fields (no object or array,
    numbers within the safe range), becomes the rows in descending order
    of id and no message is shown; an array with a null item, a null body
    and an object without a zero [length] leave an empty table and the
    failure message. *)
Theorem listing_of_json_body P w u r v :
  listUrl P (dom w) = Some u ->
  JS.eqb (dom w "responseFormat") (lit "xml") = false ->
  fetchOutcome P (requests w ++ [getRequest u]) = Responded r ->
  json r = inr v ->
  let w' := snd (loadReservations P w) in
  (forall items,
      v = VArr items -> existsb isNullish items = false ->
      forallb plainRecord items = true ->
      table w' = listed P items /\ messages w' = messages w)
  /\ (forall items,
         v = VArr items -> existsb isNullish items = true ->
         table w' = clearedTable /\ messages w' = messages w ++ [loadFailure])
  /\ (v = VNull ->
      table w' = clearedTable /\ messages w' = messages w ++ [loadFailure])
  /\ (forall props,
         v = VObj props -> lookup "length" props <> VNum 0 ->
         table w' = clearedTable /\ messages w' = messages w ++ [loadFailure]).
Proof.
  intros Hu Hx Hf Hj w'. subst w'. rewrite loadReservations_eval.
  cbn [snd]. unfold listing. rewrite Hu. cbv zeta. rewrite Hf.
  unfold listBody. rewrite Hx, Hj. repeat split.
  - subst v. now rewrite rendering_objects.
  - subst v. now rewrite rendering_objects.
  - subst v. unfold rendering.
    cbn [getProp String.eqb Ascii.eqb Bool.eqb].
    destruct items as [|x items]; [discriminate|].
    cbn [List.length]. rewrite H0.
    now destruct (Z.of_nat (S (List.length items))) eqn:E.
  - subst v. unfold rendering.
    cbn [getProp String.eqb Ascii.eqb Bool.eqb].
    destruct items as [|x items]; [discriminate|].
    cbn [List.length]. rewrite H0.
    now destruct (Z.of_nat (S (List.length items))) eqn:E.
  - now subst v.
  - now subst v.
  - subst v. unfold rendering. cbn [getProp].
    destruct (lookup "length" props) as [| | | z | | | |] eqn:E;
      try reflexivity.
    destruct z; try reflexivity. now elim H0.
  - subst v. unfold rendering. cbn [getProp].
    destruct (lookup "length" props) as [| | | z | | | |] eqn:E;
      try reflexivity.
    destruct z; try reflexivity. now elim H0.
Qed.

Lemma listing_of_json_body_witness :
  (table (snd (loadReservations (platformWith nullItemServer true)
                 (listingWorld (lit "json"))))
   = clearedTable
   /\ messages (snd (loadReservations (platformWith nullItemServer true)
                       (listingWorld (lit "json"))))
      = [loadFailure])
  /\ (table (snd (loadReservations (platformWith twoRecordServer true)
                    (listingWorld (lit "json"))))
      = listed (platformWith twoRecordServer true)
          [withId (VNum 3); withId (VStr (lit "10"))]
      /\ messages (snd (loadReservations (platformWith twoRecordServer true)
                          (listingWorld (lit "json"))))
         = []).
Proof.
  split.
  - exact (proj1 (proj2
      (@listing_of_json_body (platformWith nullItemServer true)
         (listingWorld (lit "json")) (API_BASE ++ lit "?format=json")
         {| status := 200; text := lit "[null]"; json := inr (VArr [VNull]) |}
         (VArr [VNull]) eq_refl eq_refl eq_refl eq_refl))
      [VNull] eq_refl eq_refl).
  - exact (proj1
      (@listing_of_json_body (platformWith twoRecordServer true)
         (listingWorld (lit "json")) (API_BASE ++ lit "?format=json")
         {| status := 500; text := lit "[]";
            json := inr (VArr [withId (VNum 3); withId (VStr (lit "10"))]) |}
         (VArr [withId (VNum 3); withId (VStr (lit "10"))])
         eq_refl eq_refl eq_refl eq_refl)
      [withId (VNum 3); withId (VStr (lit "10"))] eq_refl eq_refl eq_refl).
Defined.

(** An XML listing never reports a failure once a response has arrived,
    whatever its status and its body.  When the ids and the guest counts
    that the reservation elements of the body hold are within the safe
    range, the table shows those elements in descending order of id, or
    the text for an empty list when the parser finds none. *)
Theorem listing_of_xml_body P w u r :
  listUrl P (dom w) = Some u ->
  JS.eqb (dom w "responseFormat") (lit "xml") = true ->
  fetchOutcome P (requests w ++ [getRequest u]) = Responded r ->
  let elements :=
    XML.documentElementsByTagName (domParser P (text r)) (lit "reservation") in
  messages (snd (loadReservations P w)) = messages w
  /\ (forallb plainRecord (map readReservation elements) = true ->
      table (snd (loadReservations P w))
      = listed P (map readReservation elements))
  /\ (elements = [] ->
      table (snd (loadReservations P w))
      = {| markup := emptyMarkup; rows := [] |}).
Proof.
  intros Hu Hx Hf elements. subst elements.
  rewrite loadReservations_eval. cbn [snd].
  unfold listing. rewrite Hu. cbv zeta. rewrite Hf. unfold listBody.
  rewrite Hx, rendering_objects by apply readReservation_not_null.
  split; [reflexivity|]. split; [reflexivity|].
  intros ->. reflexivity.
Qed.

Lemma listing_of_xml_body_witness :
  messages (snd (loadReservations (platformWith xmlErrorServer true)
                   (listingWorld (lit "xml"))))
  = []
  /\ table (snd (loadReservations (platformWith xmlErrorServer true)
                   (listingWorld (lit "xml"))))
     = {| markup := emptyMarkup; rows := [] |}.
Proof.
  destruct (@listing_of_xml_body (platformWith xmlErrorServer true)
              (listingWorld (lit "xml")) (API_BASE ++ lit "?format=xml")
              {| status := 500;
                 text := lit "<error>Internal Server Error</error>";
                 json := inl (lit "Unexpected token '<'") |}
              eq_refl eq_refl eq_refl) as (Hm & Ht & _).
  exact (conj Hm (Ht eq_refl)).
Defined.

(** The table is left as it was, under the failure message, in three
    cases: the search term cannot be encoded, the request fails in the
    network, or the body of a JSON listing cannot be parsed. *)
Theorem listing_failure_keeps_table P w :
  listUrl P (dom w) = None
  \/ (exists u, listUrl P (dom w) = Some u
        /\ ((exists m, fetchOutcome P (requests w ++ [getRequest u])
                       = NetworkError m)
            \/ (exists r m,
                   fetchOutcome P (requests w ++ [getRequest u]) = Responded r
                   /\ JS.eqb (dom w "responseFormat") (lit "xml") = false
                   /\ json r = inl m))) ->
  table (snd (loadReservations P w)) = table w
  /\ messages (snd (loadReservations P w)) = messages w ++ [loadFailure].
Proof.
  rewrite loadReservations_eval. cbn [snd]. unfold listing.
  intros [->|(u & -> & [(m & ->)|(r & m & -> & Hx & Hj)])]; cbv zeta.
  - now split.
  - now split.
  - unfold listBody. rewrite Hx, Hj. now split.
Qed.

Lemma listing_failure_keeps_table_witness :
  table (snd (loadReservations
                (unencodable (platformWith emptyListServer true))
                (withDom (assign "searchInput" [55296%N]
                            (dom (listingWorld (lit "json"))))
                   (listingWorld (lit "json")))))
  = table (listingWorld (lit "json")).
Proof.
  exact (proj1 (@listing_failure_keeps_table
                  (unencodable (platformWith emptyListServer true))
                  (withDom (assign "searchInput" [55296%N]
                              (dom (listingWorld (lit "json"))))
                     (listingWorld (lit "json")))
                  (or_introl eq_refl))).
Defined.

(** ** Submissions that pass validation *)

Lemma submitRequest_shape format w :
  method (submitRequest format w)
  = (if editMode w then lit "PUT" else lit "POST")
  /\ url (submitRequest format w)
     = API_BASE
       ++ (if editMode w
           then lit "/" ++ toString (ofNullable (currentEditId w)) else [])
       ++ (if JS.eqb format (lit "xml") then lit "?format=xml" else [])
  /\ contentType (submitRequest format w)
     = Some (if JS.eqb format (lit "xml")
             then lit "application/xml" else lit "application/json")
  /\ body (submitRequest format w)
     = (if JS.eqb format (lit "xml")
        then XmlBody (xmlBody (getFormData (dom w)))
        else JsonBody (getFormData (dom w))).
Proof.
  unfold submitRequest.
  destruct (JS.eqb format (lit "xml")), (editMode w); cbn [method url contentType body];
    repeat split; rewrite ?app_nil_r, <- ?app_assoc; reflexivity.
Qed.

(** A form that passes validation is sent once: the request is a PUT to
    the address of the record under edit in edit mode and a POST to the
    base address otherwise; the format [xml] adds [?format=xml] and sends
    the XML document, every other format sends the record as JSON; at
    most one more request follows, the listing after a success. *)
Theorem valid_form_is_sent_once P format w :
  fst (validateForms P w) = Return true ->
  (exists more,
      requests (snd (submitReservation P format w))
      = requests w ++ submitRequest format w :: more
      /\ (List.length more <= 1)%nat)
  /\ method (submitRequest format w)
     = (if editMode w then lit "PUT" else lit "POST")
  /\ url (submitRequest format w)
     = API_BASE
       ++ (if editMode w
           then lit "/" ++ toString (ofNullable (currentEditId w)) else [])
       ++ (if JS.eqb format (lit "xml") then lit "?format=xml" else [])
  /\ contentType (submitRequest format w)
     = Some (if JS.eqb format (lit "xml")
             then lit "application/xml" else lit "application/json")
  /\ body (submitRequest format w)
     = (if JS.eqb format (lit "xml")
        then XmlBody (xmlBody (getFormData (dom w)))
        else JsonBody (getFormData (dom w))).
Proof.
  intros Hv. apply validForm_of_verdict in Hv.
  split; [|apply submitRequest_shape].
  rewrite submitReservation_eval by exact Hv. cbv zeta.
  destruct (fetchOutcome P _) as [m|r].
  - exists []. split; [reflexivity|cbn; lia].
  - destruct (ok r).
    + rewrite loadReservations_eval. cbn [snd].
      match goal with |- context [listing P ?x] =>
        destruct (listing_frame P x) as (Hr & _ & _ & _); rewrite Hr;
        exists (match listUrl P (dom x) with
                | Some u => [getRequest u] | None => [] end) end.
      split.
      * cbn [requests resetForms modify snd withSession withDom shown
               withMessages requested withRequests warned].
        now rewrite <- app_assoc.
      * destruct (listUrl P _); cbn; lia.
    + exists []. split; [reflexivity|cbn; lia].
Qed.

Lemma valid_form_is_sent_once_witness :
  exists more,
    requests (snd (submitReservation (platformWith emptyListServer true)
                     (lit "xml") (blankWorld completeForm)))
    = submitRequest (lit "xml") (blankWorld completeForm) :: more
    /\ (List.length more <= 1)%nat.
Proof.
  exact (proj1 (@valid_form_is_sent_once (platformWith emptyListServer true)
                  (lit "xml") (blankWorld completeForm) eq_refl)).
Defined.

(** A submission that the server refuses, or that fails in the network,
    changes nothing but the messages: the warnings of validation and one
    error that names the mode and carries the reason, [HTTP], the status
    and the body for a refusal.  The inputs, the edit session and the
    table are as before, and no other request is sent. *)
Theorem refused_submission_changes_nothing P format w reason :
  fst (validateForms P w) = Return true ->
  fetchOutcome P (requests w ++ [submitRequest format w]) = NetworkError reason
  \/ (exists r,
         fetchOutcome P (requests w ++ [submitRequest format w]) = Responded r
         /\ ok r = false
         /\ reason = lit "HTTP " ++ numberToString (status r) ++ lit ": "
                     ++ text r) ->
  let w' := snd (submitReservation P format w) in
  fst (submitReservation P format w) = Return tt
  /\ requests w' = requests w ++ [submitRequest format w]
  /\ messages w'
     = messages w ++ warningsOf P (dom w)
       ++ [(error, icons error ++ lit " " ++ [10060%N] ++ lit " Failed to "
                   ++ (if editMode w then lit "update" else lit "create")
                   ++ lit " reservation: " ++ reason)]
  /\ dom w' = dom w /\ sessionOf w' = sessionOf w /\ table w' = table w.
Proof.
  intros Hv Hf w'. subst w'. apply validForm_of_verdict in Hv.
  rewrite submitReservation_eval by exact Hv. cbv zeta.
  destruct Hf as [->|(r & -> & -> & ->)].
  - cbn. rewrite <- app_assoc. now repeat split.
  - cbn. rewrite <- app_assoc. now repeat split.
Qed.

Lemma refused_submission_changes_nothing_witness :
  messages (snd (submitReservation (platformWith refusingServer true)
                   (lit "json") (blankWorld completeForm)))
  = [(error, icons error ++ lit " " ++ [10060%N]
             ++ lit " Failed to create reservation: "
             ++ lit "HTTP 422: guests must be positive")].
Proof.
  exact (proj1 (proj2 (proj2
    (@refused_submission_changes_nothing (platformWith refusingServer true)
       (lit "json") (blankWorld completeForm) _ eq_refl
       (or_intror (ex_intro _
          {| status := 422; text := lit "guests must be positive";
             json := inl (lit "Unexpected token") |}
          (conj eq_refl (conj eq_refl eq_refl)))))))).
Defined.

(** An accepted submission shows a success that says [created], or
    [updated] with the id of the record that was under edit, resets the
    inputs with the country back to Philippines, leaves edit mode and
    then lists the reservations with the inputs as reset. *)
Theorem accepted_submission_resets P format w r :
  fst (validateForms P w) = Return true ->
  fetchOutcome P (requests w ++ [submitRequest format w]) = Responded r ->
  ok r = true ->
  let w' := snd (submitReservation P format w) in
  fst (submitReservation P format w) = Return tt
  /\ sessionOf w' = (false, None)
  /\ dom w' = assign "country" (sanitize P "country" (lit "Philippines"))
                (resetValues P (dom w))
  /\ (exists more,
         messages w'
         = messages w ++ warningsOf P (dom w)
           ++ (success,
               icons success ++ lit " "
               ++ (if editMode w
                   then [9989%N] ++ lit " Reservation #"
                        ++ toString (ofNullable (currentEditId w))
                        ++ lit " updated successfully!"
                   else [9989%N] ++ lit " Reservation created successfully!"))
              :: more)
  /\ requests w'
     = requests w ++ submitRequest format w
       :: match listUrl P (dom w') with
          | Some u => [getRequest u]
          | None => []
          end.
Proof.
  intros Hv Hf Hok w'. subst w'. apply validForm_of_verdict in Hv.
  rewrite submitReservation_eval by exact Hv. cbv zeta.
  rewrite Hf, Hok. rewrite loadReservations_eval. cbn [fst snd].
  match goal with |- context [listing P ?x] =>
    destruct (listing_frame P x) as (Hr & Hd & Hs & more & Hm) end.
  rewrite Hr, Hd, Hs, Hm. repeat split.
  - exists more. cbn. now rewrite <- !app_assoc.
  - cbn. now rewrite <- app_assoc.
Qed.

Lemma accepted_submission_resets_witness :
  sessionOf (snd (submitReservation (platformWith emptyListServer true)
                    (lit "json") (blankWorld completeForm)))
  = (false, None).
Proof.
  exact (proj1 (proj2
    (@accepted_submission_resets (platformWith emptyListServer true)
       (lit "json") (blankWorld completeForm)
       {| status := 200; text := lit "[]"; json := inr (VArr []) |}
       eq_refl eq_refl eq_refl))).
Defined.

(** ** Editing *)

Lemma prop_not_null v k :
  isNullish v = false -> prop v k = ret (field v k).
Proof. intros H. unfold prop, field. now destruct v. Qed.

Lemma prop_null v k :
  isNullish v = true
  -> prop v k = throw (Native "TypeError: cannot read properties of null").
Proof. intros H. unfold prop. now destruct v. Qed.

Lemma fill_eval P v k d w :
  isNullish v = false ->
  fill P v k d w
  = (Return tt,
     withDom (assign k (sanitize P k (toString (or_else (field v k) d)))
                (dom w)) w).
Proof. intros H. unfold fill. now rewrite prop_not_null. Qed.

Lemma editReservation_eval P id w :
  editReservation P id w = (Return tt, edited P id w).
Proof.
  unfold editReservation, edited, tryCatch, bind at 1, fetch.
  cbn [requests withRequests]. fold (editRequest id). cbv zeta.
  destruct (fetchOutcome P _) as [m|r]; [reflexivity|].
  destruct (ok r); cbn [negb]; [|reflexivity].
  unfold bind at 1, readJson. destruct (json r) as [m|v]; [reflexivity|].
  unfold ret at 1. destruct (isNullish v) eqn:Hn.
  - unfold bind at 1, fill at 1. rewrite prop_null by exact Hn. reflexivity.
  - repeat (unfold bind at 1; rewrite fill_eval by exact Hn).
    reflexivity.
Qed.



(** An edit always asks for the record with a GET to its address, with
    no format in it, whatever the format chosen on the page.  When the
    request fails in the network, the status is not a success, the body
    is not JSON or the body is null, the inputs, the edit session and the
    table are as before and the failure message names the id. *)
Theorem failed_edit_changes_nothing P id w :
  (exists m, fetchOutcome P (requests w ++ [editRequest id]) = NetworkError m)
  \/ (exists r,
         fetchOutcome P (requests w ++ [editRequest id]) = Responded r
         /\ (ok r = false
             \/ (exists m, json r = inl m)
             \/ json r = inr VNull)) ->
  editReservation P id w
  = (Return tt,
     shown error
       ([10060%N] ++ lit " Failed to load reservation #" ++ id
        ++ lit " for editing")
       (requested
          {| method := lit "GET"; url := API_BASE ++ lit "/" ++ id;
             contentType := None; body := NoBody |} w)).
Proof.
  rewrite editReservation_eval. unfold edited. cbv zeta.
  intros [(m & ->)|(r & -> & [->|[(m & Hj)|Hj]])]; try reflexivity.
  - rewrite Hj. now destruct (ok r).
  - rewrite Hj. now destruct (ok r).
Qed.

Lemma failed_edit_changes_nothing_witness :
  editReservation (platformWith offline true) (lit "7")
    (listingWorld (lit "xml"))
  = (Return tt,
     shown error
       ([10060%N] ++ lit " Failed to load reservation #" ++ lit "7"
        ++ lit " for editing")
       (requested
          {| method := lit "GET"; url := API_BASE ++ lit "/" ++ lit "7";
             contentType := None; body := NoBody |}
          (listingWorld (lit "xml")))).
Proof.
  exact (@failed_edit_changes_nothing (platformWith offline true) (lit "7")
           (listingWorld (lit "xml"))
           (or_introl (ex_intro _ (lit "Failed to fetch") eq_refl))).
Defined.



(** ** Deleting *)

Lemma deleteReservation_frame P id w :
  dom (snd (deleteReservation P id w)) = dom w
  /\ sessionOf (snd (deleteReservation P id w)) = sessionOf w.
Proof.
  apply (@keeps_deleteReservation
           (fun x => dom x = dom w /\ sessionOf x = sessionOf w)); auto.
Qed.

(** A deletion never writes to the inputs or to the edit session, also
    when the record deleted is the one under edit.  An accepted deletion
    shows the success with the id and then lists the reservations; one
    that fails in the network shows the failure with the reason and
    leaves the table as it was. *)
Theorem deletion_outcomes P id w :
  (dom (snd (deleteReservation P id w)) = dom w
   /\ sessionOf (snd (deleteReservation P id w)) = sessionOf w)
  /\ (confirmAnswer P (confirmPrompt id) = true ->
      (forall r,
          fetchOutcome P (requests w ++ [deleteRequest id]) = Responded r ->
          ok r = true ->
          deleteReservation P id w
          = loadReservations P
              (shown success
                 ([9989%N] ++ lit " Reservation #" ++ id
                  ++ lit " deleted successfully")
                 (requested (deleteRequest id) w)))
      /\ (forall m,
             fetchOutcome P (requests w ++ [deleteRequest id])
             = NetworkError m ->
             deleteReservation P id w
             = (Return tt,
                shown error (deleteFailed id m)
                  (requested (deleteRequest id) w)))).
Proof.
  split; [apply deleteReservation_frame|].
  intros Hc. unfold deleteReservation. rewrite Hc. cbn [negb].
  split.
  - unfold tryCatch, bind at 1, fetch. cbn [requests withRequests].
    fold (deleteRequest id).
    intros r -> ->. unfold bind, showMessage at 1, modify at 1.
    match goal with |- _ = loadReservations P ?y =>
      rewrite (loadReservations_pair P y) end.
    match goal with |- context [let (_, _) := loadReservations P ?x in _] =>
      rewrite (loadReservations_pair P x) end.
    reflexivity.
  - unfold tryCatch, bind at 1, fetch. cbn [requests withRequests].
    fold (deleteRequest id). intros m ->. reflexivity.
Qed.

Lemma deletion_outcomes_witness :
  deleteReservation (platformWith offline true) (lit "7")
    (listingWorld (lit "json"))
  = (Return tt,
     shown error (deleteFailed (lit "7") (lit "Failed to fetch"))
       (requested (deleteRequest (lit "7")) (listingWorld (lit "json")))).
Proof.
  exact (proj2 (proj2 (@deletion_outcomes (platformWith offline true)
                         (lit "7") (listingWorld (lit "json"))) eq_refl)
           (lit "Failed to fetch") eq_refl).
Defined.

(** ** The one failure that escapes a handler *)

Lemma checkinChange_state P w :
  snd (checkinChange P w) = onCheckinChange P w.
Proof.
  unfold checkinChange, onCheckinChange, bind, get. cbv zeta.
  destruct (isEmpty (dom w "checkin_date")); [reflexivity|].
  destruct (dateOfString (legacyDate P) (dom w "checkin_date"));
    [|reflexivity].
  now destruct (negb (isEmpty (dom w "checkout_date")) && strLt _ _).
Qed.

Lemma handle_returns P e w :
  e <> CheckinChange -> fst (handle P e w) = Return tt.
Proof.
  intros He. destruct e; cbn [handle]; try (now elim He).
  - apply loadReservations_returns.
  - unfold submitReservation, bind at 1. rewrite validateForms_eval.
    destruct (validForm P (dom w)); [|reflexivity].
    cbn [negb]. unfold bind at 1, get at 1.
    now apply tryCatch_returns.
  - reflexivity.
  - unfold editReservation. now apply tryCatch_returns.
  - unfold deleteReservation.
    destruct (confirmAnswer P (confirmPrompt id)); [|reflexivity].
    now apply tryCatch_returns.
  - apply loadReservations_returns.
  - reflexivity.
  - unfold refresh, bind, modify. apply loadReservations_returns.
  - reflexivity.
Qed.

(** Every handler but one ends normally, whatever the server, the user
    and the browser do: a failure ends as a message on the page.  The
    exception is the listener of the change of the check-in date, which
    nothing guards: on a value that is not empty and is not a date it
    ends with a RangeError, and leaves the state as it was; on every
    other value it ends normally too. *)
Theorem handlers_end_normally_but_for_an_undated_checkin P e w :
  fst (handle P e w)
  = match e with
    | CheckinChange =>
        if isEmpty (dom w "checkin_date") then Return tt
        else match dateOfString (legacyDate P) (dom w "checkin_date") with
             | None => Throw (Native "RangeError: Invalid time value")
             | Some _ => Return tt
             end
    | _ => Return tt
    end
  /\ (fst (handle P e w) <> Return tt ->
      e = CheckinChange /\ snd (handle P e w) = w).
Proof.
  assert (Hc : fst (checkinChange P w)
               = if isEmpty (dom w "checkin_date") then Return tt
                 else match dateOfString (legacyDate P)
                              (dom w "checkin_date") with
                      | None => Throw (Native "RangeError: Invalid time value")
                      | Some _ => Return tt
                      end).
  { unfold checkinChange, bind, get. cbv zeta.
    destruct (isEmpty (dom w "checkin_date")); [reflexivity|].
    destruct (dateOfString (legacyDate P) (dom w "checkin_date"));
      [|reflexivity].
    now destruct (negb (isEmpty (dom w "checkout_date")) && strLt _ _). }
  split.
  - destruct e; try (apply handle_returns; discriminate). exact Hc.
  - intros Hne. destruct e;
      try (exfalso; apply Hne; apply handle_returns; discriminate).
    split; [reflexivity|]. cbn [handle] in *. rewrite Hc in Hne.
    unfold checkinChange, bind, get. cbv zeta.
    destruct (isEmpty (dom w "checkin_date")); [now elim Hne|].
    destruct (dateOfString (legacyDate P) (dom w "checkin_date"));
      [now elim Hne|reflexivity].
Qed.

Lemma handlers_end_normally_but_for_an_undated_checkin_witness :
  fst (handle (platformWith emptyListServer true) CheckinChange undatedWorld)
  = Throw (Native "RangeError: Invalid time value")
  /\ snd (handle (platformWith emptyListServer true) CheckinChange
            undatedWorld)
     = undatedWorld.
Proof.
  destruct (handlers_end_normally_but_for_an_undated_checkin
              (platformWith emptyListServer true) CheckinChange undatedWorld)
    as (Hf & Hs).
  refine (conj Hf (proj2 (Hs _))).
  rewrite Hf. discriminate.
Defined.

(** ** The order of the rows *)

Lemma insertSorted_filter (k : Z) x l :
  filter (fun v => idNumber v =? k) (insertSorted byIdDescending x l)
  = filter (fun v => idNumber v =? k) (x :: l).
Proof.
  induction l as [|y l IH]; [reflexivity|].
  cbn [insertSorted]. unfold byIdDescending at 1.
  destruct (Z.leb_spec (idNumber y - idNumber x) 0) as [Hle|Hgt];
    [reflexivity|].
  cbn [filter] in *. rewrite IH.
  destruct (Z.eqb_spec (idNumber x) k) as [Hx|Hx];
    destruct (Z.eqb_spec (idNumber y) k) as [Hy|Hy]; try reflexivity.
  lia.
Qed.

(** The sort is stable: the records that have the same id number, among
    them all those whose id is missing or is not a number, keep the order
    in which the response lists them. *)
Theorem sort_keeps_response_order_of_equal_ids (l : list Value) (k : Z) :
  filter (fun v => idNumber v =? k) (sort byIdDescending l)
  = filter (fun v => idNumber v =? k) l.
Proof.
  induction l as [|x l IH]; [reflexivity|].
  cbn [sort fold_right]. fold (sort byIdDescending l).
  rewrite insertSorted_filter. cbn [filter]. now rewrite IH.
Qed.

(** ** Escaping loses nothing *)

Lemma xmlEntity_cases c :
  (c = 38%N /\ xmlEntity c = lit "&amp;")
  \/ (c = 60%N /\ xmlEntity c = lit "&lt;")
  \/ (c = 62%N /\ xmlEntity c = lit "&gt;")
  \/ (c = 34%N /\ xmlEntity c = lit "&quot;")
  \/ (c = 39%N /\ xmlEntity c = lit "&apos;")
  \/ (c <> 38%N /\ xmlEntity c = [c]).
Proof.
  unfold xmlEntity.
  destruct (N.eqb_spec c 38); [tauto|].
  destruct (N.eqb_spec c 60); [tauto|].
  destruct (N.eqb_spec c 62); [tauto|].
  destruct (N.eqb_spec c 34); [tauto|].
  destruct (N.eqb_spec c 39); [tauto|].
  repeat right. now split.
Qed.

Lemma entities_injective (a b : JSString) :
  flat_map xmlEntity a = flat_map xmlEntity b -> a = b.
Proof.
  revert b. induction a as [|x a IH]; intros [|y b] H.
  - reflexivity.
  - cbn [flat_map] in H.
    destruct (xmlEntity_cases y) as [(_ & E)|[(_ & E)|[(_ & E)|[(_ & E)|[(_ & E)|(_ & E)]]]]];
      rewrite E in H; discriminate.
  - cbn [flat_map] in H.
    destruct (xmlEntity_cases x) as [(_ & E)|[(_ & E)|[(_ & E)|[(_ & E)|[(_ & E)|(_ & E)]]]]];
      rewrite E in H; discriminate.
  - cbn [flat_map] in H.
    destruct (xmlEntity_cases x) as [(Hx & Ex)|[(Hx & Ex)|[(Hx & Ex)|[(Hx & Ex)|[(Hx & Ex)|(Hx & Ex)]]]]];
      destruct (xmlEntity_cases y) as [(Hy & Ey)|[(Hy & Ey)|[(Hy & Ey)|[(Hy & Ey)|[(Hy & Ey)|(Hy & Ey)]]]]];
      rewrite Ex, Ey in H; vm_compute lit in H; cbn [app] in H;
      try discriminate;
      try (injection H as H; subst; f_equal; now apply IH);
      try (injection H as H0 H; congruence).
Qed.

(** [escapeXml] loses nothing: two texts with the same escaped form are
    the same text, so that a reader which resolves the five references
    gets every value back. *)
Theorem escapeXml_injective (a b : JSString) :
  escapeXml a = escapeXml b -> a = b.
Proof. rewrite !escapeXml_entities. apply entities_injective. Qed.

Lemma escapeXml_injective_witness :
  lit "a&b" = lit "a&b".
Proof. exact (@escapeXml_injective (lit "a&b") (lit "a&b") eq_refl). Defined.

(** ** The change of the check-in date *)

Lemma digitZ_Some c a :
  digitZ c = Some a -> a = Z.of_N c - 48 /\ (48 <= c <= 57)%N.
Proof.
  unfold digitZ, isDigit.
  destruct (N.leb_spec 48 c), (N.leb_spec c 57); cbn; try discriminate.
  intros [= <-]. split; [reflexivity|lia].
Qed.

Lemma strLt_cons x y a b :
  strLt (x :: a) (y :: b)
  = (x <? y)%N || ((x =? y)%N && strLt a b).
Proof.
  cbn [strLt]. destruct (x <? y)%N; [reflexivity|].
  now destruct (x =? y)%N.
Qed.

#[local] Ltac decide_calendar :=
  repeat (match goal with
          | |- context [(?x <? ?y)%Z] => destruct (Z.ltb_spec x y)
          | |- context [(?x =? ?y)%Z] => destruct (Z.eqb_spec x y)
          | |- context [(?x <=? ?y)%Z] => destruct (Z.leb_spec x y)
          end; cbn [andb orb negb]);
  try reflexivity; exfalso; lia.

#[local] Ltac position :=
  rewrite strLt_cons;
  match goal with
  | |- context [(?x <? ?y)%N] =>
      let H := fresh "H" in
      destruct (N.lt_trichotomy x y) as [H|[H|H]];
      [ rewrite (proj2 (N.ltb_lt x y) H); cbn [orb]; decide_calendar
      | subst; rewrite N.ltb_irrefl, N.eqb_refl; cbn [orb andb]
      | rewrite (proj2 (N.ltb_ge x y) (N.lt_le_incl _ _ H)),
          (proj2 (N.eqb_neq x y) (N.neq_sym _ _ (N.lt_neq _ _ H)));
        cbn [orb andb]; decide_calendar ]
  end.

(** On two dates written [YYYY-MM-DD], the order of the strings is the
    order of the calendar. *)
Lemma strLt_iso a b ca cb :
  parseIsoDate a = Some ca -> parseIsoDate b = Some cb ->
  strLt a b = negb (calendarLe cb ca).
Proof.
  unfold parseIsoDate.
  destruct a as [|a1 [|a2 [|a3 [|a4 [|a5 [|a6 [|a7 [|a8 [|a9 [|a10 [|? ?]]]]]]]]]]];
    try discriminate.
  destruct b as [|b1 [|b2 [|b3 [|b4 [|b5 [|b6 [|b7 [|b8 [|b9 [|b10 [|? ?]]]]]]]]]]];
    try (intros _; discriminate).
  destruct (digitZ a1) as [p1|] eqn:A1; [|discriminate].
  destruct (digitZ a2) as [p2|] eqn:A2; [|discriminate].
  destruct (digitZ a3) as [p3|] eqn:A3; [|discriminate].
  destruct (digitZ a4) as [p4|] eqn:A4; [|discriminate].
  destruct (digitZ a6) as [p6|] eqn:A6; [|discriminate].
  destruct (digitZ a7) as [p7|] eqn:A7; [|discriminate].
  destruct (digitZ a9) as [p9|] eqn:A9; [|discriminate].
  destruct (digitZ a10) as [p10|] eqn:A10; [|discriminate].
  destruct (digitZ b1) as [q1|] eqn:B1; [|intros _; discriminate].
  destruct (digitZ b2) as [q2|] eqn:B2; [|intros _; discriminate].
  destruct (digitZ b3) as [q3|] eqn:B3; [|intros _; discriminate].
  destruct (digitZ b4) as [q4|] eqn:B4; [|intros _; discriminate].
  destruct (digitZ b6) as [q6|] eqn:B6; [|intros _; discriminate].
  destruct (digitZ b7) as [q7|] eqn:B7; [|intros _; discriminate].
  destruct (digitZ b9) as [q9|] eqn:B9; [|intros _; discriminate].
  destruct (digitZ b10) as [q10|] eqn:B10; [|intros _; discriminate].
  cbv zeta.
  destruct (N.eqb_spec a5 45) as [->|]; [|discriminate].
  destruct (N.eqb_spec a8 45) as [->|]; [|discriminate].
  destruct (N.eqb_spec b5 45) as [->|]; [|intros _; discriminate].
  destruct (N.eqb_spec b8 45) as [->|]; [|intros _; discriminate].
  cbn [andb].
  match goal with |- (if ?c then _ else _) = _ -> _ =>
    destruct c; [|discriminate] end.
  intros Ea.
  match goal with |- (if ?c then _ else _) = _ -> _ =>
    destruct c; [|discriminate] end.
  intros Eb.
  assert (Ha : ca = (1000 * p1 + 100 * p2 + 10 * p3 + p4,
                     10 * p6 + p7, 10 * p9 + p10)) by congruence.
  assert (Hb : cb = (1000 * q1 + 100 * q2 + 10 * q3 + q4,
                     10 * q6 + q7, 10 * q9 + q10)) by congruence.
  clear Ea Eb. subst ca cb.
  apply digitZ_Some in A1 as (-> & ?), A2 as (-> & ?), A3 as (-> & ?),
    A4 as (-> & ?), A6 as (-> & ?), A7 as (-> & ?), A9 as (-> & ?),
    A10 as (-> & ?), B1 as (-> & ?), B2 as (-> & ?), B3 as (-> & ?),
    B4 as (-> & ?), B6 as (-> & ?), B7 as (-> & ?), B9 as (-> & ?),
    B10 as (-> & ?).
  unfold calendarLe.
  position. position. position. position.
  rewrite strLt_cons, N.ltb_irrefl, N.eqb_refl. cbn [orb andb].
  position. position.
  rewrite strLt_cons, N.ltb_irrefl, N.eqb_refl. cbn [orb andb].
  position. position.
  cbn [strLt]. decide_calendar.
Qed.

Lemma parseIsoDate_nonempty s c : parseIsoDate s = Some c -> isEmpty s = false.
Proof. destruct s; [discriminate|reflexivity]. Qed.

Lemma calendarLe_refl c : validDate c -> calendarLe c c = true.
Proof.
  destruct c as [[y m] d]. intros _. unfold calendarLe.
  rewrite !Z.eqb_refl, Z.leb_refl. cbn. now rewrite !orb_true_r.
Qed.

(** When the check-in date changes, a check-out date that lies before it
    in the calendar is cleared, and one on the same day or later is kept.
    A check-out on the day of the check-in is therefore left in the form,
    although validation refuses it. *)
Theorem checkin_change_clears_earlier_checkout P w ci co :
  parseIsoDate (dom w "checkin_date") = Some ci ->
  parseIsoDate (dom w "checkout_date") = Some co ->
  onCheckinChange P w
  = (if calendarLe ci co then w
     else withDom (assign "checkout_date" (sanitize P "checkout_date" [])
                     (dom w)) w)
  /\ (ci = co ->
      onCheckinChange P w = w /\ fst (validateForms P w) = Return false).
Proof.
  intros Hi Ho.
  assert (Hrun : onCheckinChange P w
                 = (if calendarLe ci co then w
                    else withDom (assign "checkout_date"
                                    (sanitize P "checkout_date" [])
                                    (dom w)) w)).
  { unfold onCheckinChange. cbv zeta.
    rewrite (parseIsoDate_nonempty _ Hi), (parseIsoDate_nonempty _ Ho).
    unfold dateOfString. rewrite Hi. destruct ci as [[y m] d].
    rewrite (strLt_iso _ _ Ho Hi). cbn [negb andb].
    now destruct (calendarLe (y, m, d) co). }
  split; [exact Hrun|]. intros <-.
  pose proof (parseIsoDate_valid _ Hi) as Hv.
  split; [now rewrite Hrun, calendarLe_refl|].
  rewrite validateForms_eval. cbn [fst]. unfold validForm.
  destruct (firstEmpty (dom w) requiredFields); [reflexivity|].
  unfold datesOutOfOrder, dateOfString.
  rewrite (parseIsoDate_nonempty _ Hi), (parseIsoDate_nonempty _ Ho), Hi, Ho.
  pose proof (utcMidnight_le ci ci Hv Hv) as Hle.
  destruct ci as [[y m] d]. unfold dateLe. rewrite Hle, calendarLe_refl by exact Hv.
  cbn. now rewrite andb_false_r.
Qed.

Lemma checkin_change_clears_earlier_checkout_witness :
  dom (onCheckinChange (platformWith emptyListServer true)
         (blankWorld backwardForm)) "checkout_date"
  = [].
Proof.
  exact (f_equal (fun x => dom x "checkout_date")
           (proj1 (@checkin_change_clears_earlier_checkout
                     (platformWith emptyListServer true)
                     (blankWorld backwardForm) (2030, 1, 10)%Z (2030, 1, 9)%Z
                     eq_refl eq_refl))).
Defined.

(** ** The display of an XML document *)

Lemma feed_app st a b :
  feed st (a ++ b)
  = match feed st a with
    | Some st' => feed st' b
    | None => None
    end.
Proof.
  revert st. induction a as [|c a IH]; intros st; [reflexivity|].
  cbn [app feed]. destruct st as [piece|piece ws].
  - destruct (c =? 62)%N; apply IH.
  - destruct (c =? 60)%N; [reflexivity|].
    destruct (isWhiteSpace c); [apply IH|].
    destruct (c =? 62)%N; apply IH.
Qed.

Lemma feed_content st s st' :
  feed st s = Some st' -> content st' = content st ++ s.
Proof.
  revert st. induction s as [|c s IH]; intros st H.
  - cbn in H. injection H as <-. now rewrite app_nil_r.
  - cbn [feed] in H. destruct st as [piece|piece ws].
    + destruct (N.eqb_spec c 62) as [->|_]; apply IH in H; rewrite H;
        cbn [content]; rewrite <- ?app_assoc; reflexivity.
    + destruct (c =? 60)%N; [discriminate|].
      destruct (isWhiteSpace c).
      * apply IH in H. rewrite H. cbn [content].
        rewrite <- ?app_assoc. cbn [app]. now rewrite <- ?app_assoc.
      * destruct (N.eqb_spec c 62) as [->|_]; apply IH in H; rewrite H;
          cbn [content]; rewrite <- ?app_assoc; cbn [app];
          rewrite <- ?app_assoc; reflexivity.
Qed.

Lemma splitTags_feed st s st' rest :
  feed st s = Some st' -> splitTags st (s ++ rest) = splitTags st' rest.
Proof.
  revert st. induction s as [|c s IH]; intros st H.
  - cbn in H. now injection H as <-.
  - cbn [feed] in H. cbn [app splitTags]. destruct st as [piece|piece ws].
    + destruct (c =? 62)%N; now apply IH.
    + destruct (c =? 60)%N; [discriminate|].
      destruct (isWhiteSpace c); [now apply IH|].
      destruct (c =? 62)%N; now apply IH.
Qed.

Lemma whitespace_not_bracket c :
  isWhiteSpace c = true -> (c =? 60)%N = false /\ (c =? 62)%N = false.
Proof.
  intros H. split.
  - destruct (N.eqb_spec c 60) as [->|]; [discriminate|reflexivity].
  - destruct (N.eqb_spec c 62) as [->|]; [discriminate|reflexivity].
Qed.

Lemma splitTags_whitespace piece ws1 ws rest :
  forallb isWhiteSpace ws = true ->
  splitTags (Pending piece ws1) (ws ++ 60%N :: rest)
  = piece :: splitTags (Scanning []) rest.
Proof.
  revert ws1. induction ws as [|c ws IH]; intros ws1 H; [reflexivity|].
  cbn [forallb] in H. apply andb_prop in H as [Hc Hws].
  cbn [app splitTags]. destruct (whitespace_not_bracket _ Hc) as [-> _].
  rewrite Hc. now apply IH.
Qed.

(** A piece without separator, then a separator. *)
Lemma splitTags_piece p ws rest :
  feed (Scanning []) p <> None ->
  forallb isWhiteSpace ws = true ->
  splitTags (Scanning []) (p ++ 62%N :: ws ++ 60%N :: rest)
  = p :: splitTags (Scanning []) rest.
Proof.
  intros Hp Hws. destruct (feed (Scanning []) p) as [st|] eqn:E;
    [clear Hp|now elim Hp].
  rewrite (@splitTags_feed _ _ _ _ E). pose proof (@feed_content _ _ _ E) as Hc.
  cbn [content app] in Hc. destruct st as [piece|piece ws1]; cbn [splitTags].
  - cbn [content] in Hc. subst piece.
    change (62 =? 62)%N with true. cbv iota.
    now apply splitTags_whitespace.
  - cbn [content] in Hc.
    change (62 =? 60)%N with false. change (isWhiteSpace 62) with false.
    change (62 =? 62)%N with true. cbv iota. rewrite Hc.
    now apply splitTags_whitespace.
Qed.

Lemma splitTags_last p :
  feed (Scanning []) p <> None -> splitTags (Scanning []) p = [p].
Proof.
  intros Hp. destruct (feed (Scanning []) p) as [st|] eqn:E;
    [clear Hp|now elim Hp].
  rewrite <- (app_nil_r p) at 1. rewrite (@splitTags_feed _ _ _ _ E).
  pose proof (@feed_content _ _ _ E) as Hc. cbn [content app] in Hc.
  destruct st; cbn [splitTags content] in *; now rewrite Hc.
Qed.

Lemma splitTags_spaced ps s :
  spaced ps s ->
  Forall (fun p => feed (Scanning []) p <> None) ps ->
  splitTags (Scanning []) s = ps.
Proof.
  induction 1 as [p|p ws ps s Hws Hs IH]; intros Hf.
  - apply splitTags_last. now inversion Hf.
  - inversion Hf as [|? ? Hp Hps]; subst.
    rewrite splitTags_piece by assumption. now rewrite IH.
Qed.

(** The pieces of a split hold no separator. *)
Lemma splitTags_pieces st s :
  feed (Scanning []) (content st) = Some st ->
  Forall (fun p => feed (Scanning []) p <> None) (splitTags st s).
Proof.
  revert st. induction s as [|c s IH]; intros st Hst.
  - cbn [splitTags].
    destruct st as [piece|piece ws]; cbn [content] in Hst;
      constructor; try constructor; now rewrite Hst.
  - assert (Hstep : forall st',
               feed st [c] = Some st' ->
               feed (Scanning []) (content st') = Some st').
    { intros st' H. rewrite (@feed_content _ _ _ H), feed_app, Hst. exact H. }
    cbn [splitTags]. destruct st as [piece|piece ws].
    + cbn [feed] in Hstep. destruct (c =? 62)%N; apply IH, Hstep; reflexivity.
    + cbn [feed] in Hstep. destruct (c =? 60)%N.
      * constructor; [|now apply IH].
        cbn [content] in Hst. rewrite feed_app in Hst.
        destruct (feed (Scanning []) piece); [discriminate|discriminate].
      * destruct (isWhiteSpace c); [apply IH, Hstep; reflexivity|].
        destruct (c =? 62)%N; apply IH, Hstep; reflexivity.
Qed.

Lemma splitTags_not_nil st s : splitTags st s <> [].
Proof.
  revert st. induction s as [|c s IH]; intros st.
  - destruct st; discriminate.
  - cbn [splitTags]. destruct st as [piece|piece ws].
    + destruct (c =? 62)%N; apply IH.
    + destruct (c =? 60)%N; [discriminate|].
      destruct (isWhiteSpace c); [apply IH|].
      destruct (c =? 62)%N; apply IH.
Qed.

Lemma tabs_whitespace n : forallb isWhiteSpace (repeat 9%N n) = true.
Proof. induction n; cbn; auto. Qed.

Lemma layout_cons indent e more :
  layout indent (e :: more)
  = repeat 9%N (if test closingTag e then pred indent else indent)
    ++ 60%N :: e ++ [62%N; 13%N; 10%N]
    ++ layout (if test openingTag e
               then S (if test closingTag e then pred indent else indent)
               else if test closingTag e then pred indent else indent) more.
Proof. reflexivity. Qed.

(** The layout of the pieces: tabs, [<], the pieces spaced, and the
    closing [>] with its line end. *)
Lemma layout_spaced indent e more :
  exists n rest,
    layout indent (e :: more)
    = repeat 9%N n ++ 60%N :: rest ++ [62%N; 13%N; 10%N]
    /\ spaced (e :: more) rest
    /\ (indent = 0%nat -> n = 0%nat).
Proof.
  revert indent e. induction more as [|e' more IH]; intros indent e.
  - exists (if test closingTag e then pred indent else indent), e.
    rewrite layout_cons. cbn [layout]. rewrite app_nil_r.
    repeat split; [constructor|].
    intros ->. now destruct (test closingTag e).
  - rewrite layout_cons.
    destruct (IH (if test openingTag e
                  then S (if test closingTag e then pred indent else indent)
                  else if test closingTag e then pred indent else indent) e')
      as (n & rest & E & Hs & _).
    rewrite E.
    exists (if test closingTag e then pred indent else indent),
      (e ++ 62%N :: ([13%N; 10%N] ++ repeat 9%N n) ++ 60%N :: rest).
    repeat split.
    + rewrite <- !app_assoc. cbn [app]. now rewrite <- !app_assoc.
    + constructor; [|exact Hs]. cbn [app forallb]. apply tabs_whitespace.
    + intros ->. now destruct (test closingTag e).
Qed.

Lemma substring_inner c rest (tail : JSString) :
  List.length tail = 3%nat ->
  substring 1 (List.length (c :: rest ++ tail) - 3) (c :: rest ++ tail) = rest.
Proof.
  intros Ht. unfold substring. cbn [List.length].
  rewrite length_app, Ht.
  replace (S (List.length rest + 3) - 3)%nat with (S (List.length rest)) by lia.
  replace (Nat.min 1 (S (List.length rest + 3))) with 1%nat by lia.
  replace (Nat.min (S (List.length rest)) (S (List.length rest + 3)))
    with (S (List.length rest)) by lia.
  replace (Nat.max 1 (S (List.length rest))) with (S (List.length rest)) by lia.
  replace (Nat.min 1 (S (List.length rest))) with 1%nat by lia.
  cbn [skipn]. replace (S (List.length rest) - 1)%nat with (List.length rest) by lia.
  rewrite firstn_app, Nat.sub_diag, firstn_all. cbn. now rewrite app_nil_r.
Qed.

Lemma formatXmlForDisplay_spaced xml :
  spaced (splitTags (Scanning []) xml) (formatXmlForDisplay xml).
Proof.
  unfold formatXmlForDisplay. cbv zeta.
  destruct (splitTags (Scanning []) xml) as [|e more] eqn:E;
    [now apply splitTags_not_nil in E|].
  destruct (layout_spaced 0 e more) as (n & rest & El & Hs & Hn).
  rewrite El, (Hn eq_refl). cbn [repeat app].
  now rewrite substring_inner.
Qed.

(** The display changes nothing but the white space between a [>] and
    the [<] that follows it: split at the same places, the text shown has
    the pieces of the document.  Formatting the text shown once more
    gives the same text. *)
Theorem formatXmlForDisplay_keeps_the_pieces (xml : JSString) :
  splitTags (Scanning []) (formatXmlForDisplay xml)
  = splitTags (Scanning []) xml
  /\ formatXmlForDisplay (formatXmlForDisplay xml) = formatXmlForDisplay xml.
Proof.
  assert (H : splitTags (Scanning []) (formatXmlForDisplay xml)
              = splitTags (Scanning []) xml).
  { apply splitTags_spaced; [apply formatXmlForDisplay_spaced|].
    now apply splitTags_pieces. }
  split; [exact H|].
  unfold formatXmlForDisplay at 1 3. cbv zeta. now rewrite H.
Qed.

(** ** The detail view *)

Lemma eqb_eq (a b : JSString) : JS.eqb a b = true -> a = b.
Proof.
  revert b. induction a as [|x a IH]; intros [|y b] H;
    try discriminate; [reflexivity|].
  cbn [JS.eqb] in H. apply andb_prop in H as [Hx Hab].
  apply N.eqb_eq in Hx. subst. f_equal. now apply IH.
Qed.

(** The detail view asks for the record in the format chosen on the
    page.  When the request fails in the network, the status is not a
    success, or the body of a format other than XML is not JSON, the
    view is left as it was and the failure message names the id.  An
    accepted XML response opens the view on the body laid out by
    [formatXmlForDisplay] and shows no message. *)
Theorem view_outcomes P stringify id modal w :
  let format := dom w "responseFormat" in
  let request :=
    {| method := lit "GET";
       url := API_BASE ++ lit "/" ++ id ++ lit "?format=" ++ format;
       contentType := None; body := NoBody |} in
  ((exists m, fetchOutcome P (requests w ++ [request]) = NetworkError m)
   \/ (exists r,
          fetchOutcome P (requests w ++ [request]) = Responded r
          /\ (ok r = false
              \/ (JS.eqb format (lit "xml") = false
                  /\ exists m, json r = inl m))) ->
   viewReservation P stringify id modal w
   = (modal,
      shown error ([10060%N] ++ lit " Failed to load reservation #" ++ id)
        (requested request w)))
  /\ (forall r,
         fetchOutcome P (requests w ++ [request]) = Responded r ->
         ok r = true ->
         JS.eqb format (lit "xml") = true ->
         viewReservation P stringify id modal w
         = ({| modalOpen := true;
               modalDetails := formatXmlForDisplay (text r) |},
            requested request w)).
Proof.
  cbv zeta. unfold viewReservation, fetch. cbv zeta.
  cbn [requests withRequests]. fold (viewRequest id (dom w "responseFormat")).
  split.
  - intros [(m & ->)|(r & -> & [->|(Hx & m & Hj)])]; [reflexivity..|].
    rewrite Hx, Hj. now destruct (ok r).
  - intros r -> -> Hx. rewrite Hx. cbn [negb].
    apply eqb_eq in Hx. rewrite Hx. reflexivity.
Qed.

Lemma view_outcomes_witness :
  viewReservation (platformWith xmlErrorServer true) (fun _ => [])
    (lit "7") {| modalOpen := false; modalDetails := [] |}
    (listingWorld (lit "xml"))
  = ({| modalOpen := false; modalDetails := [] |},
     shown error ([10060%N] ++ lit " Failed to load reservation #" ++ lit "7")
       (requested
          {| method := lit "GET";
             url := API_BASE ++ lit "/" ++ lit "7" ++ lit "?format="
                    ++ lit "xml";
             contentType := None; body := NoBody |}
          (listingWorld (lit "xml")))).
Proof.
  exact (proj1 (@view_outcomes (platformWith xmlErrorServer true)
                  (fun _ => []) (lit "7")
                  {| modalOpen := false; modalDetails := [] |}
                  (listingWorld (lit "xml")))
           (or_intror (ex_intro _
              {| status := 500;
                 text := lit "<error>Internal Server Error</error>";
                 json := inl (lit "Unexpected token '<'") |}
              (conj eq_refl (or_introl eq_refl))))).
Defined.

(** ** The refresh button *)

(** The refresh button empties the search term and lists without a
    filter: the one request goes to the address of the list with the
    format alone, whatever had been typed in the search box. *)
Theorem refresh_lists_without_filter P w :
  sanitize P "searchInput" [] = [] ->
  fst (refresh P w) = Return tt
  /\ dom (snd (refresh P w)) "searchInput" = []
  /\ requests (snd (refresh P w))
     = requests w
       ++ [{| method := lit "GET";
              url := API_BASE ++ lit "?format=" ++ dom w "responseFormat";
              contentType := None; body := NoBody |}].
Proof.
  intros Hs. unfold refresh, bind, modify.
  rewrite loadReservations_eval. cbn [fst snd].
  match goal with |- context [listing P ?x] =>
    destruct (listing_frame P x) as (Hr & Hd & _) end.
  rewrite Hr, Hd. cbn [dom withDom requests]. unfold listUrl, assign.
  cbn [String.eqb Ascii.eqb Bool.eqb]. rewrite Hs.
  now repeat split.
Qed.

Lemma refresh_lists_without_filter_witness :
  requests (snd (refresh (platformWith emptyListServer true)
                   (withDom (assign "searchInput" (lit "boracay")
                               (dom (listingWorld (lit "json"))))
                      (listingWorld (lit "json")))))
  = [{| method := lit "GET";
        url := API_BASE ++ lit "?format=" ++ lit "json";
        contentType := None; body := NoBody |}].
Proof.
  exact (proj2 (proj2 (@refresh_lists_without_filter
                         (platformWith emptyListServer true)
                         (withDom (assign "searchInput" (lit "boracay")
                                     (dom (listingWorld (lit "json"))))
                            (listingWorld (lit "json")))
                         eq_refl))).
Defined.

(** ** An edit followed by a submission *)


